(** * LiveFitTrack: the user/session/data-access layer, embedded and verified

    The repository holds two versions of the application controller:

    - [src/app/app.component.ts] together with the [AuthService] facade it
      injects (modules [AuthService] and [App] below), and
    - an older, self-contained controller that talks to the SDK directly
      (module [Mono] below).

    Both are embedded as programs of one state-and-exception monad over an
    explicit model of the three external collaborators (document store,
    session provider, device location API). *)

From Stdlib Require Import ZArith String Ascii List Lia.
From stdpp Require Import gmap strings list sorting pretty.

Local Open Scope string_scope.
Local Open Scope Z_scope.

#[local] Set Warnings "-clear-no-such-hyp".

(** ** JavaScript values *)

(** A JS [number] is an IEEE-754 binary64; it is kept as its 64-bit pattern.
    The program never does arithmetic on numbers, it only stores them, reads
    them back and tests them for truthiness. *)
Definition number := Z.

Definition num_exponent (x : number) : Z := Z.land (Z.shiftr x 52) 2047.
Definition num_fraction (x : number) : Z := Z.land x (2 ^ 52 - 1).
Definition num_magnitude (x : number) : Z := Z.land x (2 ^ 63 - 1).

Definition num_is_nan (x : number) : bool :=
  (num_exponent x =? 2047) && negb (num_fraction x =? 0).
Definition num_is_zero (x : number) : bool := num_magnitude x =? 0.

(** [a === b] on numbers: NaN equals nothing, the two zeros are equal. *)
Definition num_eqb (a b : number) : bool :=
  negb (num_is_nan a) && negb (num_is_nan b) &&
  ((a =? b) || (num_is_zero a && num_is_zero b)).

#[global] Arguments num_is_nan : simpl never.
#[global] Arguments num_is_zero : simpl never.
#[global] Arguments num_eqb : simpl never.

Inductive value :=
  | VUndefined
  | VNull
  | VBool (b : bool)
  | VNum (x : number)
  | VStr (s : string)
  | VDate (ms : Z)            (* a JS [Date]: milliseconds since the epoch *)
  | VTimestamp (ns : Z).      (* a store [Timestamp]: nanoseconds since the epoch *)

#[global] Instance value_eq_dec : EqDecision value.
Proof. solve_decision. Defined.

(** The number literal [0]. *)
Definition zero : value := VNum 0.

(** ToBoolean. *)
Definition truthy (v : value) : bool :=
  match v with
  | VUndefined | VNull => false
  | VBool b => b
  | VNum x => negb (num_is_zero x || num_is_nan x)
  | VStr s => negb (String.eqb s "")
  | VDate _ | VTimestamp _ => true
  end.

(** [a || b]. *)
Definition js_or (a b : value) : value := if truthy a then a else b.

(** A plain JS object, and a stored document: field name to value. *)
Abbreviation obj := (gmap string value).

(** [o[k]]: a missing property reads as [undefined]. *)
Definition prop (o : obj) (k : string) : value := default VUndefined (o !! k).

(** [{...a, ...b}]: the properties of [b] win. *)
Definition spread (a b : obj) : obj := b ∪ a.

(** [Timestamp.toDate()], which drops the fraction of a millisecond, and
    [Timestamp.fromDate(d)]. *)
Definition toDate (ns : Z) : value := VDate (ns ÷ 1000000).
Definition fromDate (ms : Z) : value := VTimestamp (ms * 1000000).

(** ** Exceptions and the state monad *)

(** What a [catch (error: any)] can receive: an error of the hosted services,
    whose [code] is a string; a [GeolocationPositionError], whose [code] is a
    number and which carries the constants [PERMISSION_DENIED] = 1,
    [POSITION_UNAVAILABLE] = 2 and [TIMEOUT] = 3; or a [TypeError], which has
    no [code]. *)
Inductive js_error :=
  | FirebaseError (code : string) (message : string)
  | PositionError (code : Z) (message : string)
  | TypeError (message : string).

Inductive result (A : Type) :=
  | Ok (a : A)
  | Throw (e : js_error).
Arguments Ok {A} a.
Arguments Throw {A} e.

Definition M (S A : Type) : Type := S → result A * S.

Definition ret {S A} (a : A) : M S A := λ s, (Ok a, s).
Definition bind {S A B} (m : M S A) (k : A → M S B) : M S B :=
  λ s, match m s with
       | (Ok a, s') => k a s'
       | (Throw e, s') => (Throw e, s')
       end.
Definition throw {S A} (e : js_error) : M S A := λ s, (Throw e, s).
Definition gets {S A} (f : S → A) : M S A := λ s, (Ok (f s), s).
Definition modify {S} (f : S → S) : M S unit := λ s, (Ok tt, f s).

(** [try { m } catch (e) { h e }]. *)
Definition try_catch {S A} (m : M S A) (h : js_error → M S A) : M S A :=
  λ s, match m s with
       | (Ok a, s') => (Ok a, s')
       | (Throw e, s') => h e s'
       end.

(** [try { m } finally { f }], for an [f] that does not throw. *)
Definition finally {S A} (m : M S A) (f : S → S) : M S A :=
  λ s, let '(r, s') := m s in (r, f s').

(** A pure computation that may throw, run inside the monad. *)
Definition lift_result {S A} (r : result A) : M S A := λ s, (r, s).

Declare Scope js_scope.
Delimit Scope js_scope with js.
Notation "x <- m ;; k" := (bind m (λ x, k))
  (at level 100, m at next level, right associativity) : js_scope.
Notation "m ;; k" := (bind m (λ _, k))
  (at level 100, right associativity) : js_scope.
Local Open Scope js_scope.

(** [Array.prototype.map] / [forEach] with a callback that may throw. *)
Fixpoint map_result {A B} (f : A → result B) (l : list A) : result (list B) :=
  match l with
  | [] => Ok []
  | x :: l' =>
      match f x with
      | Throw e => Throw e
      | Ok y => match map_result f l' with
                | Throw e => Throw e
                | Ok ys => Ok (y :: ys)
                end
      end
  end.

(** ** The document store (external collaborator)

    A path-addressed mapping from document paths to documents.  A document
    [users/u] has path [["users"; u]]; the workouts of [u] are the documents
    [["users"; u; "workouts"; id]].  A user id is taken as the session
    provider hands it out: one path segment.  A record id that is handed to
    a delete is turned into a reference the way the SDK does it ([SDK.doc]).
    The store's value order is the one the hosted database documents: null, then booleans, then numbers (NaN first),
    then timestamps, then strings by byte order. *)

Definition num_key (x : number) : Z :=
  if num_is_nan x then - 2 ^ 63
  else if Z.testbit x 63 then - num_magnitude x
  else num_magnitude x.

#[global] Arguments num_key : simpl never.

Definition value_rank (v : value) : Z :=
  match v with
  | VUndefined => 0
  | VNull => 1
  | VBool _ => 2
  | VNum _ => 3
  | VDate _ | VTimestamp _ => 4
  | VStr _ => 5
  end.

Definition value_ord (v : value) : Z :=
  match v with
  | VBool b => Z.b2z b
  | VNum x => num_key x
  | VDate ms => ms * 1000000
  | VTimestamp ns => ns
  | _ => 0
  end.

Definition value_leb (a b : value) : bool :=
  (value_rank a <? value_rank b) ||
  ((value_rank a =? value_rank b) &&
   match a, b with
   | VStr s, VStr t => String.leb s t
   | _, _ => value_ord a <=? value_ord b
   end).

Abbreviation row := (string * obj)%type.

(** [orderBy(field, 'desc')]: larger values first, ties by document id,
    also descending. *)
Definition row_descb (field : string) (x y : row) : bool :=
  let kx := prop x.2 field in
  let ky := prop y.2 field in
  if value_leb kx ky
  then (if value_leb ky kx then String.leb y.1 x.1 else false)
  else true.
Definition row_desc (field : string) (x y : row) : Prop :=
  Is_true (row_descb field x y).

(** The default order of a query: by document id, ascending. *)
Definition row_asc (x y : row) : Prop := Is_true (String.leb x.1 y.1).

#[global] Instance row_desc_dec field x y : Decision (row_desc field x y).
Proof. unfold row_desc. apply _. Defined.

#[global] Instance row_asc_dec x y : Decision (row_asc x y).
Proof. unfold row_asc. apply _. Defined.

Abbreviation path := (list string).

(** The document id of [p] when [p] is a direct child of collection [coll]. *)
Fixpoint child_id (coll p : path) : option string :=
  match coll, p with
  | [], [id] => Some id
  | c :: coll', q :: p' => if String.eqb c q then child_id coll' p' else None
  | _, _ => None
  end.

Definition children (coll : path) (st : gmap path obj) : list row :=
  omap (λ pd : path * obj, id ← child_id coll pd.1; Some (id, pd.2))
       (map_to_list st).

(** What the SDK stores for a JS value: a [Date] becomes a [Timestamp]. *)
Definition to_store (v : value) : value :=
  match v with
  | VDate ms => fromDate ms
  | _ => v
  end.

(** The SDK refuses data holding [undefined] before it contacts the store. *)
Definition has_undefined (d : obj) : bool :=
  existsb (λ kv : string * value, bool_decide (kv.2 = VUndefined))
          (map_to_list d).

(** ** The session provider and the device location API *)

Record auth_user := AuthUser {
  auth_uid : string;
  auth_email : option string;           (* [string | null] *)
  auth_displayName : option string      (* [string | null] *)
}.

Record geo_options := GeoOptions {
  enableHighAccuracy : bool;
  timeout : Z;
  maximumAge : Z
}.

Record geo_position := GeoPosition {
  pos_latitude : number;
  pos_longitude : number;
  pos_accuracy : number;
  pos_timestamp : Z
}.

(** The device answers a request with a position or with an error code
    (1 permission denied, 2 position unavailable, 3 timeout). *)
Inductive geo_reply :=
  | GeoOk (p : geo_position)
  | GeoFail (code : Z).

(** ** The world the application runs in *)

Record world := World {
  store : gmap path obj;
  (** outcomes of the coming remote calls, oldest first: [Some e] makes the
      call fail with [e]; once the list is used up, calls succeed *)
  faults : list (option js_error);
  (** the clock read by [new Date()], in milliseconds *)
  now : Z;
  currentUser : option auth_user;
  (** the provider's verdict on a sign-in with an email and a password *)
  authenticate : string → string → js_error + auth_user;
  (** [navigator.geolocation]: absent, or the reply of the device *)
  geolocation : option geo_reply;
  (** requests made to the device, oldest first, each with the options
      object it was given, if any *)
  geo_requests : list (option geo_options)
}.

Definition set_store (f : gmap path obj → gmap path obj) (w : world) : world :=
  World (f (store w)) (faults w) (now w) (currentUser w) (authenticate w)
        (geolocation w) (geo_requests w).
Definition set_faults (fs : list (option js_error)) (w : world) : world :=
  World (store w) fs (now w) (currentUser w) (authenticate w)
        (geolocation w) (geo_requests w).
Definition set_currentUser (u : option auth_user) (w : world) : world :=
  World (store w) (faults w) (now w) u (authenticate w)
        (geolocation w) (geo_requests w).
Definition log_geo_request (o : option geo_options) (w : world) : world :=
  World (store w) (faults w) (now w) (currentUser w) (authenticate w)
        (geolocation w) (geo_requests w ++ [o])%list.

(** The failure the next remote call meets, if any, and the world once that
    call has been answered. *)
Definition next_fault (w : world) : option js_error := mjoin (head (faults w)).
Definition pop_fault (w : world) : world := set_faults (tail (faults w)) w.

(** The snapshots of the three kinds of query the application makes. *)
Definition query_all (coll : path) (st : gmap path obj) : list row :=
  merge_sort row_asc (children coll st).

Definition query_where (coll : path) (field : string) (v : value)
    (st : gmap path obj) : list row :=
  merge_sort row_asc
    (filter (λ r : row, r.2 !! field = Some v) (children coll st)).

(** Documents without the field are left out of an ordered query. *)
Definition query_desc (coll : path) (field : string) (st : gmap path obj)
    : list row :=
  merge_sort (row_desc field)
    (filter (λ r : row, is_Some (r.2 !! field)) (children coll st)).

(** The id the store gives a new document: one that no document of the
    collection has. *)
Definition fresh_id (coll : path) (st : gmap path obj) : string :=
  fresh (list_to_set (children coll st).*1 : gset string).

(** [s.split('/')] *)
Fixpoint split_slash (s : string) : list string :=
  match s with
  | String c s' =>
      if Ascii.eqb c "/" then EmptyString :: split_slash s'
      else match split_slash s' with
           | x :: xs => String c x :: xs
           | [] => [String c EmptyString]
           end
  | EmptyString => [EmptyString]
  end.

(** [s.indexOf('//') >= 0] *)
Fixpoint has_double_slash (s : string) : bool :=
  match s with
  | String c s' =>
      (Ascii.eqb c "/" &&
       match s' with
       | String c' _ => Ascii.eqb c' "/"
       | EmptyString => false
       end)
      || has_double_slash s'
  | EmptyString => false
  end.

(** [segments.join('/')] *)
Fixpoint join_slash (p : path) : string :=
  match p with
  | [] => ""
  | [x] => x
  | x :: p' => x +:+ "/" +:+ join_slash p'
  end.

Module SDK.

Definition invalid_segment (component : string) : js_error :=
  FirebaseError "invalid-argument"
    ("Invalid segment (" +:+ component +:+
     "). Paths must not contain // in them.").
Definition invalid_document_reference (p : path) : js_error :=
  FirebaseError "invalid-argument"
    ("Invalid document reference. Document references must have an even " +:+
     "number of segments, but " +:+ join_slash p +:+ " has " +:+
     pretty (length p) +:+ ".").

(** [ResourcePath.fromString] on one component: a component holding [//] is
    refused; it is split at [/] and its empty segments are dropped. *)
Definition segments (component : string) : result path :=
  if has_double_slash component then Throw (invalid_segment component)
  else Ok (List.filter (λ seg, negb (String.eqb seg "")) (split_slash component)).

(** [doc(firestore, ...coll, id)] for the segments [coll] of a collection:
    the reference that [id] names under it.  Nothing is sent; an id that
    does not lead to a document makes the call throw. *)
Definition doc (coll : path) (id : string) : result path :=
  match segments id with
  | Ok segs =>
      let p := (coll ++ segs)%list in
      if Nat.even (length p) then Ok p
      else Throw (invalid_document_reference p)
  | Throw e => Throw e
  end.

(** One round trip to a hosted service: it uses up the next outcome. *)
Definition remote : M world unit :=
  λ w, (match next_fault w with
        | Some e => Throw e
        | None => Ok tt
        end, pop_fault w).

Definition invalid_data : js_error :=
  FirebaseError "invalid-argument" "Unsupported field value: undefined".
Definition not_found : js_error :=
  FirebaseError "not-found" "No document to update".

Definition validate (data : obj) : M world unit :=
  if has_undefined data then throw invalid_data else ret tt.

Definition getDoc (p : path) : M world (option obj) :=
  remote;; gets (λ w, store w !! p).

Definition setDoc (p : path) (data : obj) : M world unit :=
  validate data;; remote;;
  modify (set_store (λ st, <[p := to_store <$> data]> st)).

(** [setDoc(ref, data, { merge: true })]. *)
Definition setDoc_merge (p : path) (data : obj) : M world unit :=
  validate data;; remote;;
  modify (set_store (λ st,
    <[p := spread (default ∅ (st !! p)) (to_store <$> data)]> st)).

Definition updateDoc (p : path) (data : obj) : M world unit :=
  validate data;; remote;;
  old <- gets (λ w, store w !! p);;
  match old with
  | None => throw not_found
  | Some d =>
      modify (set_store (λ st, <[p := spread d (to_store <$> data)]> st))
  end.

Definition addDoc (coll : path) (data : obj) : M world string :=
  validate data;; remote;;
  id <- gets (λ w, fresh_id coll (store w));;
  modify (set_store (λ st, <[(coll ++ [id])%list := to_store <$> data]> st));;
  ret id.

Definition deleteDoc (p : path) : M world unit :=
  remote;; modify (set_store (λ st, delete p st)).

(** [getDocs(collection)] *)
Definition getDocs (coll : path) : M world (list row) :=
  remote;; gets (λ w, query_all coll (store w)).

(** [getDocs(query(collection, where(field, '==', v)))] *)
Definition getDocs_where (coll : path) (field : string) (v : value)
  : M world (list row) :=
  remote;; gets (λ w, query_where coll field v (store w)).

(** [getDocs(query(collection, orderBy(field, 'desc')))] *)
Definition getDocs_orderBy_desc (coll : path) (field : string)
  : M world (list row) :=
  remote;; gets (λ w, query_desc coll field (store w)).

(** [updateProfile(user, { displayName })]. *)
Definition updateProfile (name : string) : M world unit :=
  remote;;
  modify (λ w, set_currentUser
    ((λ u, AuthUser (auth_uid u) (auth_email u) (Some name)) <$> currentUser w)
    w).

Definition signInWithEmailAndPassword (em pw : string) : M world auth_user :=
  λ w, match authenticate w em pw with
       | inl e => (Throw e, w)
       | inr u => (Ok u, set_currentUser (Some u) w)
       end.

End SDK.

(** A controller's state next to the world it runs in. *)
Record sys (C : Type) := Sys { env : world; ctl : C }.
Arguments Sys {C} env ctl.
Arguments env {C} s.
Arguments ctl {C} s.

Definition liftW {C A} (m : M world A) : M (sys C) A :=
  λ s, let '(r, w) := m (env s) in (r, Sys w (ctl s)).
Definition getsC {C A} (f : C → A) : M (sys C) A := gets (λ s, f (ctl s)).
Definition setC {C} (f : C → C) : M (sys C) unit :=
  modify (λ s, Sys (env s) (f (ctl s))).

(** [new Date()]. *)
Definition clock : M world Z := gets now.

(** [v?.toDate ? v.toDate() : v]: only a store timestamp has [toDate]. *)
Definition date_or_raw (v : value) : value :=
  match v with
  | VTimestamp ns => toDate ns
  | _ => v
  end.

(** ** The access facade (auth.service.ts) *)

Module AuthService.

Record User := mkUser {
  uid : value;
  email : value;
  username : value;
  displayName : value;
  createdAt : value
}.

Definition rethrow {A} (e : js_error) : M world A := throw e.

Definition login (em password : string) : M world unit :=
  try_catch (SDK.signInWithEmailAndPassword em password;; ret tt) rethrow.

(** The [User] that [getUserData] builds from a document. *)
Definition user_of_doc (data : obj) : User :=
  mkUser (prop data "uid") (prop data "email") (prop data "username")
         (prop data "displayName") (date_or_raw (prop data "createdAt")).

Definition getUserData (userId : string) : M world (option User) :=
  try_catch
    (userDoc <- SDK.getDoc ["users"; userId];;
     match userDoc with
     | Some data => ret (Some (user_of_doc data))
     | None => ret None
     end)
    rethrow.

Definition updateUserProfile (userId name : string) : M world unit :=
  try_catch
    (cu <- gets currentUser;;
     (if cu is Some _ then SDK.updateProfile name else ret tt);;
     SDK.setDoc_merge ["users"; userId]
       {[ "username" := VStr name; "displayName" := VStr name ]})
    rethrow.

(** [{ id: doc.id, ...data, date: ... }] *)
Definition workout_of_doc (r : row) : obj :=
  <["date" := date_or_raw (prop r.2 "date")]>
    (spread {[ "id" := VStr r.1 ]} r.2).

Definition loadWorkouts (userId : string) : M world (list obj) :=
  try_catch
    (docs <- SDK.getDocs_orderBy_desc ["users"; userId; "workouts"] "date";;
     ret (workout_of_doc <$> docs))
    rethrow.

(** [{ ...workout, date: new Date() }] *)
Definition addWorkout (userId : string) (workout : obj) : M world string :=
  try_catch
    (d <- clock;;
     SDK.addDoc ["users"; userId; "workouts"] (<["date" := VDate d]> workout))
    rethrow.

Definition deleteWorkout (userId workoutId : string) : M world unit :=
  try_catch
    (workoutDocRef <- lift_result
                        (SDK.doc ["users"; userId; "workouts"] workoutId);;
     SDK.deleteDoc workoutDocRef)
    rethrow.

(** [{ id: doc.id, ...data, timestamp: ..., savedAt: ... }] *)
Definition location_of_doc (r : row) : obj :=
  <["savedAt" := date_or_raw (prop r.2 "savedAt")]>
    (<["timestamp" := date_or_raw (prop r.2 "timestamp")]>
       (spread {[ "id" := VStr r.1 ]} r.2)).

Definition loadLocations (userId : string) : M world (list obj) :=
  try_catch
    (docs <- SDK.getDocs_orderBy_desc ["users"; userId; "locations"] "savedAt";;
     ret (location_of_doc <$> docs))
    rethrow.

(** [{ ...location, savedAt: new Date() }] *)
Definition saveLocation (userId : string) (location : obj) : M world string :=
  try_catch
    (d <- clock;;
     SDK.addDoc ["users"; userId; "locations"]
                (<["savedAt" := VDate d]> location))
    rethrow.

Definition deleteLocation (userId locationId : string) : M world unit :=
  try_catch
    (locationDocRef <- lift_result
                         (SDK.doc ["users"; userId; "locations"] locationId);;
     SDK.deleteDoc locationDocRef)
    rethrow.

End AuthService.

(** [doc(firestore, 'users', id, ...)] with an [id] that is not a string
    throws before anything is sent. *)
Definition path_segment (v : value) : result string :=
  match v with
  | VStr s => Ok s
  | _ => Throw (TypeError "path.indexOf is not a function")
  end.

(** ** The controller (app.component.ts) *)

Module App.
Import AuthService.

Record state := State {
  loginEmail : string;
  loginPassword : string;
  showAddWorkout : bool;
  locationLoading : bool;
  workouts : list obj;
  savedLocations : list obj;
  userData : option User;
  loginError : string;
  locationError : string;
  currentLocation : option obj;
  newWorkout : obj;
  editUsername : value
}.

Definition set_loginEmail (x : string) (c : state) : state :=
  State x (loginPassword c) (showAddWorkout c) (locationLoading c)
    (workouts c) (savedLocations c) (userData c) (loginError c)
    (locationError c) (currentLocation c) (newWorkout c) (editUsername c).
Definition set_loginPassword (x : string) (c : state) : state :=
  State (loginEmail c) x (showAddWorkout c) (locationLoading c)
    (workouts c) (savedLocations c) (userData c) (loginError c)
    (locationError c) (currentLocation c) (newWorkout c) (editUsername c).
Definition set_showAddWorkout (x : bool) (c : state) : state :=
  State (loginEmail c) (loginPassword c) x (locationLoading c)
    (workouts c) (savedLocations c) (userData c) (loginError c)
    (locationError c) (currentLocation c) (newWorkout c) (editUsername c).
Definition set_locationLoading (x : bool) (c : state) : state :=
  State (loginEmail c) (loginPassword c) (showAddWorkout c) x
    (workouts c) (savedLocations c) (userData c) (loginError c)
    (locationError c) (currentLocation c) (newWorkout c) (editUsername c).
Definition set_workouts (x : list obj) (c : state) : state :=
  State (loginEmail c) (loginPassword c) (showAddWorkout c)
    (locationLoading c) x (savedLocations c) (userData c) (loginError c)
    (locationError c) (currentLocation c) (newWorkout c) (editUsername c).
Definition set_savedLocations (x : list obj) (c : state) : state :=
  State (loginEmail c) (loginPassword c) (showAddWorkout c)
    (locationLoading c) (workouts c) x (userData c) (loginError c)
    (locationError c) (currentLocation c) (newWorkout c) (editUsername c).
Definition set_userData (x : option User) (c : state) : state :=
  State (loginEmail c) (loginPassword c) (showAddWorkout c)
    (locationLoading c) (workouts c) (savedLocations c) x (loginError c)
    (locationError c) (currentLocation c) (newWorkout c) (editUsername c).
Definition set_loginError (x : string) (c : state) : state :=
  State (loginEmail c) (loginPassword c) (showAddWorkout c)
    (locationLoading c) (workouts c) (savedLocations c) (userData c) x
    (locationError c) (currentLocation c) (newWorkout c) (editUsername c).
Definition set_locationError (x : string) (c : state) : state :=
  State (loginEmail c) (loginPassword c) (showAddWorkout c)
    (locationLoading c) (workouts c) (savedLocations c) (userData c)
    (loginError c) x (currentLocation c) (newWorkout c) (editUsername c).
Definition set_currentLocation (x : option obj) (c : state) : state :=
  State (loginEmail c) (loginPassword c) (showAddWorkout c)
    (locationLoading c) (workouts c) (savedLocations c) (userData c)
    (loginError c) (locationError c) x (newWorkout c) (editUsername c).
Definition set_newWorkout (x : obj) (c : state) : state :=
  State (loginEmail c) (loginPassword c) (showAddWorkout c)
    (locationLoading c) (workouts c) (savedLocations c) (userData c)
    (loginError c) (locationError c) (currentLocation c) x (editUsername c).
Definition set_editUsername (x : value) (c : state) : state :=
  State (loginEmail c) (loginPassword c) (showAddWorkout c)
    (locationLoading c) (workouts c) (savedLocations c) (userData c)
    (loginError c) (locationError c) (currentLocation c) (newWorkout c) x.

(** The form as the component initialises and resets it. *)
Definition blank_workout (d : Z) : obj :=
  {[ "name" := VStr ""; "type" := VStr ""; "duration" := zero;
     "notes" := VStr ""; "date" := VDate d ]}.

Definition getAuthErrorMessage (error : js_error) : string :=
  match error with
  | FirebaseError code _ =>
      if String.eqb code "auth/invalid-email" then
        "Invalid email address."
      else if String.eqb code "auth/user-disabled" then
        "This account has been disabled."
      else if String.eqb code "auth/user-not-found" then
        "No account found with this email."
      else if String.eqb code "auth/wrong-password" then
        "Incorrect password."
      else if String.eqb code "auth/email-already-in-use" then
        "An account with this email already exists."
      else if String.eqb code "auth/weak-password" then
        "Password should be at least 6 characters."
      else if String.eqb code "auth/network-request-failed" then
        "Network error. Please check your connection."
      else "An error occurred. Please try again."
  | _ => "An error occurred. Please try again."
  end.

(** The argument is a [GeolocationPositionError]; [code] is its code. *)
Definition getLocationErrorMessage (code : Z) : string :=
  if code =? 1 then
    "Location access denied. Please enable location permissions."
  else if code =? 2 then "Location information unavailable."
  else if code =? 3 then "Location request timed out."
  else "An unknown error occurred while getting location.".

Definition onLogin : M (sys state) unit :=
  try_catch
    (setC (set_loginError "");;
     em <- getsC loginEmail;;
     pw <- getsC loginPassword;;
     liftW (login em pw);;
     setC (set_loginEmail "");;
     setC (set_loginPassword ""))
    (λ error, setC (set_loginError (getAuthErrorMessage error))).

(** A facade call with [user.uid] as the user id. *)
Definition with_uid {A} (u : User) (f : string → M world A)
  : M (sys state) A :=
  match path_segment (uid u) with
  | Ok userId => liftW (f userId)
  | Throw e => throw e
  end.

(** [!user?.uid] *)
Definition no_uid (user : option User) : bool :=
  match user with
  | None => true
  | Some u => negb (truthy (uid u))
  end.

Definition loadWorkouts : M (sys state) unit :=
  user <- getsC userData;;
  match user with
  | Some u =>
      if no_uid user then ret tt else
      try_catch
        (ws <- with_uid u AuthService.loadWorkouts;;
         setC (set_workouts ws))
        (λ _, ret tt)
  | None => ret tt
  end.

Definition loadLocations : M (sys state) unit :=
  user <- getsC userData;;
  match user with
  | Some u =>
      if no_uid user then ret tt else
      try_catch
        (ls <- with_uid u AuthService.loadLocations;;
         setC (set_savedLocations ls))
        (λ _, ret tt)
  | None => ret tt
  end.

Definition addWorkout : M (sys state) unit :=
  user <- getsC userData;;
  match user with
  | Some u =>
      if no_uid user then ret tt else
      try_catch
        (nw <- getsC newWorkout;;
         with_uid u (λ userId, AuthService.addWorkout userId nw);;
         setC (set_showAddWorkout false);;
         d <- liftW clock;;
         setC (set_newWorkout (blank_workout d));;
         loadWorkouts)
        (λ _, ret tt)
  | None => ret tt
  end.

Definition deleteWorkout (workoutId : string) : M (sys state) unit :=
  user <- getsC userData;;
  match user with
  | Some u =>
      if no_uid user then ret tt else
      try_catch
        (with_uid u (λ userId, AuthService.deleteWorkout userId workoutId);;
         loadWorkouts)
        (λ _, ret tt)
  | None => ret tt
  end.

Definition saveLocation : M (sys state) unit :=
  user <- getsC userData;;
  location <- getsC currentLocation;;
  match user, location with
  | Some u, Some loc =>
      if no_uid user then ret tt else
      try_catch
        (with_uid u (λ userId, AuthService.saveLocation userId loc);;
         setC (set_currentLocation None);;
         loadLocations)
        (λ _, ret tt)
  | _, _ => ret tt
  end.

Definition deleteLocation (locationId : string) : M (sys state) unit :=
  user <- getsC userData;;
  match user with
  | Some u =>
      if no_uid user then ret tt else
      try_catch
        (with_uid u (λ userId, AuthService.deleteLocation userId locationId);;
         loadLocations)
        (λ _, ret tt)
  | None => ret tt
  end.

(** The transient location built from a device position. *)
Definition location_of_position (p : geo_position) (d : Z) : obj :=
  {[ "id" := VStr "";
     "latitude" := VNum (pos_latitude p);
     "longitude" := VNum (pos_longitude p);
     "accuracy" := VNum (pos_accuracy p);
     "timestamp" := VDate (pos_timestamp p);
     "savedAt" := VDate d ]}.

(** [getCurrentPosition(success, error)]: the request carries no options
    object; the callback that the device's reply selects runs next. *)
Definition getCurrentLocation : M (sys state) unit :=
  setC (set_locationLoading true);;
  setC (set_locationError "");;
  geo <- liftW (gets geolocation);;
  match geo with
  | None =>
      setC (set_locationError "Geolocation is not supported by this browser.");;
      setC (set_locationLoading false)
  | Some reply =>
      liftW (modify (log_geo_request None));;
      match reply with
      | GeoOk position =>
          d <- liftW clock;;
          setC (set_currentLocation (Some (location_of_position position d)));;
          setC (set_locationLoading false)
      | GeoFail code =>
          setC (set_locationError (getLocationErrorMessage code));;
          setC (set_locationLoading false)
      end
  end.

(** [Promise.all([loadWorkouts(), loadLocations()])]: the two loads write
    different signals; they are run one after the other. *)
Definition loadUserData : M (sys state) unit :=
  loadWorkouts;; loadLocations.

(** The subscriber of [user$], run on one value of the stream. *)
Definition on_user (firebaseUser : option auth_user) : M (sys state) unit :=
  match firebaseUser with
  | Some fu =>
      try_catch
        (ud <- liftW (getUserData (auth_uid fu));;
         setC (set_userData ud);;
         setC (set_editUsername
                 (js_or (if ud is Some u then username u else VUndefined)
                        (VStr ""))))
        (λ _, ret tt);;
      loadUserData
  | None =>
      setC (set_workouts []);;
      setC (set_savedLocations []);;
      setC (set_userData None)
  end.

(** The signals as the component declares them. *)
Definition initial (d : Z) : state :=
  State "" "" false false [] [] None "" "" None (blank_workout d) (VStr "").

End App.

(** ** String helpers of the older controller *)

(** The white space that [trim] strips, for a string kept as UTF-8 bytes.
    One byte: tab, line feed, vertical tab, form feed, carriage return and
    space.  Two bytes: U+00A0.  Three bytes: U+1680, U+2000 to U+200A,
    U+2028, U+2029, U+202F, U+205F, U+3000 and U+FEFF. *)
Definition is_space (c : ascii) : bool :=
  let n := N_of_ascii c in ((9 <=? n) && (n <=? 13) || (n =? 32))%N.
Definition is_space2 (c1 c2 : ascii) : bool :=
  ((N_of_ascii c1 =? 194) && (N_of_ascii c2 =? 160))%N.
Definition is_space3 (c1 c2 c3 : ascii) : bool :=
  let a := N_of_ascii c1 in
  let b := N_of_ascii c2 in
  let c := N_of_ascii c3 in
  ((a =? 225) && (b =? 154) && (c =? 128)
   || (a =? 226) && (b =? 128) &&
      ((128 <=? c) && (c <=? 138) || (c =? 168) || (c =? 169) || (c =? 175))
   || (a =? 226) && (b =? 129) && (c =? 159)
   || (a =? 227) && (b =? 128) && (c =? 128)
   || (a =? 239) && (b =? 187) && (c =? 191))%N.

(** Drop the white space a string starts with.  With [backwards] the string
    is read from its end, so the bytes of a character come last first. *)
Fixpoint strip (backwards : bool) (s : string) : string :=
  match s with
  | String c1 s1 =>
      if is_space c1 then strip backwards s1 else
      match s1 with
      | String c2 s2 =>
          if (if backwards then is_space2 c2 c1 else is_space2 c1 c2)
          then strip backwards s2 else
          match s2 with
          | String c3 s3 =>
              if (if backwards then is_space3 c3 c2 c1 else is_space3 c1 c2 c3)
              then strip backwards s3 else s
          | EmptyString => s
          end
      | EmptyString => s
      end
  | EmptyString => EmptyString
  end.

(** [s.trimStart()] *)
Definition trim_start (s : string) : string := strip false s.

(** [s.trim()] *)
Definition trim (s : string) : string :=
  String.rev (strip true (String.rev (trim_start s))).

(** [s.split(sep)[0]] *)
Fixpoint before (sep : ascii) (s : string) : string :=
  match s with
  | String c s' => if Ascii.eqb c sep then EmptyString else String c (before sep s')
  | EmptyString => EmptyString
  end.

Definition is_upper (c : ascii) : bool :=
  let n := N_of_ascii c in ((65 <=? n) && (n <=? 90))%N.
Definition is_lower (c : ascii) : bool :=
  let n := N_of_ascii c in ((97 <=? n) && (n <=? 122))%N.

Fixpoint all_letters (s : string) : bool :=
  match s with
  | String c s' => (is_upper c || is_lower c) && all_letters s'
  | EmptyString => true
  end.

(** [s.match(/^[a-zA-Z]+$/)] is not null. *)
Definition letters_only (s : string) : bool :=
  negb (String.eqb s "") && all_letters s.

(** [toUpperCase] and [toLowerCase], as they act on ASCII letters: they are
    only applied to strings that passed [letters_only]. *)
Definition upper_char (c : ascii) : ascii :=
  if is_lower c then ascii_of_N (N_of_ascii c - 32) else c.
Definition lower_char (c : ascii) : ascii :=
  if is_upper c then ascii_of_N (N_of_ascii c + 32) else c.

Fixpoint toLowerCase (s : string) : string :=
  match s with
  | String c s' => String (lower_char c) (toLowerCase s')
  | EmptyString => EmptyString
  end.

(** [s.charAt(0).toUpperCase() + s.slice(1).toLowerCase()] *)
Definition capitalise (s : string) : string :=
  match s with
  | String c s' => String (upper_char c) (toLowerCase s')
  | EmptyString => EmptyString
  end.

(** ** The older controller, which calls the SDK itself *)

Module Mono.

Record Workout := mkWorkout {
  w_id : string;
  name : value;
  type : value;
  duration : value;
  notes : value;
  date : Z                        (* a [Date] *)
}.

Record Location := mkLocation {
  l_id : string;
  latitude : value;
  longitude : value;
  accuracy : value;
  timestamp : Z;                  (* a [Date] *)
  savedAt : Z                     (* a [Date] *)
}.

Record state := State {
  loginEmail : string;
  loginPassword : string;
  registerUsername : string;
  loginError : string;
  workouts : list Workout;
  showAddWorkout : bool;
  newWorkout : obj;
  currentLocation : option Location;
  savedLocations : list Location;
  locationLoading : bool;
  locationError : string;
  userProfile : option obj;
  editUsername : string;
  isPremium : value
}.

Definition set_loginEmail (x : string) (c : state) : state :=
  State x (loginPassword c) (registerUsername c) (loginError c) (workouts c)
    (showAddWorkout c) (newWorkout c) (currentLocation c) (savedLocations c)
    (locationLoading c) (locationError c) (userProfile c) (editUsername c)
    (isPremium c).
Definition set_loginPassword (x : string) (c : state) : state :=
  State (loginEmail c) x (registerUsername c) (loginError c) (workouts c)
    (showAddWorkout c) (newWorkout c) (currentLocation c) (savedLocations c)
    (locationLoading c) (locationError c) (userProfile c) (editUsername c)
    (isPremium c).
Definition set_registerUsername (x : string) (c : state) : state :=
  State (loginEmail c) (loginPassword c) x (loginError c) (workouts c)
    (showAddWorkout c) (newWorkout c) (currentLocation c) (savedLocations c)
    (locationLoading c) (locationError c) (userProfile c) (editUsername c)
    (isPremium c).
Definition set_loginError (x : string) (c : state) : state :=
  State (loginEmail c) (loginPassword c) (registerUsername c) x (workouts c)
    (showAddWorkout c) (newWorkout c) (currentLocation c) (savedLocations c)
    (locationLoading c) (locationError c) (userProfile c) (editUsername c)
    (isPremium c).
Definition set_workouts (x : list Workout) (c : state) : state :=
  State (loginEmail c) (loginPassword c) (registerUsername c) (loginError c)
    x (showAddWorkout c) (newWorkout c) (currentLocation c)
    (savedLocations c) (locationLoading c) (locationError c) (userProfile c)
    (editUsername c) (isPremium c).
Definition set_showAddWorkout (x : bool) (c : state) : state :=
  State (loginEmail c) (loginPassword c) (registerUsername c) (loginError c)
    (workouts c) x (newWorkout c) (currentLocation c) (savedLocations c)
    (locationLoading c) (locationError c) (userProfile c) (editUsername c)
    (isPremium c).
Definition set_newWorkout (x : obj) (c : state) : state :=
  State (loginEmail c) (loginPassword c) (registerUsername c) (loginError c)
    (workouts c) (showAddWorkout c) x (currentLocation c) (savedLocations c)
    (locationLoading c) (locationError c) (userProfile c) (editUsername c)
    (isPremium c).
Definition set_currentLocation (x : option Location) (c : state) : state :=
  State (loginEmail c) (loginPassword c) (registerUsername c) (loginError c)
    (workouts c) (showAddWorkout c) (newWorkout c) x (savedLocations c)
    (locationLoading c) (locationError c) (userProfile c) (editUsername c)
    (isPremium c).
Definition set_savedLocations (x : list Location) (c : state) : state :=
  State (loginEmail c) (loginPassword c) (registerUsername c) (loginError c)
    (workouts c) (showAddWorkout c) (newWorkout c) (currentLocation c) x
    (locationLoading c) (locationError c) (userProfile c) (editUsername c)
    (isPremium c).
Definition set_locationLoading (x : bool) (c : state) : state :=
  State (loginEmail c) (loginPassword c) (registerUsername c) (loginError c)
    (workouts c) (showAddWorkout c) (newWorkout c) (currentLocation c)
    (savedLocations c) x (locationError c) (userProfile c) (editUsername c)
    (isPremium c).
Definition set_locationError (x : string) (c : state) : state :=
  State (loginEmail c) (loginPassword c) (registerUsername c) (loginError c)
    (workouts c) (showAddWorkout c) (newWorkout c) (currentLocation c)
    (savedLocations c) (locationLoading c) x (userProfile c)
    (editUsername c) (isPremium c).
Definition set_userProfile (x : option obj) (c : state) : state :=
  State (loginEmail c) (loginPassword c) (registerUsername c) (loginError c)
    (workouts c) (showAddWorkout c) (newWorkout c) (currentLocation c)
    (savedLocations c) (locationLoading c) (locationError c) x
    (editUsername c) (isPremium c).
Definition set_editUsername (x : string) (c : state) : state :=
  State (loginEmail c) (loginPassword c) (registerUsername c) (loginError c)
    (workouts c) (showAddWorkout c) (newWorkout c) (currentLocation c)
    (savedLocations c) (locationLoading c) (locationError c) (userProfile c)
    x (isPremium c).
Definition set_isPremium (x : value) (c : state) : state :=
  State (loginEmail c) (loginPassword c) (registerUsername c) (loginError c)
    (workouts c) (showAddWorkout c) (newWorkout c) (currentLocation c)
    (savedLocations c) (locationLoading c) (locationError c) (userProfile c)
    (editUsername c) x.

Definition blank_workout (d : Z) : obj :=
  {[ "name" := VStr ""; "type" := VStr ""; "duration" := zero;
     "notes" := VStr ""; "date" := VDate d ]}.

Definition initial (d : Z) : state :=
  State "" "" "" "" [] false (blank_workout d) None [] false "" None ""
        (VBool false).

Definition getAuthErrorMessage (error : js_error) : string :=
  match error with
  | FirebaseError errorCode _ =>
      if String.eqb errorCode "auth/invalid-email" then
        "Invalid email address"
      else if String.eqb errorCode "auth/user-disabled" then
        "This account has been disabled"
      else if String.eqb errorCode "auth/user-not-found" then
        "No account found with this email"
      else if String.eqb errorCode "auth/wrong-password" then
        "Incorrect password"
      else if String.eqb errorCode "auth/email-already-in-use" then
        "An account with this email already exists"
      else if String.eqb errorCode "auth/weak-password" then
        "Password is too weak"
      else if String.eqb errorCode "auth/network-request-failed" then
        "Network error. Please check your connection"
      else "An error occurred. Please try again"
  | _ => "An error occurred. Please try again"
  end.

(** [switch (error.code)] against [error.PERMISSION_DENIED] and the other
    two constants: on an error without these constants each [case] label
    is [undefined], which a missing [code] equals. *)
Definition getLocationError (error : js_error) : string :=
  match error with
  | PositionError code _ =>
      if code =? 1 then
        "Location access denied. Please enable location permissions."
      else if code =? 2 then "Location information unavailable."
      else if code =? 3 then "Location request timed out."
      else "An unknown error occurred while getting location."
  | TypeError _ =>
      "Location access denied. Please enable location permissions."
  | FirebaseError _ _ =>
      "An unknown error occurred while getting location."
  end.

(** The last resort of [createUserProfile]: a name taken from the email. *)
Definition email_username (em : option string) : string :=
  match em with
  | Some em =>
      if String.eqb em "" then "User"
      else let emailName := before "@" em in
           if letters_only emailName then capitalise emailName else "User"
  | None => "User"
  end.

(** [s && s.trim() !== ''] *)
Definition has_text (s : option string) : bool :=
  match s with
  | Some s => negb (String.eqb s "") && negb (String.eqb (trim s) "")
  | None => false
  end.

(** The username [createUserProfile] settles on. *)
Definition choose_username (registered : string) (user : auth_user) : string :=
  if has_text (Some registered) then trim registered
  else if has_text (auth_displayName user)
       then trim (default "" (auth_displayName user))
       else email_username (auth_email user).

Definition profile (userId uname em : string) (d : Z) : obj :=
  {[ "id" := VStr userId; "username" := VStr uname; "email" := VStr em;
     "isPremium" := VBool false; "memberSince" := VDate d ]}.

Definition createUserProfile (userId : string) : M (sys state) unit :=
  try_catch
    (user <- liftW (gets currentUser);;
     match user with
     | None => ret tt
     | Some user =>
         registered <- getsC registerUsername;;
         let uname := choose_username registered user in
         d <- liftW clock;;
         let userProfile :=
           profile userId uname (default "" (auth_email user)) d in
         liftW (SDK.setDoc ["users"; userId] userProfile);;
         setC (set_userProfile (Some userProfile));;
         setC (set_isPremium (VBool false))
     end)
    (λ _,
       d <- liftW clock;;
       setC (set_userProfile (Some (profile userId "Marwan" "" d)))).

(** Take the stored document as the profile. *)
Definition adopt (userData : obj) : M (sys state) unit :=
  setC (set_userProfile (Some userData));;
  setC (set_isPremium (js_or (prop userData "isPremium") (VBool false))).

Definition loadUserProfile (userId : string) : M (sys state) unit :=
  try_catch
    (liftW (SDK.getDocs ["users"]);;
     found <- try_catch
                (userDocSnap <- liftW (SDK.getDocs_where ["users"] "id" (VStr userId));;
                 match userDocSnap with
                 | r :: _ => adopt r.2;; ret true
                 | [] => ret false
                 end)
                (λ _, ret false);;
     if found : bool then ret tt else
     querySnapshot <- liftW (SDK.getDocs_where ["users"] "id" (VStr userId));;
     match querySnapshot with
     | r :: _ => adopt r.2
     | [] => createUserProfile userId
     end)
    (λ _, createUserProfile userId).

(** [updateDoc] is given a copy of [updates], key by key. *)
Definition updateUserProfile (updates : obj) : M (sys state) unit :=
  try_catch
    (user <- liftW (gets currentUser);;
     current <- getsC userProfile;;
     match user, current with
     | Some user, Some currentProfile =>
         liftW (SDK.updateDoc ["users"; auth_uid user] updates);;
         setC (set_userProfile (Some (spread currentProfile updates)))
     | _, _ => ret tt
     end)
    (λ _, ret tt).

Definition onLogin : M (sys state) unit :=
  try_catch
    (setC (set_loginError "");;
     em <- getsC loginEmail;;
     pw <- getsC loginPassword;;
     if String.eqb em "" || String.eqb pw "" then
       setC (set_loginError "Please enter both email and password")
     else
       liftW (SDK.signInWithEmailAndPassword em pw);;
       setC (set_loginEmail "");;
       setC (set_loginPassword ""))
    (λ error, setC (set_loginError (getAuthErrorMessage error))).

(** [data['date']?.toDate() || new Date()] *)
Definition date_or_now (v : value) (d : Z) : result Z :=
  match v with
  | VUndefined | VNull => Ok d
  | VTimestamp ns => Ok (ns ÷ 1000000)
  | _ => Throw (TypeError "toDate is not a function")
  end.

Definition workout_of_doc (d : Z) (r : row) : result Workout :=
  match date_or_now (prop r.2 "date") d with
  | Ok dt =>
      Ok (mkWorkout r.1
            (js_or (prop r.2 "name") (VStr ""))
            (js_or (prop r.2 "type") (VStr ""))
            (js_or (prop r.2 "duration") zero)
            (js_or (prop r.2 "notes") (VStr ""))
            dt)
  | Throw e => Throw e
  end.

Definition loadWorkouts : M (sys state) unit :=
  user <- liftW (gets currentUser);;
  match user with
  | None => setC (set_workouts [])
  | Some user =>
      try_catch
        (querySnapshot <- liftW (SDK.getDocs_orderBy_desc
                                   ["users"; auth_uid user; "workouts"] "date");;
         d <- liftW clock;;
         workoutsData <- lift_result (map_result (workout_of_doc d) querySnapshot);;
         setC (set_workouts workoutsData))
        (λ _, setC (set_workouts []))
  end.

Definition addWorkout : M (sys state) unit :=
  user <- liftW (gets currentUser);;
  match user with
  | None => ret tt
  | Some user =>
      try_catch
        (nw <- getsC newWorkout;;
         d <- liftW clock;;
         let workoutData : obj :=
           {[ "name" := js_or (prop nw "name") (VStr "");
              "type" := js_or (prop nw "type") (VStr "");
              "duration" := js_or (prop nw "duration") zero;
              "notes" := js_or (prop nw "notes") (VStr "");
              "date" := VDate d ]} in
         liftW (SDK.addDoc ["users"; auth_uid user; "workouts"] workoutData);;
         loadWorkouts;;
         setC (set_showAddWorkout false);;
         d' <- liftW clock;;
         setC (set_newWorkout (blank_workout d')))
        (λ _, ret tt)
  end.

Definition deleteWorkout (workoutId : string) : M (sys state) unit :=
  user <- liftW (gets currentUser);;
  match user with
  | None => ret tt
  | Some user =>
      try_catch
        (workoutRef <- lift_result
                         (SDK.doc ["users"; auth_uid user; "workouts"] workoutId);;
         liftW (SDK.deleteDoc workoutRef);;
         loadWorkouts)
        (λ _, ret tt)
  end.

Definition location_of_doc (d : Z) (r : row) : result Location :=
  match date_or_now (prop r.2 "timestamp") d with
  | Ok ts =>
      match date_or_now (prop r.2 "savedAt") d with
      | Ok sv =>
          Ok (mkLocation r.1
                (js_or (prop r.2 "latitude") zero)
                (js_or (prop r.2 "longitude") zero)
                (js_or (prop r.2 "accuracy") zero)
                ts sv)
      | Throw e => Throw e
      end
  | Throw e => Throw e
  end.

Definition loadSavedLocations : M (sys state) unit :=
  user <- liftW (gets currentUser);;
  match user with
  | None => setC (set_savedLocations [])
  | Some user =>
      try_catch
        (querySnapshot <- liftW (SDK.getDocs_orderBy_desc
                                   ["users"; auth_uid user; "locations"] "savedAt");;
         d <- liftW clock;;
         locationsData <- lift_result (map_result (location_of_doc d) querySnapshot);;
         setC (set_savedLocations locationsData))
        (λ _, setC (set_savedLocations []))
  end.

Definition saveLocation : M (sys state) unit :=
  user <- liftW (gets currentUser);;
  cur <- getsC currentLocation;;
  match user, cur with
  | Some user, Some currentLocation =>
      try_catch
        (d <- liftW clock;;
         let locationData : obj :=
           {[ "latitude" := latitude currentLocation;
              "longitude" := longitude currentLocation;
              "accuracy" := accuracy currentLocation;
              "timestamp" := VDate (timestamp currentLocation);
              "savedAt" := VDate d ]} in
         liftW (SDK.addDoc ["users"; auth_uid user; "locations"] locationData);;
         loadSavedLocations)
        (λ _, ret tt)
  | _, _ => ret tt
  end.

Definition deleteLocation (locationId : string) : M (sys state) unit :=
  user <- liftW (gets currentUser);;
  match user with
  | None => ret tt
  | Some user =>
      try_catch
        (locationRef <- lift_result
                          (SDK.doc ["users"; auth_uid user; "locations"] locationId);;
         liftW (SDK.deleteDoc locationRef);;
         loadSavedLocations)
        (λ _, ret tt)
  end.

Definition capture_options : geo_options := GeoOptions true 10000 60000.

(** The promise around [getCurrentPosition(resolve, reject, options)].
    Without [navigator.geolocation] the executor throws a [TypeError] and
    no request is made. *)
Definition request_position : M (sys state) geo_position :=
  geo <- liftW (gets geolocation);;
  match geo with
  | None => throw (TypeError "Cannot read properties of undefined")
  | Some reply =>
      liftW (modify (log_geo_request (Some capture_options)));;
      match reply with
      | GeoOk position => ret position
      | GeoFail code => throw (PositionError code "")
      end
  end.

Definition getCurrentLocation : M (sys state) unit :=
  setC (set_locationLoading true);;
  setC (set_locationError "");;
  finally
    (try_catch
       (position <- request_position;;
        d <- liftW clock;;
        setC (set_currentLocation (Some
          (mkLocation "" (VNum (pos_latitude position))
                      (VNum (pos_longitude position))
                      (VNum (pos_accuracy position))
                      (pos_timestamp position) d))))
       (λ error, setC (set_locationError (getLocationError error))))
    (λ s, Sys (env s) (set_locationLoading false (ctl s))).

(** The subscriber of [user$], run on one value of the stream.  The three
    loads are started without being awaited; they write different signals
    and are run here one after the other. *)
Definition on_user (user : option auth_user) : M (sys state) unit :=
  match user with
  | Some user =>
      loadUserProfile (auth_uid user);;
      loadWorkouts;;
      loadSavedLocations;;
      setC (set_editUsername (default "" (auth_displayName user)))
  | None =>
      setC (set_userProfile None);;
      setC (set_workouts []);;
      setC (set_savedLocations []);;
      setC (set_editUsername "")
  end.

End Mono.

(** ** Vocabulary of the statements *)

(** [r1] may be listed before [r2]: its [field] is the later (or the same)
    date, in the order of the store. *)
Definition newest_first (field : string) (r1 r2 : obj) : Prop :=
  value_leb (prop r2 field) (prop r1 field) = true.

(** The value of field [f] of the document at [p], if both exist. *)
Definition field_at (st : gmap path obj) (p : path) (f : string)
    : option value :=
  st !! p ≫= (.!! f).

(** Signed out: no session, and no user-scoped state in the controller. *)
Definition App_signed_out (s : sys App.state) : Prop :=
  currentUser (env s) = None ∧ App.userData (ctl s) = None ∧
  App.workouts (ctl s) = [] ∧ App.savedLocations (ctl s) = [].

Definition Mono_signed_out (s : sys Mono.state) : Prop :=
  currentUser (env s) = None ∧ Mono.userProfile (ctl s) = None ∧
  Mono.workouts (ctl s) = [] ∧ Mono.savedLocations (ctl s) = [].

(** [a === b] for a stored coordinate [a] and a number [b]. *)
Definition same_number (a : value) (b : number) : Prop :=
  match a with
  | VNum x => num_eqb x b = true
  | _ => False
  end.

(** An id of one segment, as the store and the session provider hand them
    out: without a slash, and not empty. *)
Fixpoint slash_free (s : string) : bool :=
  match s with
  | String c s' => negb (Ascii.eqb c "/") && slash_free s'
  | EmptyString => true
  end.
Definition plain_id (s : string) : Prop := s ≠ "" ∧ slash_free s = true.

(** ** A small world for the examples *)

Definition ana : auth_user := AuthUser "u1" (Some "ana@x.com") (Some "Ana").

Definition wrong_password : js_error :=
  FirebaseError "auth/wrong-password" "Firebase: Error (auth/wrong-password).".
Definition unavailable : js_error :=
  FirebaseError "unavailable" "The client is offline.".

(** A provider that turns every sign-in down for its password. *)
Definition deny : string → string → js_error + auth_user :=
  λ _ _, inl wrong_password.

Definition ana_doc : obj :=
  {[ "uid" := VStr "u1"; "email" := VStr "ana@x.com"; "username" := VStr "Ana";
     "displayName" := VStr "Ana"; "createdAt" := VTimestamp 0 ]}.

(** The number 30. *)
Definition thirty : number := 4629137466983448576.

Definition run_doc : obj :=
  {[ "name" := VStr "Run"; "type" := VStr "Cardio"; "duration" := VNum thirty;
     "notes" := VStr ""; "date" := VTimestamp 500000000 ]}.

(** Ana's account document alone, and with one workout. *)
Definition ana_only : gmap path obj := {[ ["users"; "u1"] := ana_doc ]}.
Definition ana_store : gmap path obj :=
  <[ ["users"; "u1"; "workouts"; "w1"] := run_doc ]> ana_only.

(** A second, later workout next to the first. *)
Definition two_workouts : gmap path obj :=
  <[ ["users"; "u1"; "workouts"; "w0"]
     := <["date" := VTimestamp 700000000]> run_doc ]> ana_store.

(** Ana signed in, at time 1000, on a device without a location API. *)
Definition world_of (st : gmap path obj) (fs : list (option js_error)) : world :=
  World st fs 1000 (Some ana) deny None [].

(** Nobody signed in. *)
Definition world_without_session : world :=
  World ana_store [] 1000 None deny None [].

(** Ana as [getUserData] returns her. *)
Definition ana_user : AuthService.User :=
  AuthService.mkUser (VStr "u1") (VStr "ana@x.com") (VStr "Ana") (VStr "Ana")
                     (VDate 0).

(** The newer controller once Ana's session has been announced and her data
    loaded; the call after that is going to fail. *)
Definition app_loaded : sys App.state :=
  (App.on_user (Some ana)
     (Sys (world_of ana_store [None; None; None; Some unavailable])
          (App.initial 0))).2.

(** The older controller with Ana signed in; the next call is going to fail. *)
Definition mono_offline : sys Mono.state :=
  Sys (world_of ana_store [Some unavailable]) (Mono.initial 0).

(** The login form of either controller, filled in, before anyone signed in. *)
Definition app_login_form : sys App.state :=
  Sys world_without_session
      (App.set_loginEmail "ana@x.com"
         (App.set_loginPassword "guess123" (App.initial 0))).
Definition mono_login_form : sys Mono.state :=
  Sys world_without_session
      (Mono.set_loginEmail "ana@x.com"
         (Mono.set_loginPassword "guess123" (Mono.initial 0))).

(** A device that answers with a position. *)
Definition a_position : geo_position :=
  GeoPosition 4632233691727265792 4613937818241073152 4617315517961601024 900.
Definition world_with_device : world :=
  World ana_store [] 1000 (Some ana) deny (Some (GeoOk a_position)) [].

(** A stored value that the older controller's [?.toDate() || new Date()]
    can convert: a timestamp, or nothing. *)
Definition dated (v : value) : Prop :=
  match v with
  | VUndefined | VNull | VTimestamp _ => True
  | _ => False
  end.

(** The older controller holding a captured position, not saved yet. *)
Definition a_location : Mono.Location :=
  Mono.mkLocation "" (VNum (pos_latitude a_position))
    (VNum (pos_longitude a_position)) (VNum (pos_accuracy a_position))
    (pos_timestamp a_position) 950.
Definition mono_captured : sys Mono.state :=
  Sys (world_of ana_store [])
      (Mono.set_currentLocation (Some a_location) (Mono.initial 0)).


(** The ids of the records on a list of the newer controller. *)
Definition shown_ids (l : list obj) : list value := (λ o, prop o "id") <$> l.



(** A store of the older controller: Ana's profile, stored under her id. *)
Definition older_store : gmap path obj :=
  {[ ["users"; "u1"]
     := to_store <$> Mono.profile "u1" "Anna" "ana@x.com" 0 ]}.


(** ** The rest of the session provider *)

Module Auth.

(** [createUserWithEmailAndPassword(auth, email, password)]: [reply] is the
    provider's answer to the request; a new account is signed in at once. *)
Definition createUserWithEmailAndPassword (reply : js_error + auth_user)
  : M world auth_user :=
  match reply with
  | inl e => throw e
  | inr u => modify (set_currentUser (Some u));; ret u
  end.

(** [signOut(auth)] *)
Definition signOut : M world unit :=
  SDK.remote;; modify (set_currentUser None).

End Auth.

(** [s.length]: the number of UTF-16 code units of a string that is kept as
    UTF-8 bytes.  A byte that continues a character counts for nothing, a
    byte that starts a four-byte character for two. *)
Definition utf16_units (c : ascii) : nat :=
  let n := N_of_ascii c in
  if ((128 <=? n) && (n <? 192))%N then 0%nat
  else if (240 <=? n)%N then 2%nat
  else 1%nat.

Fixpoint js_length (s : string) : nat :=
  match s with
  | String c s' => (utf16_units c + js_length s')%nat
  | EmptyString => 0%nat
  end.

(** ** The rest of the facade *)

Module AuthServiceMore.

Definition register (reply : js_error + auth_user) (em password name : string)
  : M world unit :=
  try_catch
    (user <- Auth.createUserWithEmailAndPassword reply;;
     SDK.updateProfile name;;
     d <- clock;;
     SDK.setDoc ["users"; auth_uid user]
       {[ "uid" := VStr (auth_uid user); "email" := VStr em;
          "username" := VStr name; "displayName" := VStr name;
          "createdAt" := VDate d ]})
    AuthService.rethrow.

End AuthServiceMore.

(** ** Helpers of the views *)

(** The members every object literal inherits from [Object.prototype]. *)
Definition object_prototype_keys : list string :=
  ["constructor"; "hasOwnProperty"; "isPrototypeOf"; "propertyIsEnumerable";
   "toLocaleString"; "toString"; "valueOf"; "__proto__"; "__defineGetter__";
   "__defineSetter__"; "__lookupGetter__"; "__lookupSetter__"].

(** What [icons[type] || '💪'] evaluates to: an icon, or the inherited member
    that [type] names, which is an object and so is truthy. *)
Inductive icon :=
  | Icon (s : string)
  | Inherited (key : string).

(** [getWorkoutIcon], the same in both controllers. *)
Definition getWorkoutIcon (type : string) : icon :=
  if String.eqb type "Cardio" then Icon "🏃"
  else if String.eqb type "Strength" then Icon "💪"
  else if String.eqb type "Yoga" then Icon "🧘"
  else if String.eqb type "HIIT" then Icon "⚡"
  else if String.eqb type "Sports" then Icon "🏀"
  else if bool_decide (type ∈ object_prototype_keys) then Inherited type
  else Icon "💪".

(** A [string | null] property read as a value. *)
Definition nullable (s : option string) : value :=
  match s with
  | Some s => VStr s
  | None => VNull
  end.

(** [user?.displayName] for the [user] a template passes in. *)
Definition user_displayName (user : option auth_user) : value :=
  match user with
  | Some u => nullable (auth_displayName u)
  | None => VUndefined
  end.

(** ** The rest of the controller (app.component.ts) *)

Module AppMore.

(** The signals of the component that [App.state] leaves out, and the URL the
    router is at. *)
Record screen := Screen {
  registerUsername : string;
  registerEmail : string;
  registerPassword : string;
  registerError : string;
  registerSuccess : string;
  activeSection : string;
  route : string
}.

Definition set_registerUsername (x : string) (c : screen) : screen :=
  Screen x (registerEmail c) (registerPassword c) (registerError c)
    (registerSuccess c) (activeSection c) (route c).
Definition set_registerEmail (x : string) (c : screen) : screen :=
  Screen (registerUsername c) x (registerPassword c) (registerError c)
    (registerSuccess c) (activeSection c) (route c).
Definition set_registerPassword (x : string) (c : screen) : screen :=
  Screen (registerUsername c) (registerEmail c) x (registerError c)
    (registerSuccess c) (activeSection c) (route c).
Definition set_registerError (x : string) (c : screen) : screen :=
  Screen (registerUsername c) (registerEmail c) (registerPassword c) x
    (registerSuccess c) (activeSection c) (route c).
Definition set_registerSuccess (x : string) (c : screen) : screen :=
  Screen (registerUsername c) (registerEmail c) (registerPassword c)
    (registerError c) x (activeSection c) (route c).
Definition set_activeSection (x : string) (c : screen) : screen :=
  Screen (registerUsername c) (registerEmail c) (registerPassword c)
    (registerError c) (registerSuccess c) x (route c).
Definition set_route (x : string) (c : screen) : screen :=
  Screen (registerUsername c) (registerEmail c) (registerPassword c)
    (registerError c) (registerSuccess c) (activeSection c) x.

Record state := State { base : App.state; screen_of : screen }.

Definition liftB {A} (m : M (sys App.state) A) : M (sys state) A :=
  λ s, let '(r, s') := m (Sys (env s) (base (ctl s))) in
       (r, Sys (env s') (State (ctl s') (screen_of (ctl s)))).
Definition getsS {A} (f : screen → A) : M (sys state) A :=
  gets (λ s, f (screen_of (ctl s))).
Definition setS (f : screen → screen) : M (sys state) unit :=
  modify (λ s, Sys (env s) (State (base (ctl s)) (f (screen_of (ctl s))))).

Definition initial (d : Z) : state :=
  State (App.initial d) (Screen "" "" "" "" "" "dashboard" "/").

Definition onRegister (reply : js_error + auth_user) : M (sys state) unit :=
  try_catch
    (setS (set_registerError "");;
     setS (set_registerSuccess "");;
     em <- getsS registerEmail;;
     pw <- getsS registerPassword;;
     name <- getsS registerUsername;;
     liftW (AuthServiceMore.register reply em pw name);;
     setS (set_registerSuccess "Account created successfully! You can now login.");;
     setS (set_registerUsername "");;
     setS (set_registerEmail "");;
     setS (set_registerPassword ""))
    (λ error, setS (set_registerError (App.getAuthErrorMessage error))).

(** [AuthService.logout], whose router is the one of the application. *)
Definition logout : M (sys state) unit :=
  try_catch
    (liftW Auth.signOut;;
     setS (set_route "/"))
    (λ error, throw error).

Definition signOut : M (sys state) unit :=
  try_catch
    (logout;;
     setS (set_activeSection "dashboard"))
    (λ _, ret tt).

Definition getDisplayName (c : App.state) (user : option auth_user) : value :=
  let username :=
    if App.userData c is Some u then AuthService.username u else VUndefined in
  let displayName :=
    if App.userData c is Some u then AuthService.displayName u else VUndefined in
  js_or (js_or (js_or username displayName) (user_displayName user))
        (VStr "User").

End AppMore.

(** ** The rest of the older controller *)

Module MonoMore.

(** The signals and fields of the component that [Mono.state] leaves out. *)
Record screen := Screen {
  registerEmail : string;
  registerPassword : string;
  registerError : string;
  registerSuccess : string;
  activeSection : string;
  showEditProfile : bool;
  profileUpdateError : string;
  profileUpdateSuccess : string;
  showUpgradeModal : bool;
  paymentProcessing : bool
}.

Definition set_registerEmail (x : string) (c : screen) : screen :=
  Screen x (registerPassword c) (registerError c) (registerSuccess c)
    (activeSection c) (showEditProfile c) (profileUpdateError c)
    (profileUpdateSuccess c) (showUpgradeModal c) (paymentProcessing c).
Definition set_registerPassword (x : string) (c : screen) : screen :=
  Screen (registerEmail c) x (registerError c) (registerSuccess c)
    (activeSection c) (showEditProfile c) (profileUpdateError c)
    (profileUpdateSuccess c) (showUpgradeModal c) (paymentProcessing c).
Definition set_registerError (x : string) (c : screen) : screen :=
  Screen (registerEmail c) (registerPassword c) x (registerSuccess c)
    (activeSection c) (showEditProfile c) (profileUpdateError c)
    (profileUpdateSuccess c) (showUpgradeModal c) (paymentProcessing c).
Definition set_registerSuccess (x : string) (c : screen) : screen :=
  Screen (registerEmail c) (registerPassword c) (registerError c) x
    (activeSection c) (showEditProfile c) (profileUpdateError c)
    (profileUpdateSuccess c) (showUpgradeModal c) (paymentProcessing c).
Definition set_activeSection (x : string) (c : screen) : screen :=
  Screen (registerEmail c) (registerPassword c) (registerError c)
    (registerSuccess c) x (showEditProfile c) (profileUpdateError c)
    (profileUpdateSuccess c) (showUpgradeModal c) (paymentProcessing c).
Definition set_showEditProfile (x : bool) (c : screen) : screen :=
  Screen (registerEmail c) (registerPassword c) (registerError c)
    (registerSuccess c) (activeSection c) x (profileUpdateError c)
    (profileUpdateSuccess c) (showUpgradeModal c) (paymentProcessing c).
Definition set_profileUpdateError (x : string) (c : screen) : screen :=
  Screen (registerEmail c) (registerPassword c) (registerError c)
    (registerSuccess c) (activeSection c) (showEditProfile c) x
    (profileUpdateSuccess c) (showUpgradeModal c) (paymentProcessing c).
Definition set_profileUpdateSuccess (x : string) (c : screen) : screen :=
  Screen (registerEmail c) (registerPassword c) (registerError c)
    (registerSuccess c) (activeSection c) (showEditProfile c)
    (profileUpdateError c) x (showUpgradeModal c) (paymentProcessing c).
Definition set_showUpgradeModal (x : bool) (c : screen) : screen :=
  Screen (registerEmail c) (registerPassword c) (registerError c)
    (registerSuccess c) (activeSection c) (showEditProfile c)
    (profileUpdateError c) (profileUpdateSuccess c) x (paymentProcessing c).
Definition set_paymentProcessing (x : bool) (c : screen) : screen :=
  Screen (registerEmail c) (registerPassword c) (registerError c)
    (registerSuccess c) (activeSection c) (showEditProfile c)
    (profileUpdateError c) (profileUpdateSuccess c) (showUpgradeModal c) x.

Record state := State { base : Mono.state; screen_of : screen }.

Definition liftB {A} (m : M (sys Mono.state) A) : M (sys state) A :=
  λ s, let '(r, s') := m (Sys (env s) (base (ctl s))) in
       (r, Sys (env s') (State (ctl s') (screen_of (ctl s)))).
Definition getsS {A} (f : screen → A) : M (sys state) A :=
  gets (λ s, f (screen_of (ctl s))).
Definition setS (f : screen → screen) : M (sys state) unit :=
  modify (λ s, Sys (env s) (State (base (ctl s)) (f (screen_of (ctl s))))).
Definition getsB {A} (f : Mono.state → A) : M (sys state) A :=
  gets (λ s, f (base (ctl s))).
Definition setB (f : Mono.state → Mono.state) : M (sys state) unit :=
  modify (λ s, Sys (env s) (State (f (base (ctl s))) (screen_of (ctl s)))).

Definition initial (d : Z) : state :=
  State (Mono.initial d) (Screen "" "" "" "" "dashboard" false "" "" false false).

Definition onRegister (reply : js_error + auth_user) : M (sys state) unit :=
  try_catch
    (setS (set_registerError "");;
     setS (set_registerSuccess "");;
     em <- getsS registerEmail;;
     pw <- getsS registerPassword;;
     name <- getsB Mono.registerUsername;;
     if String.eqb em "" || String.eqb pw "" || String.eqb name "" then
       setS (set_registerError "Please fill in all fields")
     else if (js_length pw <? 6)%nat then
       setS (set_registerError "Password must be at least 6 characters")
     else
       user <- liftW (Auth.createUserWithEmailAndPassword reply);;
       liftW (SDK.updateProfile name);;
       liftB (Mono.createUserProfile (auth_uid user));;
       setS (set_registerSuccess "Account created successfully! Welcome!");;
       setB (Mono.set_registerUsername "");;
       setS (set_registerEmail "");;
       setS (set_registerPassword ""))
    (λ error, setS (set_registerError (Mono.getAuthErrorMessage error))).

Definition signOut : M (sys state) unit :=
  try_catch
    (liftW Auth.signOut;;
     setS (set_activeSection "dashboard"))
    (λ _, ret tt).

(** [error.message] *)
Definition message (e : js_error) : string :=
  match e with
  | FirebaseError _ m | PositionError _ m | TypeError m => m
  end.

(** [onUpdateProfile], up to the timer it starts; [clear_success] is what
    the timer runs three seconds later. *)
Definition onUpdateProfile : M (sys state) unit :=
  user <- liftW (gets currentUser);;
  match user with
  | None =>
      setS (set_profileUpdateSuccess "Profile updated successfully! (Demo mode)");;
      setS (set_showEditProfile false);;
      setB (Mono.set_editUsername "")
  | Some _ =>
      try_catch
        (name <- getsB Mono.editUsername;;
         liftW (SDK.updateProfile name);;
         name' <- getsB Mono.editUsername;;
         liftB (Mono.updateUserProfile {[ "username" := VStr name' ]});;
         setS (set_profileUpdateSuccess "Profile updated successfully!");;
         setS (set_showEditProfile false);;
         setB (Mono.set_editUsername ""))
        (λ error, setS (set_profileUpdateError (message error)))
  end.

Definition clear_success : M (sys state) unit :=
  setS (set_profileUpdateSuccess "").

Definition openUpgradeModal : M (sys state) unit :=
  setS (set_showUpgradeModal true).

(** [processPayment], up to the timer it starts; [payment_timer] is what the
    timer runs two seconds later. *)
Definition processPayment : M (sys state) unit :=
  setS (set_paymentProcessing true).

Definition payment_timer : M (sys state) unit :=
  try_catch
    (user <- liftW (gets currentUser);;
     (if user is Some _
      then liftB (Mono.updateUserProfile {[ "isPremium" := VBool true ]})
      else ret tt);;
     setB (Mono.set_isPremium (VBool true));;
     setS (set_showUpgradeModal false);;
     setS (set_paymentProcessing false))
    (λ _, setS (set_paymentProcessing false)).

Definition closeUpgradeModal : M (sys state) unit :=
  setS (set_showUpgradeModal false);;
  setS (set_paymentProcessing false).

Definition getDisplayName (c : Mono.state) (user : option auth_user) : value :=
  let username :=
    if Mono.userProfile c is Some p then prop p "username" else VUndefined in
  if truthy username then username
  else if truthy (user_displayName user) then user_displayName user
  else VStr "User".

End MonoMore.


(** * Verification *)

(** ** The store's order is a total preorder *)

Section order.

Lemma ascii_compare_lt_trans (a b c : ascii) :
  Ascii.compare a b = Lt → Ascii.compare b c = Lt → Ascii.compare a c = Lt.
Proof.
  unfold Ascii.compare. rewrite !N.compare_lt_iff. apply N.lt_trans.
Qed.

Lemma string_compare_lt_trans (s1 s2 s3 : string) :
  String.compare s1 s2 = Lt → String.compare s2 s3 = Lt →
  String.compare s1 s3 = Lt.
Proof.
  revert s2 s3. induction s1 as [|a s1 IH]; intros [|b s2] [|c s3]; simpl;
    try done.
  destruct (Ascii.compare a b) eqn:Hab; try done;
    destruct (Ascii.compare b c) eqn:Hbc; try done.
  - apply Ascii.compare_eq_iff in Hab, Hbc. subst.
    unfold Ascii.compare. rewrite N.compare_refl. by apply IH.
  - apply Ascii.compare_eq_iff in Hab. subst. by rewrite Hbc.
  - apply Ascii.compare_eq_iff in Hbc. subst. by rewrite Hab.
  - by rewrite (ascii_compare_lt_trans a b c).
Qed.

Lemma string_compare_refl (s : string) : String.compare s s = Eq.
Proof.
  induction s as [|a s IH]; simpl; [done|].
  unfold Ascii.compare. by rewrite N.compare_refl.
Qed.

Lemma string_leb_spec (s t : string) :
  String.leb s t = true ↔ s = t ∨ String.compare s t = Lt.
Proof.
  unfold String.leb. destruct (String.compare s t) eqn:H; split; try done.
  - intros _. left. by apply String.compare_eq_iff.
  - by right.
  - intros [->|?]; [|done]. by rewrite string_compare_refl in H.
Qed.

Lemma string_leb_trans (s1 s2 s3 : string) :
  String.leb s1 s2 = true → String.leb s2 s3 = true →
  String.leb s1 s3 = true.
Proof.
  rewrite !string_leb_spec. intros [->|H12] [->|H23]; eauto.
  right. eapply string_compare_lt_trans; eauto.
Qed.

Lemma value_leb_total (a b : value) :
  value_leb a b = true ∨ value_leb b a = true.
Proof.
  unfold value_leb.
  destruct (Z.lt_trichotomy (value_rank a) (value_rank b)) as [H|[H|H]].
  - left. apply orb_true_iff. left. by apply Z.ltb_lt.
  - rewrite H, Z.eqb_refl, Z.ltb_irrefl. simpl.
    destruct a, b; simpl in H; try discriminate H;
      try apply String.leb_total;
      rewrite !Z.leb_le; lia.
  - right. apply orb_true_iff. left. by apply Z.ltb_lt.
Qed.

Lemma value_leb_trans (a b c : value) :
  value_leb a b = true → value_leb b c = true → value_leb a c = true.
Proof.
  unfold value_leb. rewrite !orb_true_iff, !andb_true_iff.
  rewrite !Z.ltb_lt, !Z.eqb_eq.
  intros [Hab|[Hab Lab]] [Hbc|[Hbc Lbc]]; [left; lia..|].
  right. split; [lia|].
  destruct a, b, c; simpl in Hab, Hbc; try discriminate Hab;
    try discriminate Hbc;
    try (by eapply string_leb_trans);
    rewrite !Z.leb_le in *; lia.
Qed.

Context (field : string).

Lemma bool_total_case (p q r s : bool) :
  (p = true ∨ q = true) → (r = true ∨ s = true) →
  Is_true (if p then (if q then r else false) else true) ∨
  Is_true (if q then (if p then s else false) else true).
Proof. destruct p, q, r, s; simpl; intuition congruence. Qed.

#[export] Instance row_desc_total : Total (row_desc field).
Proof.
  intros x y. unfold row_desc, row_descb. cbv zeta.
  apply bool_total_case; [apply value_leb_total|apply String.leb_total].
Qed.

Lemma bool_trans_case (ab ba bc cb ac ca sxy syz sxz : bool) :
  (ab = true → bc = true → ac = true) →
  (ac = true → cb = true → ab = true) →
  (ba = true → ac = true → bc = true) →
  (bc = true → ca = true → ba = true) →
  (ca = true → ab = true → cb = true) →
  (cb = true → ba = true → ca = true) →
  (ab = true ∨ ba = true) → (bc = true ∨ cb = true) →
  (syz = true → sxy = true → sxz = true) →
  Is_true (if ab then (if ba then sxy else false) else true) →
  Is_true (if bc then (if cb then syz else false) else true) →
  Is_true (if ac then (if ca then sxz else false) else true).
Proof.
  intros T1 T2 T3 T4 T5 T6 Tab Tbc Ts Hxy Hyz.
  destruct ab, ba; simpl in Hxy; try done;
    destruct bc, cb; simpl in Hyz; try done;
    destruct ac, ca; simpl; try done;
    try (by destruct Tab); try (by destruct Tbc);
    try (by discriminate T1); try (by discriminate T2);
    try (by discriminate T3); try (by discriminate T4);
    try (by discriminate T5); try (by discriminate T6).
  all: apply Is_true_true; apply Is_true_true in Hxy, Hyz; auto.
Qed.

#[export] Instance row_desc_trans : Transitive (row_desc field).
Proof.
  intros x y z. unfold row_desc, row_descb. cbv zeta.
  apply bool_trans_case;
    eauto using value_leb_trans, value_leb_total, string_leb_trans.
Qed.

(** A row placed before another has the larger (or an equal) key. *)
Lemma row_desc_key (x y : row) :
  row_desc field x y →
  value_leb (prop y.2 field) (prop x.2 field) = true.
Proof.
  unfold row_desc, row_descb. simpl.
  destruct (value_leb_total (prop x.2 field) (prop y.2 field)) as [H|H];
    rewrite H; [|done].
  by destruct (value_leb (prop y.2 field) (prop x.2 field)).
Qed.

End order.

(** ** Projections of a changed world *)

Lemma next_fault_set_store f (w : world) :
  next_fault (set_store f w) = next_fault w.
Proof. done. Qed.
Lemma next_fault_set_currentUser u (w : world) :
  next_fault (set_currentUser u w) = next_fault w.
Proof. done. Qed.
Lemma pop_fault_set_store f (w : world) :
  pop_fault (set_store f w) = set_store f (pop_fault w).
Proof. done. Qed.
Lemma store_pop_fault (w : world) : store (pop_fault w) = store w.
Proof. done. Qed.
Lemma store_set_store f (w : world) : store (set_store f w) = f (store w).
Proof. done. Qed.
Lemma store_set_currentUser u (w : world) :
  store (set_currentUser u w) = store w.
Proof. done. Qed.
Lemma now_pop_fault (w : world) : now (pop_fault w) = now w.
Proof. done. Qed.
Lemma now_set_store f (w : world) : now (set_store f w) = now w.
Proof. done. Qed.
Lemma currentUser_pop_fault (w : world) :
  currentUser (pop_fault w) = currentUser w.
Proof. done. Qed.
Lemma currentUser_set_store f (w : world) :
  currentUser (set_store f w) = currentUser w.
Proof. done. Qed.

Create Rewrite HintDb world.
#[export] Hint Rewrite next_fault_set_store next_fault_set_currentUser
  pop_fault_set_store store_pop_fault store_set_store store_set_currentUser
  now_pop_fault now_set_store currentUser_pop_fault currentUser_set_store
  : world.

(** ** What a call of the SDK and of the facade evaluates to *)

Lemma remote_run (w : world) :
  SDK.remote w =
  (match next_fault w with Some e => Throw e | None => Ok tt end, pop_fault w).
Proof. done. Qed.

Lemma getDocs_orderBy_desc_run (coll : path) (field : string) (w : world) :
  SDK.getDocs_orderBy_desc coll field w =
  (match next_fault w with
   | Some e => Throw e
   | None => Ok (query_desc coll field (store w))
   end, pop_fault w).
Proof.
  unfold SDK.getDocs_orderBy_desc, bind, gets. rewrite remote_run.
  by destruct (next_fault w).
Qed.

Lemma loadWorkouts_run (userId : string) (w : world) :
  AuthService.loadWorkouts userId w =
  (match next_fault w with
   | Some e => Throw e
   | None => Ok (AuthService.workout_of_doc <$>
                   query_desc ["users"; userId; "workouts"] "date" (store w))
   end, pop_fault w).
Proof.
  unfold AuthService.loadWorkouts, try_catch, bind, ret, AuthService.rethrow, throw.
  rewrite getDocs_orderBy_desc_run. by destruct (next_fault w).
Qed.

Lemma loadLocations_run (userId : string) (w : world) :
  AuthService.loadLocations userId w =
  (match next_fault w with
   | Some e => Throw e
   | None => Ok (AuthService.location_of_doc <$>
                   query_desc ["users"; userId; "locations"] "savedAt" (store w))
   end, pop_fault w).
Proof.
  unfold AuthService.loadLocations, try_catch, bind, ret, AuthService.rethrow, throw.
  rewrite getDocs_orderBy_desc_run. by destruct (next_fault w).
Qed.

(** ** Ordered loads *)

Lemma query_desc_sorted (coll : path) (field : string) (st : gmap path obj) :
  StronglySorted (row_desc field) (query_desc coll field st).
Proof. unfold query_desc. apply StronglySorted_merge_sort; apply _. Qed.

(** Turning timestamps into dates keeps the order. *)
Lemma date_or_raw_mono (a b : value) :
  value_leb a b = true → value_leb (date_or_raw a) (date_or_raw b) = true.
Proof.
  assert (Hquot : ∀ n, ∃ r, n = 1000000 * (n ÷ 1000000) + r ∧
                            (0 ≤ n → 0 ≤ r < 1000000) ∧
                            (n ≤ 0 → -1000000 < r ≤ 0)).
  { intros n. exists (Z.rem n 1000000). split; [apply Z.quot_rem'|].
    split; intros Hn.
    - by apply Z.rem_bound_pos.
    - pose proof (Z.rem_nonpos n 1000000 ltac:(done) Hn).
      pose proof (Z.rem_bound_abs n 1000000 ltac:(done)). lia. }
  destruct a, b; try done; unfold value_leb; simpl;
    rewrite ?Z.leb_le; intros H.
  - destruct (Hquot ns) as (r & ? & ? & ?). lia.
  - destruct (Hquot ns) as (r & ? & ? & ?). lia.
  - destruct (Hquot ns) as (r & ? & ? & ?).
    destruct (Hquot ns0) as (r0 & ? & ? & ?). lia.
Qed.

Lemma workout_of_doc_date (r : row) :
  prop (AuthService.workout_of_doc r) "date" = date_or_raw (prop r.2 "date").
Proof.
  unfold AuthService.workout_of_doc, prop at 1. by rewrite lookup_insert_eq.
Qed.

Lemma location_of_doc_savedAt (r : row) :
  prop (AuthService.location_of_doc r) "savedAt"
  = date_or_raw (prop r.2 "savedAt").
Proof.
  unfold AuthService.location_of_doc, prop at 1. by rewrite lookup_insert_eq.
Qed.

(** C2. Whatever the store holds, the list [loadWorkouts] returns is ordered
    by [date], latest first, and the list [loadLocations] returns is ordered
    by [savedAt], latest first; a load returns no list only when the store
    call itself fails. *)
Theorem loads_are_newest_first (userId : string) (w : world) :
  match AuthService.loadWorkouts userId w with
  | (Ok ws, _) => StronglySorted (newest_first "date") ws
  | (Throw e, _) => next_fault w = Some e
  end ∧
  match AuthService.loadLocations userId w with
  | (Ok ls, _) => StronglySorted (newest_first "savedAt") ls
  | (Throw e, _) => next_fault w = Some e
  end.
Proof.
  rewrite loadWorkouts_run, loadLocations_run.
  destruct (next_fault w); [done|]. split.
  - eapply StronglySorted_fmap; [|apply query_desc_sorted].
    intros x y Hxy. unfold newest_first. rewrite !workout_of_doc_date.
    by apply date_or_raw_mono, row_desc_key.
  - eapply StronglySorted_fmap; [|apply query_desc_sorted].
    intros x y Hxy. unfold newest_first. rewrite !location_of_doc_savedAt.
    by apply date_or_raw_mono, row_desc_key.
Qed.

(** Two workouts, the later one under the smaller id: it is returned first. *)
Example loadWorkouts_two :
  match (AuthService.loadWorkouts "u1" (world_of two_workouts [])).1 with
  | Ok l =>
      (λ o, (prop o "id", prop o "date")) <$> l
      = [(VStr "w0", VDate 700); (VStr "w1", VDate 500)]
  | Throw _ => False
  end.
Proof. vm_compute. reflexivity. Qed.

(** ** List loads of the two controllers *)

Lemma query_desc_empty (coll : path) (field : string) (st : gmap path obj) :
  children coll st = [] → query_desc coll field st = [].
Proof. unfold query_desc. by intros ->. Qed.

Lemma Mono_loadWorkouts_run (s : sys Mono.state) :
  Mono.loadWorkouts s =
  match currentUser (env s) with
  | None => (Ok tt, Sys (env s) (Mono.set_workouts [] (ctl s)))
  | Some user =>
      (Ok tt,
       Sys (pop_fault (env s))
         (Mono.set_workouts
            match next_fault (env s) with
            | Some _ => []
            | None =>
                match map_result (Mono.workout_of_doc (now (env s)))
                        (query_desc ["users"; auth_uid user; "workouts"] "date"
                                    (store (env s))) with
                | Ok ws => ws
                | Throw _ => []
                end
            end (ctl s)))
  end.
Proof.
  unfold Mono.loadWorkouts, bind, liftW, gets, try_catch, setC, modify, clock,
    lift_result, gets. simpl.
  destruct (currentUser (env s)); [|done].
  rewrite getDocs_orderBy_desc_run. simpl.
  destruct (next_fault (env s)); simpl; [done|].
  by destruct (map_result _ _).
Qed.

Lemma Mono_loadSavedLocations_run (s : sys Mono.state) :
  Mono.loadSavedLocations s =
  match currentUser (env s) with
  | None => (Ok tt, Sys (env s) (Mono.set_savedLocations [] (ctl s)))
  | Some user =>
      (Ok tt,
       Sys (pop_fault (env s))
         (Mono.set_savedLocations
            match next_fault (env s) with
            | Some _ => []
            | None =>
                match map_result (Mono.location_of_doc (now (env s)))
                        (query_desc ["users"; auth_uid user; "locations"]
                                    "savedAt" (store (env s))) with
                | Ok ls => ls
                | Throw _ => []
                end
            end (ctl s)))
  end.
Proof.
  unfold Mono.loadSavedLocations, bind, liftW, gets, try_catch, setC, modify,
    clock, lift_result, gets. simpl.
  destruct (currentUser (env s)); [|done].
  rewrite getDocs_orderBy_desc_run. simpl.
  destruct (next_fault (env s)); simpl; [done|].
  by destruct (map_result _ _).
Qed.

Lemma App_loadWorkouts_run (s : sys App.state) :
  App.loadWorkouts s =
  match App.userData (ctl s) with
  | Some u =>
      if truthy (AuthService.uid u) then
        match AuthService.uid u with
        | VStr userId =>
            (Ok tt,
             Sys (pop_fault (env s))
               match next_fault (env s) with
               | Some _ => ctl s
               | None =>
                   App.set_workouts
                     (AuthService.workout_of_doc <$>
                        query_desc ["users"; userId; "workouts"] "date"
                                   (store (env s)))
                     (ctl s)
               end)
        | _ => (Ok tt, s)
        end
      else (Ok tt, s)
  | None => (Ok tt, s)
  end.
Proof.
  unfold App.loadWorkouts, bind, getsC, gets, App.no_uid. simpl.
  destruct (App.userData (ctl s)) as [u|]; [|done].
  destruct (truthy (AuthService.uid u)); simpl; [|done].
  unfold try_catch, bind, App.with_uid, path_segment, throw, ret, liftW, setC,
    modify.
  destruct (AuthService.uid u); try done.
  rewrite loadWorkouts_run. simpl. by destruct (next_fault (env s)).
Qed.

Lemma App_loadLocations_run (s : sys App.state) :
  App.loadLocations s =
  match App.userData (ctl s) with
  | Some u =>
      if truthy (AuthService.uid u) then
        match AuthService.uid u with
        | VStr userId =>
            (Ok tt,
             Sys (pop_fault (env s))
               match next_fault (env s) with
               | Some _ => ctl s
               | None =>
                   App.set_savedLocations
                     (AuthService.location_of_doc <$>
                        query_desc ["users"; userId; "locations"] "savedAt"
                                   (store (env s)))
                     (ctl s)
               end)
        | _ => (Ok tt, s)
        end
      else (Ok tt, s)
  | None => (Ok tt, s)
  end.
Proof.
  unfold App.loadLocations, bind, getsC, gets, App.no_uid. simpl.
  destruct (App.userData (ctl s)) as [u|]; [|done].
  destruct (truthy (AuthService.uid u)); simpl; [|done].
  unfold try_catch, bind, App.with_uid, path_segment, throw, ret, liftW, setC,
    modify.
  destruct (AuthService.uid u); try done.
  rewrite loadLocations_run. simpl. by destruct (next_fault (env s)).
Qed.

(** C6. With an empty workouts sub-collection, [loadWorkouts] returns the
    empty list once the store has answered, and so does [loadLocations] with
    an empty locations sub-collection; the older controller ends with an
    empty list and no error. *)
Theorem empty_collection_loads_empty (userId : string) (w : world) :
  (next_fault w = None →
   children ["users"; userId; "workouts"] (store w) = [] →
   (AuthService.loadWorkouts userId w).1 = Ok []) ∧
  (next_fault w = None →
   children ["users"; userId; "locations"] (store w) = [] →
   (AuthService.loadLocations userId w).1 = Ok []) ∧
  (∀ (c : Mono.state) (user : auth_user),
     currentUser w = Some user →
     children ["users"; auth_uid user; "workouts"] (store w) = [] →
     Mono.loadWorkouts (Sys w c)
     = (Ok tt, Sys (pop_fault w) (Mono.set_workouts [] c))).
Proof.
  split; [|split].
  - intros Hf He. rewrite loadWorkouts_run, Hf. simpl.
    by rewrite query_desc_empty.
  - intros Hf He. rewrite loadLocations_run, Hf. simpl.
    by rewrite query_desc_empty.
  - intros c user Hu He. rewrite Mono_loadWorkouts_run. simpl. rewrite Hu.
    rewrite query_desc_empty by done. simpl. by destruct (next_fault w).
Qed.

Lemma empty_collection_loads_empty_witness :
  (AuthService.loadWorkouts "u1" (world_of ana_only [])).1 = Ok [] ∧
  (AuthService.loadLocations "u1" (world_of ana_only [])).1 = Ok [] ∧
  Mono.loadWorkouts (Sys (world_of ana_only []) (Mono.initial 0))
  = (Ok tt, Sys (pop_fault (world_of ana_only []))
                (Mono.set_workouts [] (Mono.initial 0))).
Proof.
  destruct (empty_collection_loads_empty "u1" (world_of ana_only []))
    as (Hw & Hl & Hm).
  split; [|split].
  - apply Hw; reflexivity.
  - apply Hl; reflexivity.
  - apply (Hm _ ana); reflexivity.
Defined.

(** C3, as the code has it.  When the store call of a list load fails, no
    error reaches the caller; the older controller ends with the empty list,
    the newer controller keeps the list it had. *)
Theorem failed_load_outcome (e : js_error) :
  (∀ (s : sys Mono.state) (user : auth_user),
     currentUser (env s) = Some user → next_fault (env s) = Some e →
     Mono.loadWorkouts s
     = (Ok tt, Sys (pop_fault (env s)) (Mono.set_workouts [] (ctl s))) ∧
     Mono.loadSavedLocations s
     = (Ok tt, Sys (pop_fault (env s)) (Mono.set_savedLocations [] (ctl s)))) ∧
  (∀ (s : sys App.state) (u : AuthService.User) (userId : string),
     App.userData (ctl s) = Some u → AuthService.uid u = VStr userId →
     userId ≠ "" → next_fault (env s) = Some e →
     (AuthService.loadWorkouts userId (env s)).1 = Throw e ∧
     App.loadWorkouts s = (Ok tt, Sys (pop_fault (env s)) (ctl s)) ∧
     App.loadLocations s = (Ok tt, Sys (pop_fault (env s)) (ctl s))).
Proof.
  split.
  - intros s user Hu Hf.
    rewrite Mono_loadWorkouts_run, Mono_loadSavedLocations_run, Hu, Hf. done.
  - intros s u userId Hd Hid Hne Hf.
    rewrite loadWorkouts_run, App_loadWorkouts_run, App_loadLocations_run.
    rewrite Hd, Hid, Hf. simpl.
    destruct (String.eqb_spec userId ""); done.
Qed.

Lemma failed_load_outcome_witness :
  (Mono.loadWorkouts mono_offline
   = (Ok tt, Sys (pop_fault (env mono_offline))
                 (Mono.set_workouts [] (ctl mono_offline))) ∧
   Mono.loadSavedLocations mono_offline
   = (Ok tt, Sys (pop_fault (env mono_offline))
                 (Mono.set_savedLocations [] (ctl mono_offline)))) ∧
  ((AuthService.loadWorkouts "u1" (env app_loaded)).1 = Throw unavailable ∧
   App.loadWorkouts app_loaded
   = (Ok tt, Sys (pop_fault (env app_loaded)) (ctl app_loaded)) ∧
   App.loadLocations app_loaded
   = (Ok tt, Sys (pop_fault (env app_loaded)) (ctl app_loaded))).
Proof.
  destruct (failed_load_outcome unavailable) as [Hm Ha]. split.
  - apply (Hm mono_offline ana); reflexivity.
  - apply (Ha app_loaded ana_user "u1"); [reflexivity|reflexivity|done|reflexivity].
Defined.

(** C3 fails on the newer controller: a reload that fails after a load that
    succeeded leaves the loaded workout on display. *)
Lemma failed_reload_keeps_list :
  (AuthService.loadWorkouts "u1" (env app_loaded)).1 = Throw unavailable ∧
  shown_ids (App.workouts (ctl (App.loadWorkouts app_loaded).2)) = [VStr "w1"] ∧
  App.workouts (ctl (App.loadWorkouts app_loaded).2) ≠ [].
Proof.
  split; [reflexivity|]. split; [vm_compute; reflexivity|].
  intros H. apply (f_equal shown_ids) in H. vm_compute in H. discriminate H.
Qed.

(** ** Login with a wrong password *)

(** C5, as the code has it.  When the provider turns the sign-in down with
    [auth/wrong-password], the login error becomes "Incorrect password." in
    the newer controller and "Incorrect password" in the older one; nothing
    else changes, so a signed-out controller stays signed out. *)
Theorem wrong_password_login (msg : string) :
  (∀ s : sys App.state,
     authenticate (env s) (App.loginEmail (ctl s)) (App.loginPassword (ctl s))
     = inl (FirebaseError "auth/wrong-password" msg) →
     App.onLogin s
     = (Ok tt, Sys (env s) (App.set_loginError "Incorrect password." (ctl s))) ∧
     (App_signed_out s → App_signed_out (App.onLogin s).2)) ∧
  (∀ s : sys Mono.state,
     Mono.loginEmail (ctl s) ≠ "" → Mono.loginPassword (ctl s) ≠ "" →
     authenticate (env s) (Mono.loginEmail (ctl s)) (Mono.loginPassword (ctl s))
     = inl (FirebaseError "auth/wrong-password" msg) →
     Mono.onLogin s
     = (Ok tt, Sys (env s) (Mono.set_loginError "Incorrect password" (ctl s))) ∧
     (Mono_signed_out s → Mono_signed_out (Mono.onLogin s).2)).
Proof.
  split.
  - intros s Hauth.
    assert (App.onLogin s
      = (Ok tt, Sys (env s) (App.set_loginError "Incorrect password." (ctl s))))
      as Hrun.
    { unfold App.onLogin, try_catch, bind, setC, getsC, gets, modify, liftW,
        AuthService.login, try_catch, bind, SDK.signInWithEmailAndPassword,
        AuthService.rethrow, throw.
      simpl. by rewrite Hauth. }
    split; [done|]. rewrite Hrun. by intros (? & ? & ? & ?).
  - intros s Hem Hpw Hauth.
    assert (Mono.onLogin s
      = (Ok tt, Sys (env s) (Mono.set_loginError "Incorrect password" (ctl s))))
      as Hrun.
    { unfold Mono.onLogin, try_catch, bind, setC, getsC, gets, modify, liftW,
        SDK.signInWithEmailAndPassword.
      simpl.
      destruct (String.eqb_spec (Mono.loginEmail (ctl s)) ""); [done|].
      destruct (String.eqb_spec (Mono.loginPassword (ctl s)) ""); [done|].
      simpl. by rewrite Hauth. }
    split; [done|]. rewrite Hrun. by intros (? & ? & ? & ?).
Qed.

Lemma wrong_password_login_witness :
  (App.onLogin app_login_form
   = (Ok tt, Sys (env app_login_form)
                 (App.set_loginError "Incorrect password." (ctl app_login_form))) ∧
   (App_signed_out app_login_form →
    App_signed_out (App.onLogin app_login_form).2)) ∧
  (Mono.onLogin mono_login_form
   = (Ok tt, Sys (env mono_login_form)
                 (Mono.set_loginError "Incorrect password" (ctl mono_login_form))) ∧
   (Mono_signed_out mono_login_form →
    Mono_signed_out (Mono.onLogin mono_login_form).2)).
Proof.
  destruct (wrong_password_login "Firebase: Error (auth/wrong-password).")
    as [Ha Hm].
  split.
  - apply (Ha app_login_form). reflexivity.
  - apply (Hm mono_login_form); [done|done|reflexivity].
Defined.

(** C5 fails on the older controller: its message has no full stop. *)
Lemma older_login_message_differs :
  (SDK.signInWithEmailAndPassword "ana@x.com" "guess123"
     (env mono_login_form)).1 = Throw wrong_password ∧
  Mono.loginError (ctl (Mono.onLogin mono_login_form).2) = "Incorrect password" ∧
  Mono.loginError (ctl (Mono.onLogin mono_login_form).2) ≠ "Incorrect password.".
Proof. split; [reflexivity|]. split; [reflexivity|]. by vm_compute. Qed.

(** ** Capturing the position *)

(** C7, as the code has it.  A capture makes one request to the device when
    the location API is there and none when it is not; the older controller
    passes the options [{enableHighAccuracy: true, timeout: 10000,
    maximumAge: 60000}], the newer controller passes no options. *)
Theorem capture_requests :
  (∀ s : sys Mono.state,
     geo_requests (env (Mono.getCurrentLocation s).2)
     = (geo_requests (env s) ++
        if geolocation (env s) is Some _
        then [Some (GeoOptions true 10000 60000)] else [])%list) ∧
  (∀ s : sys App.state,
     geo_requests (env (App.getCurrentLocation s).2)
     = (geo_requests (env s) ++
        if geolocation (env s) is Some _ then [None] else [])%list).
Proof.
  split; intros [w c].
  - unfold Mono.getCurrentLocation, finally, try_catch, bind, setC, modify,
      Mono.request_position, bind, liftW, gets, modify, throw, ret, clock, gets.
    simpl. destruct (geolocation w) as [[p|code]|]; simpl; try done.
    by rewrite app_nil_r.
  - unfold App.getCurrentLocation, bind, setC, modify, liftW, gets, modify,
      clock, gets.
    simpl. destruct (geolocation w) as [[p|code]|]; simpl; try done.
    by rewrite app_nil_r.
Qed.

(** C7 fails on the newer controller: its one request has no options. *)
Lemma newer_capture_has_no_options :
  geo_requests (env (App.getCurrentLocation
                       (Sys world_with_device (App.initial 0))).2) = [None] ∧
  ¬ ∃ o : geo_options,
      geo_requests (env (App.getCurrentLocation
                           (Sys world_with_device (App.initial 0))).2)
      = [Some o].
Proof. split; [reflexivity|]. intros [o Ho]. vm_compute in Ho. discriminate. Qed.

(** ** Collections, queries and fresh ids *)

Lemma child_id_spec (coll p : path) (id : string) :
  child_id coll p = Some id ↔ p = (coll ++ [id])%list.
Proof.
  revert p. induction coll as [|c coll IH]; intros p; simpl.
  - destruct p as [|q [|q' p]]; naive_solver.
  - destruct p as [|q p]; [naive_solver|].
    destruct (String.eqb_spec c q) as [->|Hne].
    + rewrite IH. naive_solver.
    + naive_solver.
Qed.

Lemma elem_of_children (coll : path) (st : gmap path obj) (id : string) (d : obj) :
  (id, d) ∈ children coll st ↔ st !! (coll ++ [id])%list = Some d.
Proof.
  unfold children. rewrite list_elem_of_omap. split.
  - intros ([p d'] & Hin & Hf). simpl in Hf.
    destruct (child_id coll p) as [id'|] eqn:Hc; simplify_eq/=.
    apply child_id_spec in Hc as ->. by apply elem_of_map_to_list.
  - intros Hst. exists ((coll ++ [id])%list, d). split.
    + by apply elem_of_map_to_list.
    + simpl. by rewrite (proj2 (child_id_spec coll _ id) eq_refl).
Qed.

Lemma fresh_id_fresh (coll : path) (st : gmap path obj) :
  st !! (coll ++ [fresh_id coll st])%list = None.
Proof.
  destruct (st !! (coll ++ [fresh_id coll st])%list) as [d|] eqn:Hst; [|done].
  apply elem_of_children in Hst.
  exfalso. apply (is_fresh (list_to_set (children coll st).*1 : gset string)).
  apply elem_of_list_to_set, list_elem_of_fmap.
  by exists (fresh_id coll st, d).
Qed.

Lemma elem_of_query_desc (coll : path) (field : string) (st : gmap path obj)
    (r : row) :
  r ∈ query_desc coll field st ↔
  st !! (coll ++ [r.1])%list = Some r.2 ∧ is_Some (r.2 !! field).
Proof.
  unfold query_desc. rewrite merge_sort_Permutation, list_elem_of_filter.
  destruct r as [id d]. rewrite elem_of_children. naive_solver.
Qed.


Lemma has_undefined_false (d : obj) :
  has_undefined d = false ↔ ∀ k, d !! k ≠ Some VUndefined.
Proof.
  unfold has_undefined. rewrite <- not_true_iff_false, existsb_exists. split.
  - intros H k Hk. apply H. exists (k, VUndefined). split.
    + by apply list_elem_of_In, elem_of_map_to_list.
    + by apply bool_decide_eq_true.
  - intros H ([k v] & Hin & Hv). apply bool_decide_eq_true in Hv.
    simpl in Hv. subst v.
    by apply list_elem_of_In, elem_of_map_to_list, H in Hin.
Qed.

(** ** What the remaining SDK calls evaluate to *)

Lemma getDoc_run (p : path) (w : world) :
  SDK.getDoc p w =
  (match next_fault w with Some e => Throw e | None => Ok (store w !! p) end,
   pop_fault w).
Proof.
  unfold SDK.getDoc, bind, gets. rewrite remote_run.
  by destruct (next_fault w).
Qed.



Lemma deleteDoc_run (p : path) (w : world) :
  SDK.deleteDoc p w =
  match next_fault w with
  | Some e => (Throw e, pop_fault w)
  | None => (Ok tt, set_store (delete p) (pop_fault w))
  end.
Proof.
  unfold SDK.deleteDoc, bind, modify. rewrite remote_run.
  by destruct (next_fault w).
Qed.

Lemma setDoc_run (p : path) (data : obj) (w : world) :
  SDK.setDoc p data w =
  if has_undefined data then (Throw SDK.invalid_data, w) else
  match next_fault w with
  | Some e => (Throw e, pop_fault w)
  | None => (Ok tt, set_store (<[p := to_store <$> data]>) (pop_fault w))
  end.
Proof.
  unfold SDK.setDoc, SDK.validate, bind, modify.
  destruct (has_undefined data); [done|]. unfold ret. rewrite remote_run.
  by destruct (next_fault w).
Qed.

Lemma setDoc_merge_run (p : path) (data : obj) (w : world) :
  SDK.setDoc_merge p data w =
  if has_undefined data then (Throw SDK.invalid_data, w) else
  match next_fault w with
  | Some e => (Throw e, pop_fault w)
  | None =>
      (Ok tt,
       set_store (<[p := spread (default ∅ (store w !! p)) (to_store <$> data)]>)
                 (pop_fault w))
  end.
Proof.
  unfold SDK.setDoc_merge, SDK.validate, bind, modify.
  destruct (has_undefined data); [done|]. unfold ret. rewrite remote_run.
  by destruct (next_fault w).
Qed.

Lemma updateDoc_run (p : path) (data : obj) (w : world) :
  SDK.updateDoc p data w =
  if has_undefined data then (Throw SDK.invalid_data, w) else
  match next_fault w with
  | Some e => (Throw e, pop_fault w)
  | None =>
      match store w !! p with
      | None => (Throw SDK.not_found, pop_fault w)
      | Some d =>
          (Ok tt,
           set_store (<[p := spread d (to_store <$> data)]>) (pop_fault w))
      end
  end.
Proof.
  unfold SDK.updateDoc, SDK.validate, bind, modify, gets, throw.
  destruct (has_undefined data); [done|]. unfold ret. rewrite remote_run.
  destruct (next_fault w); [done|]. simpl. by destruct (store w !! p).
Qed.

Lemma addDoc_run (coll : path) (data : obj) (w : world) :
  SDK.addDoc coll data w =
  if has_undefined data then (Throw SDK.invalid_data, w) else
  match next_fault w with
  | Some e => (Throw e, pop_fault w)
  | None =>
      (Ok (fresh_id coll (store w)),
       set_store (<[(coll ++ [fresh_id coll (store w)])%list
                    := to_store <$> data]>) (pop_fault w))
  end.
Proof.
  unfold SDK.addDoc, SDK.validate, bind, modify, gets, ret.
  destruct (has_undefined data); [done|]. rewrite remote_run.
  by destruct (next_fault w).
Qed.

Lemma updateProfile_run (name : string) (w : world) :
  SDK.updateProfile name w =
  match next_fault w with
  | Some e => (Throw e, pop_fault w)
  | None =>
      (Ok tt,
       set_currentUser
         ((λ u, AuthUser (auth_uid u) (auth_email u) (Some name))
            <$> currentUser w) (pop_fault w))
  end.
Proof.
  unfold SDK.updateProfile, bind, modify. rewrite remote_run.
  by destruct (next_fault w).
Qed.

(** ** Updating the profile *)

Lemma field_at_insert (st : gmap path obj) (p q : path) (d : obj) (f : string) :
  field_at (<[q := d]> st) p f
  = if decide (q = p) then d !! f else field_at st p f.
Proof. unfold field_at. rewrite lookup_insert. by case_decide. Qed.

Lemma lookup_spread (a b : obj) (f : string) :
  spread a b !! f = match b !! f with Some v => Some v | None => a !! f end.
Proof. unfold spread. rewrite lookup_union. by destruct (b !! f), (a !! f). Qed.

Lemma names_are_defined (name : string) :
  has_undefined ({[ "username" := VStr name; "displayName" := VStr name ]} : obj)
  = false.
Proof.
  apply has_undefined_false. intros k Hk.
  apply lookup_insert_Some in Hk as [[_ ?]|[_ Hk]]; [done|].
  by apply lookup_singleton_Some in Hk as [_ ?].
Qed.

Lemma updateUserProfile_run (userId name : string) (w : world) :
  let data : obj := {[ "username" := VStr name; "displayName" := VStr name ]} in
  AuthService.updateUserProfile userId name w =
  match currentUser w with
  | Some _ =>
      match next_fault w with
      | Some e => (Throw e, pop_fault w)
      | None =>
          SDK.setDoc_merge ["users"; userId] data
            (set_currentUser
               ((λ u, AuthUser (auth_uid u) (auth_email u) (Some name))
                  <$> currentUser w) (pop_fault w))
      end
  | None => SDK.setDoc_merge ["users"; userId] data w
  end.
Proof.
  intros data.
  unfold AuthService.updateUserProfile, try_catch, bind, gets,
    AuthService.rethrow, throw. simpl.
  fold data.
  destruct (currentUser w) eqn:Hcu.
  - rewrite updateProfile_run, Hcu. destruct (next_fault w); [done|].
    by destruct (SDK.setDoc_merge _ _ _) as [[]].
  - unfold ret. by destruct (SDK.setDoc_merge _ _ _) as [[]].
Qed.

Lemma Mono_updateUserProfile_run (updates : obj) (w : world) (c : Mono.state) :
  Mono.updateUserProfile updates (Sys w c) =
  match currentUser w, Mono.userProfile c with
  | Some user, Some currentProfile =>
      if has_undefined updates then (Ok tt, Sys w c) else
      match next_fault w with
      | Some _ => (Ok tt, Sys (pop_fault w) c)
      | None =>
          match store w !! ["users"; auth_uid user] with
          | Some d =>
              (Ok tt,
               Sys (set_store
                      (<[["users"; auth_uid user]
                         := spread d (to_store <$> updates)]>) (pop_fault w))
                   (Mono.set_userProfile
                      (Some (spread currentProfile updates)) c))
          | None => (Ok tt, Sys (pop_fault w) c)
          end
      end
  | _, _ => (Ok tt, Sys w c)
  end.
Proof.
  unfold Mono.updateUserProfile, try_catch, bind, liftW, gets, getsC, gets,
    setC, modify, ret. simpl.
  destruct (currentUser w) as [user|]; [|done].
  destruct (Mono.userProfile c) as [prof|]; [|done].
  rewrite updateDoc_run. simpl.
  destruct (has_undefined updates); [done|].
  destruct (next_fault w); [done|].
  by destruct (store w !! ["users"; auth_uid user]).
Qed.

(** C8. [updateUserProfile] changes no document but the user's, and in it no
    field but [username] and [displayName], which a successful call sets to
    the new name; the older controller's update with [{username}] changes no
    field but [username]. *)
Theorem profile_update_frame (userId name : string) :
  (∀ w : world,
     let r := AuthService.updateUserProfile userId name w in
     (∀ p f, ¬ (p = ["users"; userId] ∧ (f = "username" ∨ f = "displayName")) →
             field_at (store r.2) p f = field_at (store w) p f) ∧
     (∀ p, p ≠ ["users"; userId] → store r.2 !! p = store w !! p) ∧
     (r.1 = Ok tt →
      field_at (store r.2) ["users"; userId] "username" = Some (VStr name) ∧
      field_at (store r.2) ["users"; userId] "displayName" = Some (VStr name))) ∧
  (∀ s : sys Mono.state,
     let r := Mono.updateUserProfile {[ "username" := VStr name ]} s in
     (∀ p f, f ≠ "username" →
             field_at (store (env r.2)) p f = field_at (store (env s)) p f) ∧
     (∀ user p, currentUser (env s) = Some user → p ≠ ["users"; auth_uid user] →
                store (env r.2) !! p = store (env s) !! p) ∧
     (∀ user, currentUser (env s) = Some user →
              is_Some (Mono.userProfile (ctl s)) →
              next_fault (env s) = None →
              is_Some (store (env s) !! ["users"; auth_uid user]) →
              field_at (store (env r.2)) ["users"; auth_uid user] "username"
              = Some (VStr name))).
Proof.
  split.
  - intros w r.
    assert (∀ w0 : world, store w0 = store w →
      let r0 := SDK.setDoc_merge ["users"; userId]
                  {[ "username" := VStr name; "displayName" := VStr name ]} w0 in
      (∀ p f, ¬ (p = ["users"; userId] ∧ (f = "username" ∨ f = "displayName")) →
              field_at (store r0.2) p f = field_at (store w) p f) ∧
      (∀ p, p ≠ ["users"; userId] → store r0.2 !! p = store w !! p) ∧
      (r0.1 = Ok tt →
       field_at (store r0.2) ["users"; userId] "username" = Some (VStr name) ∧
       field_at (store r0.2) ["users"; userId] "displayName" = Some (VStr name)))
      as Hmerge.
    { intros w0 Hw0 r0. subst r0. rewrite setDoc_merge_run, names_are_defined.
      destruct (next_fault w0); simpl; rewrite Hw0.
      { split; [done|]. split; done. }
      split; [|split].
      - intros p f Hpf. rewrite field_at_insert. case_decide as Hp; [|done].
        subst p. rewrite lookup_spread, lookup_fmap.
        assert (f ≠ "username" ∧ f ≠ "displayName") as [? ?] by naive_solver.
        rewrite lookup_insert_ne, lookup_singleton_ne by done. simpl.
        unfold field_at. by destruct (store w !! ["users"; userId]).
      - intros p Hp. by rewrite lookup_insert_ne.
      - intros _. rewrite !field_at_insert, !decide_True by done.
        rewrite !lookup_spread, !lookup_fmap.
        by rewrite lookup_insert_eq, lookup_insert_ne, lookup_singleton_eq. }
    subst r. rewrite updateUserProfile_run. cbv zeta.
    destruct (currentUser w).
    + destruct (next_fault w); [|by apply Hmerge].
      simpl. split; [done|]. split; done.
    + by apply Hmerge.
  - intros [w c] r. subst r. rewrite Mono_updateUserProfile_run.
    cbn [env ctl].
    destruct (currentUser w) as [user|]; [|by simpl].
    destruct (Mono.userProfile c) as [prof|]; [|by simpl].
    assert (has_undefined ({[ "username" := VStr name ]} : obj) = false) as ->.
    { apply has_undefined_false. intros k Hk.
      by apply lookup_singleton_Some in Hk as [_ ?]. }
    destruct (next_fault w); simpl.
    { split; [done|]. split; [done|]. by intros ? [= <-] _ ?. }
    destruct (store w !! ["users"; auth_uid user]) as [d|] eqn:Hd; simpl.
    + split; [|split].
      * intros p f Hf. rewrite field_at_insert. case_decide as Hp; [|done].
        subst p. rewrite lookup_spread, lookup_fmap.
        rewrite lookup_singleton_ne by done. simpl.
        unfold field_at. by rewrite Hd.
      * intros ? p [= <-] Hp. by rewrite lookup_insert_ne.
      * intros ? [= <-] _ _ _. rewrite field_at_insert, decide_True by done.
        by rewrite lookup_spread, lookup_fmap, lookup_singleton_eq.
    + split; [done|]. split; [done|]. intros ? [= <-] _ _ [? ?]. congruence.
Qed.

Lemma profile_update_frame_witness :
  let r := AuthService.updateUserProfile "u1" "Anna" (world_of ana_store []) in
  field_at (store r.2) ["users"; "u1"] "email"
  = field_at ana_store ["users"; "u1"] "email" ∧
  store r.2 !! ["users"; "u1"; "workouts"; "w1"]
  = ana_store !! ["users"; "u1"; "workouts"; "w1"] ∧
  field_at (store r.2) ["users"; "u1"] "username" = Some (VStr "Anna") ∧
  let m := Mono.updateUserProfile {[ "username" := VStr "Anna" ]}
             (Sys (world_of ana_store [])
                  (Mono.set_userProfile (Some ana_doc) (Mono.initial 0))) in
  field_at (store (env m.2)) ["users"; "u1"] "email"
  = field_at ana_store ["users"; "u1"] "email" ∧
  store (env m.2) !! ["users"; "u1"; "workouts"; "w1"]
  = ana_store !! ["users"; "u1"; "workouts"; "w1"] ∧
  field_at (store (env m.2)) ["users"; "u1"] "username" = Some (VStr "Anna").
Proof.
  destruct (profile_update_frame "u1" "Anna") as [Ha Hm].
  destruct (Ha (world_of ana_store [])) as (Ha1 & Ha2 & Ha3).
  destruct (Hm (Sys (world_of ana_store [])
                    (Mono.set_userProfile (Some ana_doc) (Mono.initial 0))))
    as (Hm1 & Hm2 & Hm3).
  cbv zeta. split; [|split; [|split; [|split; [|split]]]].
  - apply Ha1. intros [_ [?|?]]; discriminate.
  - apply Ha2. discriminate.
  - apply Ha3. reflexivity.
  - apply Hm1. discriminate.
  - apply (Hm2 ana); [reflexivity|discriminate].
  - apply (Hm3 ana); [reflexivity|by eexists|reflexivity|by eexists].
Defined.

(** ** Adding a workout *)

Lemma addWorkout_run (userId : string) (workout : obj) (w : world) :
  AuthService.addWorkout userId workout w =
  SDK.addDoc ["users"; userId; "workouts"] (<["date" := VDate (now w)]> workout) w.
Proof.
  unfold AuthService.addWorkout, try_catch, bind, clock, gets,
    AuthService.rethrow, throw.
  by destruct (SDK.addDoc _ _ _) as [[]].
Qed.

Lemma js_or_defined (a b : value) : b ≠ VUndefined → js_or a b ≠ VUndefined.
Proof.
  intros Hb. unfold js_or. destruct (truthy a) eqn:Ht; [|done]. by destruct a.
Qed.

Lemma Mono_loadWorkouts_env (s : sys Mono.state) :
  (Mono.loadWorkouts s).1 = Ok tt ∧
  store (env (Mono.loadWorkouts s).2) = store (env s).
Proof. rewrite Mono_loadWorkouts_run. by destruct (currentUser (env s)). Qed.

(** The document the older controller writes for the form [nw] at time [d]. *)
Lemma Mono_workoutData_defined (nw : obj) (d : Z) :
  has_undefined
    ({[ "name" := js_or (prop nw "name") (VStr "");
        "type" := js_or (prop nw "type") (VStr "");
        "duration" := js_or (prop nw "duration") zero;
        "notes" := js_or (prop nw "notes") (VStr "");
        "date" := VDate d ]} : obj) = false.
Proof.
  apply has_undefined_false. intros k Hk.
  repeat (apply lookup_insert_Some in Hk as [[_ Hk]|[_ Hk]];
          [by eapply js_or_defined; [|exact Hk]|]).
  by apply lookup_singleton_Some in Hk as [_ ?].
Qed.

Lemma Mono_addWorkout_store (w : world) (c : Mono.state) (user : auth_user) :
  currentUser w = Some user →
  store (env (Mono.addWorkout (Sys w c)).2) =
  match next_fault w with
  | Some _ => store w
  | None =>
      let nw := Mono.newWorkout c in
      let coll := ["users"; auth_uid user; "workouts"] in
      <[(coll ++ [fresh_id coll (store w)])%list
        := to_store <$>
             ({[ "name" := js_or (prop nw "name") (VStr "");
                 "type" := js_or (prop nw "type") (VStr "");
                 "duration" := js_or (prop nw "duration") zero;
                 "notes" := js_or (prop nw "notes") (VStr "");
                 "date" := VDate (now w) ]} : obj)]> (store w)
  end.
Proof.
  intros Hu.
  unfold Mono.addWorkout, bind, liftW, gets, getsC, gets, try_catch, clock,
    gets. simpl. rewrite Hu.
  rewrite addDoc_run, Mono_workoutData_defined. simpl.
  destruct (next_fault w); simpl; [done|].
  match goal with |- context [Mono.loadWorkouts ?s] =>
    pose proof (Mono_loadWorkouts_env s) as [Hok Hst];
    destruct (Mono.loadWorkouts s) as [[[]|e] s1]
  end; simpl in *; [|done].
  unfold setC, modify. simpl. by rewrite Hst.
Qed.

(** C10. The document [addWorkout] stores carries the clock's time at the
    call as its [date], whatever [date] the caller supplied; the call fails,
    storing nothing, only when the data is refused or the store call fails.
    The older controller's [addWorkout] stores the clock's time as well. *)
Theorem added_workout_is_dated_now (userId : string) (workout : obj) (w : world) :
  let coll := ["users"; userId; "workouts"] in
  match AuthService.addWorkout userId workout w with
  | (Ok id, w') =>
      store w !! (coll ++ [id])%list = None ∧
      field_at (store w') (coll ++ [id])%list "date" = Some (fromDate (now w)) ∧
      (∀ p, p ≠ (coll ++ [id])%list → store w' !! p = store w !! p)
  | (Throw e, w') =>
      store w' = store w ∧
      ((e = SDK.invalid_data ∧
        has_undefined (<["date" := VDate (now w)]> workout) = true) ∨
       next_fault w = Some e)
  end ∧
  ∀ (c : Mono.state) (user : auth_user),
    currentUser w = Some user →
    let coll := ["users"; auth_uid user; "workouts"] in
    let w' := env (Mono.addWorkout (Sys w c)).2 in
    match next_fault w with
    | Some _ => store w' = store w
    | None =>
        store w !! (coll ++ [fresh_id coll (store w)])%list = None ∧
        field_at (store w') (coll ++ [fresh_id coll (store w)])%list "date"
        = Some (fromDate (now w)) ∧
        (∀ p, p ≠ (coll ++ [fresh_id coll (store w)])%list →
              store w' !! p = store w !! p)
    end.
Proof.
  cbv zeta. split.
  - rewrite addWorkout_run, addDoc_run.
    destruct (has_undefined _) eqn:Hu; [by auto|].
    destruct (next_fault w); simpl; [by auto|].
    split; [apply (fresh_id_fresh ["users"; userId; "workouts"])|]. split.
    + rewrite field_at_insert, decide_True by done.
      by rewrite lookup_fmap, lookup_insert_eq.
    + intros p Hp. by rewrite lookup_insert_ne.
  - intros c user Hu. rewrite (Mono_addWorkout_store w c user Hu).
    destruct (next_fault w); [done|]. cbv zeta.
    split; [apply (fresh_id_fresh ["users"; auth_uid user; "workouts"])|].
    split.
    + rewrite field_at_insert, decide_True by done.
      rewrite lookup_fmap.
      by repeat (rewrite lookup_insert_ne by done); rewrite lookup_singleton_eq.
    + intros p Hp. by rewrite lookup_insert_ne.
Qed.

Lemma added_workout_is_dated_now_witness :
  let c := Mono.set_newWorkout
             (<["name" := VStr "Swim"]> (<["date" := VDate 5]> (Mono.blank_workout 5)))
             (Mono.initial 0) in
  let w := world_of ana_store [] in
  let coll := ["users"; "u1"; "workouts"] in
  let w' := env (Mono.addWorkout (Sys w c)).2 in
  store w !! (coll ++ [fresh_id coll (store w)])%list = None ∧
  field_at (store w') (coll ++ [fresh_id coll (store w)])%list "date"
  = Some (fromDate 1000) ∧
  (∀ p, p ≠ (coll ++ [fresh_id coll (store w)])%list →
        store w' !! p = store w !! p).
Proof.
  intros c w.
  exact (proj2 (added_workout_is_dated_now "u1" ∅ w) c ana eq_refl).
Defined.

(** A workout entered with the date 5 is stored with the date 1000, the time
    of the call. *)
Example addWorkout_discards_date :
  let workout : obj := {[ "name" := VStr "Swim"; "date" := VDate 5 ]} in
  let r := AuthService.addWorkout "u1" workout (world_of ana_store []) in
  r.1 = Ok "0" ∧
  store r.2 !! ["users"; "u1"; "workouts"; "0"]
  = Some {[ "name" := VStr "Swim"; "date" := VTimestamp 1000000000 ]}.
Proof. split; [reflexivity|]. vm_compute. reflexivity. Qed.

(** ** Saving a location and loading it back *)

Lemma saveLocation_run (userId : string) (location : obj) (w : world) :
  AuthService.saveLocation userId location w =
  SDK.addDoc ["users"; userId; "locations"]
             (<["savedAt" := VDate (now w)]> location) w.
Proof.
  unfold AuthService.saveLocation, try_catch, bind, clock, gets,
    AuthService.rethrow, throw.
  by destruct (SDK.addDoc _ _ _) as [[]].
Qed.

Lemma toDate_fromDate (ms : Z) : date_or_raw (fromDate ms) = VDate ms.
Proof. unfold fromDate, date_or_raw, toDate. by rewrite Z.quot_mul. Qed.

Lemma prop_lookup (o : obj) (k : string) (v : value) :
  o !! k = Some v → prop o k = v.
Proof. unfold prop. by intros ->. Qed.

Lemma map_result_Ok {A B} (f : A → result B) (l : list A) :
  (∀ x, x ∈ l → ∃ y, f x = Ok y) →
  ∃ ys, map_result f l = Ok ys ∧ ∀ x, x ∈ l → ∃ y, f x = Ok y ∧ y ∈ ys.
Proof.
  induction l as [|x l IH]; intros Hf; simpl.
  - exists []. split; [done|]. by intros x ?%elem_of_nil.
  - destruct (Hf x) as [y Hy]; [by left|]. rewrite Hy.
    destruct IH as (ys & -> & Hys); [by intros; apply Hf; right|].
    exists (y :: ys). split; [done|].
    intros x' [->|Hx']%elem_of_cons.
    + exists y. split; [done|by left].
    + destruct (Hys x' Hx') as (y' & ? & ?). exists y'. split; [done|by right].
Qed.


Lemma date_or_now_dated (v : value) (d : Z) :
  dated v → ∃ t, Mono.date_or_now v d = Ok t.
Proof. destruct v; simpl; eauto; done. Qed.

Lemma same_number_js_or (x : number) :
  num_is_nan x = false → same_number (js_or (VNum x) zero) x.
Proof.
  intros Hnan. unfold js_or, truthy. rewrite Hnan, orb_false_r.
  destruct (num_is_zero x) eqn:Hz; cbn [negb]; unfold same_number, zero, num_eqb.
  - rewrite Hnan, Hz.
    assert (num_is_nan 0 = false) as -> by reflexivity.
    assert (num_is_zero 0 = true) as -> by reflexivity.
    cbn [negb andb]. apply orb_true_r.
  - rewrite Hnan. cbn [negb andb]. by rewrite Z.eqb_refl.
Qed.

(** C4. A location saved with [saveLocation] and loaded with [loadLocations]
    comes back with the latitude, longitude and accuracy it was saved with,
    and with the clock's time at the save as [savedAt], whatever [savedAt] it
    carried before.  The older controller's [saveLocation], which reloads the
    list itself, shows the saved coordinates (as equal numbers) and the time
    of the save, provided the documents of the collection are dated. *)
Theorem location_round_trip (lat lon acc : number) (w : world) :
  (∀ (userId : string) (L : obj),
     L !! "latitude" = Some (VNum lat) → L !! "longitude" = Some (VNum lon) →
     L !! "accuracy" = Some (VNum acc) →
     has_undefined (<["savedAt" := VDate (now w)]> L) = false →
     next_fault w = None → next_fault (pop_fault w) = None →
     ∃ (id : string) (ls : list obj) (o : obj),
       (AuthService.saveLocation userId L w).1 = Ok id ∧
       (AuthService.loadLocations userId
          (AuthService.saveLocation userId L w).2).1 = Ok ls ∧
       o ∈ ls ∧
       o = AuthService.location_of_doc
             (id, to_store <$> <["savedAt" := VDate (now w)]> L) ∧
       prop o "latitude" = VNum lat ∧ prop o "longitude" = VNum lon ∧
       prop o "accuracy" = VNum acc ∧ prop o "savedAt" = VDate (now w)) ∧
  (∀ (c : Mono.state) (user : auth_user) (cur : Mono.Location),
     currentUser w = Some user → Mono.currentLocation c = Some cur →
     Mono.latitude cur = VNum lat → Mono.longitude cur = VNum lon →
     Mono.accuracy cur = VNum acc →
     num_is_nan lat = false → num_is_nan lon = false → num_is_nan acc = false →
     (∀ id d, store w !! ["users"; auth_uid user; "locations"; id] = Some d →
              dated (prop d "timestamp") ∧ dated (prop d "savedAt")) →
     next_fault w = None → next_fault (pop_fault w) = None →
     ∃ r : Mono.Location,
       r ∈ Mono.savedLocations (ctl (Mono.saveLocation (Sys w c)).2) ∧
       Mono.l_id r = fresh_id ["users"; auth_uid user; "locations"] (store w) ∧
       same_number (Mono.latitude r) lat ∧ same_number (Mono.longitude r) lon ∧
       same_number (Mono.accuracy r) acc ∧
       Mono.timestamp r = Mono.timestamp cur ∧ Mono.savedAt r = now w).
Proof.
  split.
  - intros userId L Hlat Hlon Hacc Hdef Hf1 Hf2.
    rewrite saveLocation_run, addDoc_run, Hdef, Hf1. cbn [fst snd].
    rewrite loadLocations_run. autorewrite with world. rewrite Hf2.
    cbn [fst snd].
    set (coll := ["users"; userId; "locations"]).
    set (id := fresh_id coll (store w)).
    set (data := to_store <$> <["savedAt" := VDate (now w)]> L).
    exists id, (AuthService.location_of_doc <$>
                  query_desc coll "savedAt"
                    (<[(coll ++ [id])%list := data]> (store w))),
           (AuthService.location_of_doc (id, data)).
    split; [done|]. split; [done|]. split.
    { apply list_elem_of_fmap. exists (id, data). split; [done|].
      apply elem_of_query_desc. simpl. split.
      - apply lookup_insert_eq.
      - subst data. rewrite lookup_fmap, lookup_insert_eq. by eexists. }
    split; [done|].
    assert (∀ k x, k ≠ "savedAt" → k ≠ "timestamp" → k ≠ "id" →
                   L !! k = Some (VNum x) →
                   prop (AuthService.location_of_doc (id, data)) k = VNum x)
      as Hcopy.
    { intros k x ? ? ? Hk. apply prop_lookup.
      unfold AuthService.location_of_doc. simpl.
      rewrite !lookup_insert_ne, lookup_spread by done.
      subst data. rewrite lookup_fmap, lookup_insert_ne, Hk by done. done. }
    split; [by apply Hcopy|]. split; [by apply Hcopy|].
    split; [by apply Hcopy|].
    rewrite location_of_doc_savedAt. simpl. subst data.
    unfold prop. rewrite lookup_fmap, lookup_insert_eq. simpl.
    apply toDate_fromDate.
  - intros c user cur Hu Hcur Hlat Hlon Hacc Nlat Nlon Nacc Hdated Hf1 Hf2.
    set (coll := ["users"; auth_uid user; "locations"]).
    set (id := fresh_id coll (store w)).
    set (data := (to_store <$>
                    ({[ "latitude" := VNum lat; "longitude" := VNum lon;
                        "accuracy" := VNum acc;
                        "timestamp" := VDate (Mono.timestamp cur);
                        "savedAt" := VDate (now w) ]} : obj))).
    set (st' := <[["users"; auth_uid user; "locations"; id] := data]> (store w)).
    assert (prop data "latitude" = VNum lat ∧ prop data "longitude" = VNum lon ∧
            prop data "accuracy" = VNum acc ∧
            prop data "timestamp" = fromDate (Mono.timestamp cur) ∧
            prop data "savedAt" = fromDate (now w))
      as (Dlat & Dlon & Dacc & Dts & Dsv).
    { unfold prop. subst data. rewrite !lookup_fmap.
      repeat split;
        repeat (rewrite lookup_insert_ne by done);
        by rewrite ?lookup_insert_eq, ?lookup_singleton_eq. }
    assert (∃ ls, map_result (Mono.location_of_doc (now w))
                    (query_desc coll "savedAt" st') = Ok ls ∧
                  ∃ y, Mono.location_of_doc (now w) (id, data) = Ok y ∧ y ∈ ls)
      as (ls & Hls & y & Hy & Hin).
    { destruct (map_result_Ok (Mono.location_of_doc (now w))
                  (query_desc coll "savedAt" st')) as (ls & Hls & Hall).
      - intros [id' d'] [Hst _]%elem_of_query_desc. simpl in Hst.
        assert (dated (prop d' "timestamp") ∧ dated (prop d' "savedAt"))
          as [Ht Hs].
        { subst st'. apply lookup_insert_Some in Hst as [[_ <-]|[_ Hst]].
          - by rewrite Dts, Dsv.
          - by apply (Hdated id'). }
        unfold Mono.location_of_doc. simpl.
        destruct (date_or_now_dated _ (now w) Ht) as [t ->].
        destruct (date_or_now_dated _ (now w) Hs) as [t' ->]. by eexists.
      - exists ls. split; [done|]. apply Hall.
        apply elem_of_query_desc. simpl. split.
        + apply lookup_insert_eq.
        + unfold prop in Dsv. destruct (data !! "savedAt"); [by eexists|done]. }
    exists y. split.
    { unfold Mono.saveLocation, bind, liftW, gets, getsC, gets, try_catch,
        clock, gets. simpl. rewrite Hu, Hcur. simpl.
      rewrite Hlat, Hlon, Hacc.
      rewrite addDoc_run. simpl.
      assert (has_undefined
                ({[ "latitude" := VNum lat; "longitude" := VNum lon;
                    "accuracy" := VNum acc;
                    "timestamp" := VDate (Mono.timestamp cur);
                    "savedAt" := VDate (now w) ]} : obj) = false) as ->.
      { apply has_undefined_false. intros k Hk.
        repeat (apply lookup_insert_Some in Hk as [[_ Hk]|[_ Hk]]; [done|]).
        by apply lookup_singleton_Some in Hk as [_ ?]. }
      rewrite Hf1. simpl. rewrite Mono_loadSavedLocations_run. cbn [env ctl].
      autorewrite with world. rewrite Hu, Hf2. fold coll id data st'.
      by rewrite Hls. }
    unfold Mono.location_of_doc in Hy. cbn [fst snd] in Hy.
    rewrite Dlat, Dlon, Dacc, Dts, Dsv in Hy. cbn [Mono.date_or_now fromDate] in Hy.
    injection Hy as <-. cbn [Mono.l_id Mono.latitude Mono.longitude
      Mono.accuracy Mono.timestamp Mono.savedAt].
    split; [done|]. split; [by apply same_number_js_or|].
    split; [by apply same_number_js_or|].
    split; [by apply same_number_js_or|].
    split; by rewrite Z.quot_mul.
Qed.

Lemma location_round_trip_witness :
  let w := world_of ana_store [] in
  let L := App.location_of_position a_position 950 in
  (∃ (id : string) (ls : list obj) (o : obj),
     (AuthService.saveLocation "u1" L w).1 = Ok id ∧
     (AuthService.loadLocations "u1" (AuthService.saveLocation "u1" L w).2).1
     = Ok ls ∧
     o ∈ ls ∧
     o = AuthService.location_of_doc
           (id, to_store <$> <["savedAt" := VDate (now w)]> L) ∧
     prop o "latitude" = VNum (pos_latitude a_position) ∧
     prop o "longitude" = VNum (pos_longitude a_position) ∧
     prop o "accuracy" = VNum (pos_accuracy a_position) ∧
     prop o "savedAt" = VDate (now w)) ∧
  (∃ r : Mono.Location,
     r ∈ Mono.savedLocations (ctl (Mono.saveLocation mono_captured).2) ∧
     Mono.l_id r = fresh_id ["users"; "u1"; "locations"] (store w) ∧
     same_number (Mono.latitude r) (pos_latitude a_position) ∧
     same_number (Mono.longitude r) (pos_longitude a_position) ∧
     same_number (Mono.accuracy r) (pos_accuracy a_position) ∧
     Mono.timestamp r = Mono.timestamp a_location ∧ Mono.savedAt r = now w).
Proof.
  intros w L.
  destruct (location_round_trip (pos_latitude a_position)
              (pos_longitude a_position) (pos_accuracy a_position) w)
    as [Ha Hm].
  split.
  - apply (Ha "u1" L); vm_compute; reflexivity.
  - apply (Hm (ctl mono_captured) ana a_location); try reflexivity.
    intros id d Hd. exfalso.
    change (store w) with ana_store in Hd. unfold ana_store, ana_only in Hd.
    apply lookup_insert_Some in Hd as [[? _]|[_ Hd]]; [done|].
    by apply lookup_singleton_Some in Hd as [? _].
Defined.

(** A position captured and saved through the newer controller: it is
    listed with the coordinates of the capture and the time of the save.
    The captured object carries [id: ''], which is stored with it and, at
    the load, takes the place of the document id. *)
Example capture_save_list :
  let s := (App.on_user (Some ana)
              (Sys world_with_device (App.initial 0))).2 in
  let s' := (App.saveLocation (App.getCurrentLocation s).2).2 in
  (λ o, (prop o "latitude", prop o "savedAt", prop o "id"))
    <$> App.savedLocations (ctl s')
  = [(VNum (pos_latitude a_position), VDate 1000, VStr "")].
Proof. vm_compute. reflexivity. Qed.

(** ** References to documents *)

Lemma search_pretty (xs : list string) (n : nat)
    (acc : Acc (λ n1 n2 : nat, (n2 < n1)%nat ∧ pretty (n1 - 1)%nat ∈ xs) n) :
  ∃ m : nat, Fix_F (λ _, string) (search_infinite_go pretty xs) acc = pretty m.
Proof.
  revert xs n acc. fix FIX 3. intros xs n [?]. simpl.
  unfold search_infinite_go at 1. destruct (decide _); [apply FIX|by eexists].
Qed.

Lemma pretty_N_char_plain (x : N) : Ascii.eqb (pretty_N_char x) "/" = false.
Proof. unfold pretty_N_char. by repeat case_match. Qed.

Lemma pretty_N_go_plain (x : N) (s : string) :
  slash_free s = true →
  slash_free (pretty_N_go x s) = true ∧
  (s ≠ "" ∨ (0 < x)%N → pretty_N_go x s ≠ "").
Proof.
  revert s. induction (N.lt_wf_0 x) as [x _ IH]. intros s Hs.
  assert (x = 0 ∨ 0 < x)%N as [->|Hx] by lia.
  - rewrite pretty_N_go_0. split; [done|]. intros [?|?]; [done|lia].
  - rewrite pretty_N_go_step by done.
    destruct (IH (x `div` 10)%N) with (s := String (pretty_N_char (x `mod` 10)) s)
      as [H1 H2].
    + by apply N.div_lt.
    + simpl. by rewrite pretty_N_char_plain.
    + split; [done|]. intros _. apply H2. by left.
Qed.

(** The ids the store hands out are plain. *)
Lemma fresh_id_plain (coll : path) (st : gmap path obj) :
  plain_id (fresh_id coll st).
Proof.
  unfold fresh_id.
  match goal with |- plain_id (fresh ?X) =>
    change (fresh X) with (fresh (elements X));
    destruct (search_pretty (elements X) 0%nat
                (wf_guard 32 (search_infinite_R_wf pretty (elements X)) 0%nat))
      as [n Hn];
    change (fresh (elements X) = pretty n) in Hn; rewrite Hn
  end.
  unfold pretty, pretty_nat, pretty, pretty_N.
  destruct (decide (N.of_nat n = 0)%N) as [|Hn0]; [done|].
  destruct (pretty_N_go_plain (N.of_nat n) "" eq_refl) as [H1 H2].
  split; [|done]. apply H2. right. lia.
Qed.

Lemma split_slash_plain (s : string) :
  slash_free s = true → split_slash s = [s].
Proof.
  induction s as [|c s IH]; [done|]. simpl.
  destruct (Ascii.eqb c "/"); [done|]. intros Hs. by rewrite IH.
Qed.

Lemma has_double_slash_plain (s : string) :
  slash_free s = true → has_double_slash s = false.
Proof.
  induction s as [|c s IH]; [done|]. simpl.
  destruct (Ascii.eqb c "/"); [done|]. intros Hs. by rewrite IH.
Qed.

(** A plain id names the document of that id. *)
Lemma doc_plain (a b c id : string) :
  plain_id id → SDK.doc [a; b; c] id = Ok [a; b; c; id].
Proof.
  intros [Hne Hs]. unfold SDK.doc, SDK.segments.
  rewrite has_double_slash_plain, split_slash_plain by done. simpl.
  by destruct (String.eqb_spec id "").
Qed.

(** Whatever the id, the reference lies under the collection. *)
Lemma doc_prefix (coll : path) (id : string) (p : path) :
  SDK.doc coll id = Ok p → ∃ segs, p = (coll ++ segs)%list.
Proof.
  unfold SDK.doc. destruct (SDK.segments id) as [segs|]; [|done].
  cbv zeta. destruct (Nat.even _); [|done]. intros [= <-]. by eexists.
Qed.

(** The empty id names no document: the call throws. *)
Lemma doc_empty_id (a b c : string) :
  SDK.doc [a; b; c] "" = Throw (SDK.invalid_document_reference [a; b; c]).
Proof. done. Qed.

(** ** Deleting and reloading *)

Lemma facade_deleteWorkout_run (userId id : string) (w : world) :
  AuthService.deleteWorkout userId id w
  = match SDK.doc ["users"; userId; "workouts"] id with
    | Ok p => SDK.deleteDoc p w
    | Throw e => (Throw e, w)
    end.
Proof.
  unfold AuthService.deleteWorkout, try_catch, bind, lift_result,
    AuthService.rethrow, throw.
  destruct (SDK.doc _ _) as [p|e]; [|done].
  by destruct (SDK.deleteDoc _ _) as [[]].
Qed.

Lemma facade_deleteLocation_run (userId id : string) (w : world) :
  AuthService.deleteLocation userId id w
  = match SDK.doc ["users"; userId; "locations"] id with
    | Ok p => SDK.deleteDoc p w
    | Throw e => (Throw e, w)
    end.
Proof.
  unfold AuthService.deleteLocation, try_catch, bind, lift_result,
    AuthService.rethrow, throw.
  destruct (SDK.doc _ _) as [p|e]; [|done].
  by destruct (SDK.deleteDoc _ _) as [[]].
Qed.





Lemma App_loadLocations_ok (s : sys App.state) : (App.loadLocations s).1 = Ok tt.
Proof.
  rewrite App_loadLocations_run.
  destruct (App.userData (ctl s)) as [u|]; [|done].
  destruct (truthy (AuthService.uid u)); [|done].
  by destruct (AuthService.uid u).
Qed.

Lemma truthy_VStr (s : string) : s ≠ "" → truthy (VStr s) = true.
Proof. intros Hs. simpl. by destruct (String.eqb_spec s ""). Qed.


Lemma App_deleteLocation_run (locationId userId : string) (w : world)
    (c : App.state) (u : AuthService.User) :
  App.userData c = Some u → AuthService.uid u = VStr userId → userId ≠ "" →
  App.deleteLocation locationId (Sys w c) =
  match SDK.doc ["users"; userId; "locations"] locationId with
  | Throw _ => (Ok tt, Sys w c)
  | Ok p =>
      match next_fault w with
      | Some _ => (Ok tt, Sys (pop_fault w) c)
      | None => App.loadLocations (Sys (set_store (delete p) (pop_fault w)) c)
      end
  end.
Proof.
  intros Hd Hid Hne.
  unfold App.deleteLocation, bind, getsC, gets, App.no_uid, try_catch,
    App.with_uid, path_segment, liftW.
  cbn [env ctl fst snd]. rewrite Hd, Hid, truthy_VStr by done.
  cbn [negb env ctl]. rewrite facade_deleteLocation_run.
  destruct (SDK.doc _ _) as [p|e]; [|done].
  rewrite deleteDoc_run. destruct (next_fault w); [done|].
  match goal with |- context [App.loadLocations ?s] =>
    pose proof (App_loadLocations_ok s) as Hok;
    destruct (App.loadLocations s) as [[[]|e] s1]
  end; done.
Qed.





(** The witness at work: of two workouts, the one that was not deleted is
    what both controllers list. *)
Example delete_one_of_two :
  let w := world_of two_workouts [] in
  let c := App.set_userData (Some ana_user) (App.initial 0) in
  Mono.w_id <$> Mono.workouts (ctl (Mono.deleteWorkout "w1"
                                      (Sys w (Mono.initial 0))).2) = ["w0"] ∧
  shown_ids (App.workouts (ctl (App.deleteWorkout "w1" (Sys w c)).2))
  = [VStr "w0"].
Proof. vm_compute. split; reflexivity. Qed.

(** C9 fails on the newer controller for the locations it saves itself: a
    captured location is stored with the empty [id] it was built with, the
    load lets that field override the document's id, and a delete for the
    empty id throws before anything is sent.  The location stays stored and
    listed. *)
Example saved_location_cannot_be_deleted :
  let s0 := Sys world_with_device
                (App.set_userData (Some ana_user) (App.initial 0)) in
  let s1 := (App.saveLocation (App.getCurrentLocation s0).2).2 in
  shown_ids (App.savedLocations (ctl s1)) = [VStr ""] ∧
  App.deleteLocation "" s1 = (Ok tt, s1).
Proof.
  intros s0 s1. split; [vm_compute; reflexivity|].
  assert (App.userData (ctl s1) = Some ana_user) as Hd
    by (vm_compute; reflexivity).
  destruct s1 as [w1 c1]. cbn [ctl] in Hd.
  by rewrite (App_deleteLocation_run "" "u1" w1 c1 ana_user Hd eq_refl).
Qed.

(** ** The profile of a session *)

Lemma profile_defined (userId uname em : string) (d : Z) :
  has_undefined (Mono.profile userId uname em d) = false.
Proof.
  apply has_undefined_false. intros k Hk. unfold Mono.profile in Hk.
  repeat (apply lookup_insert_Some in Hk as [[_ Hk]|[_ Hk]]; [done|]).
  by apply lookup_singleton_Some in Hk as [_ ?].
Qed.

Lemma Mono_createUserProfile_run (userId : string) (w : world) (c : Mono.state)
    (user : auth_user) :
  currentUser w = Some user →
  Mono.createUserProfile userId (Sys w c) =
  match next_fault w with
  | Some _ =>
      (Ok tt,
       Sys (pop_fault w)
           (Mono.set_userProfile
              (Some (Mono.profile userId "Marwan" "" (now w))) c))
  | None =>
      let p := Mono.profile userId
                 (Mono.choose_username (Mono.registerUsername c) user)
                 (default "" (auth_email user)) (now w) in
      (Ok tt,
       Sys (set_store (<[["users"; userId] := to_store <$> p]>) (pop_fault w))
           (Mono.set_isPremium (VBool false)
              (Mono.set_userProfile (Some p) c)))
  end.
Proof.
  intros Hu.
  unfold Mono.createUserProfile, try_catch, bind, liftW, gets, getsC, gets,
    clock, gets, setC, modify.
  cbn [env ctl]. rewrite Hu. cbn [env ctl].
  rewrite setDoc_run, profile_defined.
  by destruct (next_fault w).
Qed.

Lemma profile_id (userId uname em : string) (d : Z) :
  Mono.profile userId uname em d !! "id" = Some (VStr userId).
Proof. unfold Mono.profile. apply lookup_insert_eq. Qed.

(** *** What [loadUserProfile] evaluates to *)




Lemma getUserData_run (userId : string) (w : world) :
  AuthService.getUserData userId w =
  (match next_fault w with
   | Some e => Throw e
   | None => Ok (AuthService.user_of_doc <$> store w !! ["users"; userId])
   end, pop_fault w).
Proof.
  unfold AuthService.getUserData, try_catch, bind, AuthService.rethrow, throw.
  rewrite getDoc_run. destruct (next_fault w); [done|].
  by destruct (store w !! ["users"; userId]).
Qed.






(** The three cases of the older controller, at work on the calls of
    [loadUserProfile] alone: a stored profile is taken as it is; without one
    a profile is created under the session's display name; and when the
    write that would create it fails, the fall-back is kept in state. *)
Example stored_profile :
  let s := Sys (world_of older_store []) (Mono.initial 0) in
  (λ p, prop p "username")
    <$> Mono.userProfile (ctl (Mono.loadUserProfile "u1" s).2)
  = Some (VStr "Anna").
Proof. vm_compute. reflexivity. Qed.

Example created_profile :
  let s := Sys (world_of ∅ []) (Mono.initial 0) in
  Mono.userProfile (ctl (Mono.loadUserProfile "u1" s).2)
  = Some (Mono.profile "u1" "Ana" "ana@x.com" 1000).
Proof. vm_compute. reflexivity. Qed.

Example fallback_profile :
  let s := Sys (world_of ∅ [None; None; None; Some unavailable]) (Mono.initial 0) in
  Mono.userProfile (ctl (Mono.loadUserProfile "u1" s).2)
  = Some (Mono.profile "u1" "Marwan" "" 1000).
Proof. vm_compute. reflexivity. Qed.

(** [trim] at work on white space beyond ASCII: a name typed between a
    no-break space and an ideographic space. *)
Example trim_wide_space : trim " John　" = "John".
Proof. vm_compute. reflexivity. Qed.

(** * Further properties of the code *)

(** ** Capturing the position: the outcome *)

(** X1. A capture never throws and always ends with the loading flag off.
    A position from the device becomes the transient location, stamped with
    the clock's time, and the error message is blank; a failure leaves the
    transient location as it was and sets the message for its code.  Without
    a location API the newer controller says so, while the older one, whose
    [TypeError] has no code, reports a denied permission. *)
Theorem capture_outcome :
  (∀ s : sys App.state,
     let r := App.getCurrentLocation s in
     r.1 = Ok tt ∧ App.locationLoading (ctl r.2) = false ∧
     match geolocation (env s) with
     | Some (GeoOk p) =>
         App.currentLocation (ctl r.2)
         = Some (App.location_of_position p (now (env s))) ∧
         App.locationError (ctl r.2) = ""
     | Some (GeoFail code) =>
         App.currentLocation (ctl r.2) = App.currentLocation (ctl s) ∧
         App.locationError (ctl r.2) = App.getLocationErrorMessage code
     | None =>
         App.currentLocation (ctl r.2) = App.currentLocation (ctl s) ∧
         App.locationError (ctl r.2)
         = "Geolocation is not supported by this browser."
     end) ∧
  (∀ s : sys Mono.state,
     let r := Mono.getCurrentLocation s in
     r.1 = Ok tt ∧ Mono.locationLoading (ctl r.2) = false ∧
     match geolocation (env s) with
     | Some (GeoOk p) =>
         Mono.currentLocation (ctl r.2)
         = Some (Mono.mkLocation "" (VNum (pos_latitude p))
                   (VNum (pos_longitude p)) (VNum (pos_accuracy p))
                   (pos_timestamp p) (now (env s))) ∧
         Mono.locationError (ctl r.2) = ""
     | Some (GeoFail code) =>
         Mono.currentLocation (ctl r.2) = Mono.currentLocation (ctl s) ∧
         Mono.locationError (ctl r.2) = App.getLocationErrorMessage code
     | None =>
         Mono.currentLocation (ctl r.2) = Mono.currentLocation (ctl s) ∧
         Mono.locationError (ctl r.2)
         = "Location access denied. Please enable location permissions."
     end).
Proof.
  split; intros [w c]; cbv zeta.
  - unfold App.getCurrentLocation, bind, setC, modify, liftW, gets, modify,
      clock, gets. cbn [env ctl fst snd].
    by destruct (geolocation w) as [[p|code]|].
  - unfold Mono.getCurrentLocation, finally, try_catch, bind, setC, modify,
      Mono.request_position, bind, liftW, gets, modify, throw, ret, clock, gets.
    cbn [env ctl fst snd].
    by destruct (geolocation w) as [[p|code]|].
Qed.

(** ** Without a user *)

(** X2. Without a user record (or with one whose [uid] is falsy) the newer
    controller's loads, adds, saves and deletes return at once: no call is
    made and nothing changes.  Without a current user the older controller's
    adds, saves, deletes and profile updates do the same, and its loads only
    empty the list. *)
Theorem no_user_no_store_access (id : string) (updates : obj) :
  (∀ s : sys App.state,
     App.no_uid (App.userData (ctl s)) = true →
     App.loadWorkouts s = (Ok tt, s) ∧ App.loadLocations s = (Ok tt, s) ∧
     App.addWorkout s = (Ok tt, s) ∧ App.deleteWorkout id s = (Ok tt, s) ∧
     App.saveLocation s = (Ok tt, s) ∧ App.deleteLocation id s = (Ok tt, s)) ∧
  (∀ s : sys Mono.state,
     currentUser (env s) = None →
     Mono.addWorkout s = (Ok tt, s) ∧ Mono.deleteWorkout id s = (Ok tt, s) ∧
     Mono.saveLocation s = (Ok tt, s) ∧ Mono.deleteLocation id s = (Ok tt, s) ∧
     Mono.updateUserProfile updates s = (Ok tt, s) ∧
     Mono.loadWorkouts s
     = (Ok tt, Sys (env s) (Mono.set_workouts [] (ctl s))) ∧
     Mono.loadSavedLocations s
     = (Ok tt, Sys (env s) (Mono.set_savedLocations [] (ctl s)))).
Proof.
  split.
  - intros s Hno.
    unfold App.loadWorkouts, App.loadLocations, App.addWorkout,
      App.deleteWorkout, App.saveLocation, App.deleteLocation, bind, getsC,
      gets, ret.
    cbn [fst snd]. rewrite Hno.
    destruct (App.userData (ctl s)), (App.currentLocation (ctl s)); done.
  - intros [w c] Hu. cbn [env] in Hu.
    rewrite Mono_loadWorkouts_run, Mono_loadSavedLocations_run.
    rewrite Mono_updateUserProfile_run. cbn [env ctl]. rewrite Hu.
    unfold Mono.addWorkout, Mono.deleteWorkout, Mono.saveLocation,
      Mono.deleteLocation, bind, liftW, gets, getsC, gets, ret.
    cbn [env ctl fst snd]. rewrite Hu.
    by destruct (Mono.currentLocation c).
Qed.

Lemma no_user_no_store_access_witness :
  let a := Sys (world_of ana_store [Some unavailable]) (App.initial 0) in
  let m := Sys world_without_session (Mono.initial 0) in
  (App.loadWorkouts a = (Ok tt, a) ∧ App.loadLocations a = (Ok tt, a) ∧
   App.addWorkout a = (Ok tt, a) ∧ App.deleteWorkout "w1" a = (Ok tt, a) ∧
   App.saveLocation a = (Ok tt, a) ∧ App.deleteLocation "w1" a = (Ok tt, a)) ∧
  (Mono.addWorkout m = (Ok tt, m) ∧ Mono.deleteWorkout "w1" m = (Ok tt, m) ∧
   Mono.saveLocation m = (Ok tt, m) ∧ Mono.deleteLocation "w1" m = (Ok tt, m) ∧
   Mono.updateUserProfile ∅ m = (Ok tt, m) ∧
   Mono.loadWorkouts m = (Ok tt, Sys (env m) (Mono.set_workouts [] (ctl m))) ∧
   Mono.loadSavedLocations m
   = (Ok tt, Sys (env m) (Mono.set_savedLocations [] (ctl m)))).
Proof.
  intros a m. destruct (no_user_no_store_access "w1" ∅) as [Ha Hm]. split.
  - apply (Ha a). reflexivity.
  - apply (Hm m). reflexivity.
Defined.

(** ** What the facade reads and writes *)

(** X3. Each write of the facade changes at most one document, and that
    document lies under the user's own path: documents elsewhere, those of
    other users among them, are as before, whatever the outcome. *)
Theorem writes_stay_under_user (userId : string) (w : world) (p : path) :
  (∀ rest, p ≠ ("users" :: userId :: rest)) →
  (∀ workout, store (AuthService.addWorkout userId workout w).2 !! p
              = store w !! p) ∧
  (∀ id, store (AuthService.deleteWorkout userId id w).2 !! p = store w !! p) ∧
  (∀ location, store (AuthService.saveLocation userId location w).2 !! p
               = store w !! p) ∧
  (∀ id, store (AuthService.deleteLocation userId id w).2 !! p = store w !! p) ∧
  (∀ name, store (AuthService.updateUserProfile userId name w).2 !! p
           = store w !! p).
Proof.
  intros Hp.
  assert (∀ coll data, coll = ["users"; userId; "workouts"]
                       ∨ coll = ["users"; userId; "locations"] →
            store (SDK.addDoc coll data w).2 !! p = store w !! p) as Hadd.
  { intros coll data Hc. rewrite addDoc_run.
    destruct (has_undefined data); [done|].
    destruct (next_fault w); [done|]. cbn [snd]. autorewrite with world.
    rewrite lookup_insert_ne; [done|].
    destruct Hc as [-> | ->]; intros <-; by eapply Hp. }
  assert (∀ coll id, coll = ["users"; userId; "workouts"]
                     ∨ coll = ["users"; userId; "locations"] →
            store (match SDK.doc coll id with
                   | Ok q => SDK.deleteDoc q w
                   | Throw e => (Throw e, w)
                   end).2 !! p = store w !! p) as Hdel.
  { intros coll id Hc.
    destruct (SDK.doc coll id) as [q|e] eqn:Hq; [|done].
    apply doc_prefix in Hq as [segs ->]. rewrite deleteDoc_run.
    destruct (next_fault w); [done|]. cbn [snd]. autorewrite with world.
    rewrite lookup_delete_ne; [done|].
    destruct Hc as [-> | ->]; intros <-; by eapply Hp. }
  split; [|split; [|split; [|split]]].
  - intros workout. rewrite addWorkout_run. apply Hadd. by left.
  - intros id. rewrite facade_deleteWorkout_run. apply Hdel. by left.
  - intros location. rewrite saveLocation_run. apply Hadd. by right.
  - intros id. rewrite facade_deleteLocation_run. apply Hdel. by right.
  - intros name.
    assert (∀ w0, store w0 = store w →
              store (SDK.setDoc_merge ["users"; userId]
                       {[ "username" := VStr name; "displayName" := VStr name ]}
                       w0).2 !! p = store w !! p) as Hmerge.
    { intros w0 Hw0. rewrite setDoc_merge_run, names_are_defined.
      destruct (next_fault w0); cbn [snd]; autorewrite with world;
        rewrite Hw0; [done|].
      rewrite lookup_insert_ne; [done|]. intros <-. by eapply Hp. }
    rewrite updateUserProfile_run. cbv zeta.
    destruct (currentUser w); [|by apply Hmerge].
    destruct (next_fault w); [done|]. by apply Hmerge.
Qed.

Lemma writes_stay_under_user_witness :
  let w := world_of ana_store [] in
  let p := ["users"; "u2"; "workouts"; "w9"] in
  (∀ workout, store (AuthService.addWorkout "u1" workout w).2 !! p
              = store w !! p) ∧
  (∀ id, store (AuthService.deleteWorkout "u1" id w).2 !! p = store w !! p) ∧
  (∀ location, store (AuthService.saveLocation "u1" location w).2 !! p
               = store w !! p) ∧
  (∀ id, store (AuthService.deleteLocation "u1" id w).2 !! p = store w !! p) ∧
  (∀ name, store (AuthService.updateUserProfile "u1" name w).2 !! p
           = store w !! p).
Proof.
  intros w p. apply (writes_stay_under_user "u1" w p). intros rest. discriminate.
Defined.

(** The rows of an ordered query, as a set. *)
Lemma loadWorkouts_store (userId : string) (w : world) :
  store (AuthService.loadWorkouts userId w).2 = store w.
Proof. by rewrite loadWorkouts_run. Qed.

Lemma loadLocations_store (userId : string) (w : world) :
  store (AuthService.loadLocations userId w).2 = store w.
Proof. by rewrite loadLocations_run. Qed.

(** X4. A load writes nothing.  Once the store has answered, the list holds
    exactly the records made from the user's own documents that carry the
    field the query orders by: a workout document without a [date], or a
    location document without a [savedAt], is never listed. *)
Theorem loads_list_own_documents (userId : string) (w : world) :
  store (AuthService.loadWorkouts userId w).2 = store w ∧
  store (AuthService.loadLocations userId w).2 = store w ∧
  (next_fault w = None →
   (∃ ws, (AuthService.loadWorkouts userId w).1 = Ok ws ∧
          ∀ o, o ∈ ws ↔
               ∃ id d, store w !! ["users"; userId; "workouts"; id] = Some d ∧
                       is_Some (d !! "date") ∧
                       o = AuthService.workout_of_doc (id, d)) ∧
   (∃ ls, (AuthService.loadLocations userId w).1 = Ok ls ∧
          ∀ o, o ∈ ls ↔
               ∃ id d, store w !! ["users"; userId; "locations"; id] = Some d ∧
                       is_Some (d !! "savedAt") ∧
                       o = AuthService.location_of_doc (id, d))).
Proof.
  split; [apply loadWorkouts_store|]. split; [apply loadLocations_store|].
  intros Hf. rewrite loadWorkouts_run, loadLocations_run, Hf. cbn [fst].
  split; eexists; (split; [reflexivity|]); intros o;
    rewrite list_elem_of_fmap; split.
  - intros ([id d] & -> & Hr). apply elem_of_query_desc in Hr as [Hst Hd].
    by exists id, d.
  - intros (id & d & Hst & Hd & ->). exists (id, d). split; [done|].
    by apply elem_of_query_desc.
  - intros ([id d] & -> & Hr). apply elem_of_query_desc in Hr as [Hst Hd].
    by exists id, d.
  - intros (id & d & Hst & Hd & ->). exists (id, d). split; [done|].
    by apply elem_of_query_desc.
Qed.

Lemma loads_list_own_documents_witness :
  let w := world_of ana_store [] in
  (∃ ws, (AuthService.loadWorkouts "u1" w).1 = Ok ws ∧
         ∀ o, o ∈ ws ↔
              ∃ id d, store w !! ["users"; "u1"; "workouts"; id] = Some d ∧
                      is_Some (d !! "date") ∧
                      o = AuthService.workout_of_doc (id, d)) ∧
  (∃ ls, (AuthService.loadLocations "u1" w).1 = Ok ls ∧
         ∀ o, o ∈ ls ↔
              ∃ id d, store w !! ["users"; "u1"; "locations"; id] = Some d ∧
                      is_Some (d !! "savedAt") ∧
                      o = AuthService.location_of_doc (id, d)).
Proof.
  intros w.
  apply (proj2 (proj2 (loads_list_own_documents "u1" w))). reflexivity.
Defined.

(** ** Deleting *)

(** X5. A facade delete first turns the id into a reference; an id that
    names no document, the empty id among them, makes the call throw before
    anything is sent, and nothing changes.  Otherwise a delete that returns
    has removed the document the id names, and deleting a document the user
    does not have changes nothing in the store and is no error when the
    store answers, so a second delete of the same id is harmless. *)
Theorem delete_is_idempotent (userId id : string) (w : world) :
  let r := AuthService.deleteWorkout userId id w in
  let l := AuthService.deleteLocation userId id w in
  match SDK.doc ["users"; userId; "workouts"] id with
  | Ok p =>
      (r.1 = Ok tt → store r.2 !! p = None) ∧
      (store w !! p = None →
       store r.2 = store w ∧ (next_fault w = None → r.1 = Ok tt))
  | Throw e => r = (Throw e, w)
  end ∧
  match SDK.doc ["users"; userId; "locations"] id with
  | Ok p =>
      (l.1 = Ok tt → store l.2 !! p = None) ∧
      (store w !! p = None →
       store l.2 = store w ∧ (next_fault w = None → l.1 = Ok tt))
  | Throw e => l = (Throw e, w)
  end.
Proof.
  cbv zeta. rewrite facade_deleteWorkout_run, facade_deleteLocation_run.
  split.
  - destruct (SDK.doc _ id) as [p|e]; [|done]. rewrite deleteDoc_run.
    destruct (next_fault w); cbn [fst snd]; autorewrite with world.
    + repeat split; done.
    + split; [intros _; apply lookup_delete_eq|].
      intros Hno. split; [by apply delete_id|done].
  - destruct (SDK.doc _ id) as [p|e]; [|done]. rewrite deleteDoc_run.
    destruct (next_fault w); cbn [fst snd]; autorewrite with world.
    + repeat split; done.
    + split; [intros _; apply lookup_delete_eq|].
      intros Hno. split; [by apply delete_id|done].
Qed.

Lemma delete_is_idempotent_witness :
  let w := world_of ana_store [] in
  let r := AuthService.deleteWorkout "u1" "w1" w in
  let r2 := AuthService.deleteWorkout "u1" "w1" r.2 in
  store w !! ["users"; "u1"; "workouts"; "w1"] = Some run_doc ∧
  store r.2 !! ["users"; "u1"; "workouts"; "w1"] = None ∧
  store r2.2 = store r.2 ∧ r2.1 = Ok tt ∧
  AuthService.deleteLocation "u1" "" w
  = (Throw (SDK.invalid_document_reference ["users"; "u1"; "locations"]), w).
Proof.
  intros w r r2.
  pose proof (proj1 (delete_is_idempotent "u1" "w1" w)) as [H1 _].
  pose proof (proj1 (delete_is_idempotent "u1" "w1" r.2)) as [_ H2].
  pose proof (proj2 (delete_is_idempotent "u1" "" w)) as H3.
  split; [reflexivity|].
  split; [apply H1; reflexivity|].
  destruct H2 as [Hs Hok]; [apply H1; reflexivity|].
  split; [exact Hs|]. split; [apply Hok; reflexivity|exact H3].
Defined.

(** ** Adding, then deleting or loading *)

(** X6. Deleting the workout that an add has just created brings the store
    back to what it was before the add, and the same holds for a saved
    location. *)
Theorem add_then_delete_restores (userId : string) (data : obj) (w w1 : world)
    (id : string) :
  (AuthService.addWorkout userId data w = (Ok id, w1) →
   next_fault w1 = None →
   let r := AuthService.deleteWorkout userId id w1 in
   r.1 = Ok tt ∧ store r.2 = store w) ∧
  (AuthService.saveLocation userId data w = (Ok id, w1) →
   next_fault w1 = None →
   let r := AuthService.deleteLocation userId id w1 in
   r.1 = Ok tt ∧ store r.2 = store w).
Proof.
  split.
  - rewrite addWorkout_run, addDoc_run.
    destruct (has_undefined _); [done|]. destruct (next_fault w); [done|].
    intros [= <- <-] Hf. cbv zeta.
    rewrite facade_deleteWorkout_run, doc_plain by apply fresh_id_plain.
    rewrite deleteDoc_run, Hf. cbn [fst snd].
    split; [done|]. autorewrite with world. apply delete_insert_id.
    apply (fresh_id_fresh ["users"; userId; "workouts"]).
  - rewrite saveLocation_run, addDoc_run.
    destruct (has_undefined _); [done|]. destruct (next_fault w); [done|].
    intros [= <- <-] Hf. cbv zeta.
    rewrite facade_deleteLocation_run, doc_plain by apply fresh_id_plain.
    rewrite deleteDoc_run, Hf. cbn [fst snd].
    split; [done|]. autorewrite with world. apply delete_insert_id.
    apply (fresh_id_fresh ["users"; userId; "locations"]).
Qed.

Lemma add_then_delete_restores_witness :
  let w := world_of ana_store [] in
  let a := AuthService.addWorkout "u1" run_doc w in
  let r := AuthService.deleteWorkout "u1" "0" a.2 in
  r.1 = Ok tt ∧ store r.2 = store w.
Proof.
  intros w a.
  apply (proj1 (add_then_delete_restores "u1" run_doc w a.2 "0"));
    vm_compute; reflexivity.
Defined.

Lemma children_insert_fresh (coll : path) (st : gmap path obj) (id : string)
    (d : obj) :
  st !! (coll ++ [id])%list = None →
  children coll (<[(coll ++ [id])%list := d]> st) ≡ₚ (id, d) :: children coll st.
Proof.
  intros Hno. unfold children. rewrite (map_to_list_insert _ _ _ Hno).
  cbn [omap list_omap]. cbn [fst snd].
  by rewrite (proj2 (child_id_spec coll _ id) eq_refl).
Qed.

Lemma query_desc_insert_fresh (coll : path) (field : string)
    (st : gmap path obj) (id : string) (d : obj) :
  st !! (coll ++ [id])%list = None → is_Some (d !! field) →
  query_desc coll field (<[(coll ++ [id])%list := d]> st)
  ≡ₚ (id, d) :: query_desc coll field st.
Proof.
  intros Hno Hd. unfold query_desc. rewrite !merge_sort_Permutation.
  rewrite (children_insert_fresh _ _ _ _ Hno).
  by rewrite filter_cons_True.
Qed.

(** X7. After an add, the next load returns the records it would have
    returned before and, exactly once more, the record of the new document:
    the new list is a rearrangement of that record put before the old list.
    The same holds for a saved location. *)
Theorem add_then_load_lists_once (userId : string) (data : obj) (w w1 : world)
    (id : string) :
  (AuthService.addWorkout userId data w = (Ok id, w1) →
   next_fault w1 = None →
   ∃ before after,
     (AuthService.loadWorkouts userId w).1 = Ok before ∧
     (AuthService.loadWorkouts userId w1).1 = Ok after ∧
     after ≡ₚ AuthService.workout_of_doc
                (id, to_store <$> <["date" := VDate (now w)]> data)
              :: before) ∧
  (AuthService.saveLocation userId data w = (Ok id, w1) →
   next_fault w1 = None →
   ∃ before after,
     (AuthService.loadLocations userId w).1 = Ok before ∧
     (AuthService.loadLocations userId w1).1 = Ok after ∧
     after ≡ₚ AuthService.location_of_doc
                (id, to_store <$> <["savedAt" := VDate (now w)]> data)
              :: before).
Proof.
  split.
  - rewrite addWorkout_run, addDoc_run.
    destruct (has_undefined _); [done|].
    destruct (next_fault w) eqn:Hf0; [done|].
    intros [= <- <-] Hf. rewrite !loadWorkouts_run, Hf0, Hf. cbn [fst].
    autorewrite with world. do 2 eexists. split; [done|]. split; [done|].
    match goal with |- context [<[_ := ?d]> (store w)] =>
      pose proof (query_desc_insert_fresh ["users"; userId; "workouts"] "date"
                    (store w) _ d (fresh_id_fresh _ _)) as Hq
    end.
    cbn [app] in Hq. rewrite Hq; [done|].
    rewrite lookup_fmap, lookup_insert_eq. by eexists.
  - rewrite saveLocation_run, addDoc_run.
    destruct (has_undefined _); [done|].
    destruct (next_fault w) eqn:Hf0; [done|].
    intros [= <- <-] Hf. rewrite !loadLocations_run, Hf0, Hf. cbn [fst].
    autorewrite with world. do 2 eexists. split; [done|]. split; [done|].
    match goal with |- context [<[_ := ?d]> (store w)] =>
      pose proof (query_desc_insert_fresh ["users"; userId; "locations"] "savedAt"
                    (store w) _ d (fresh_id_fresh _ _)) as Hq
    end.
    cbn [app] in Hq. rewrite Hq; [done|].
    rewrite lookup_fmap, lookup_insert_eq. by eexists.
Qed.

Lemma add_then_load_lists_once_witness :
  let w := world_of ana_store [] in
  let a := AuthService.addWorkout "u1" run_doc w in
  ∃ before after,
    (AuthService.loadWorkouts "u1" w).1 = Ok before ∧
    (AuthService.loadWorkouts "u1" a.2).1 = Ok after ∧
    after ≡ₚ AuthService.workout_of_doc
               ("0", to_store <$> <["date" := VDate (now w)]> run_doc)
             :: before.
Proof.
  intros w a.
  apply (proj1 (add_then_load_lists_once "u1" run_doc w a.2 "0"));
    vm_compute; reflexivity.
Defined.

(** ** The loads of the older controller *)

Lemma map_result_Throw {A B} (f : A → result B) (l : list A) (x : A) :
  x ∈ l → (∃ e, f x = Throw e) → ∃ e', map_result f l = Throw e'.
Proof.
  induction l as [|y l IH]; [by intros ?%elem_of_nil|].
  intros [->|Hx]%elem_of_cons Hfx; simpl.
  - destruct Hfx as [e ->]. by eexists.
  - destruct (f y); [|by eexists].
    destruct (IH Hx Hfx) as [e' ->]. by eexists.
Qed.

Lemma map_result_Forall2 {A B} (f : A → result B) (l : list A) (ys : list B) :
  map_result f l = Ok ys → Forall2 (λ x y, f x = Ok y) l ys.
Proof.
  revert ys. induction l as [|x l IH]; intros ys; simpl.
  - intros [= <-]. constructor.
  - destruct (f x) as [y|] eqn:Hx; [|done].
    destruct (map_result f l) as [ys0|]; [|done].
    intros [= <-]. constructor; [done|]. by apply IH.
Qed.

Lemma StronglySorted_Forall2 {A B} (R : relation A) (R' : relation B)
    (P : A → B → Prop) (l : list A) (k : list B) :
  (∀ x x' y y', R x x' → P x y → P x' y' → R' y y') →
  StronglySorted R l → Forall2 P l k → StronglySorted R' k.
Proof.
  intros HR Hs. revert k.
  induction Hs as [|x l Hs IH Hx]; intros k Hk.
  - apply Forall2_nil_inv_l in Hk as ->. constructor.
  - apply Forall2_cons_inv_l in Hk as (y & k' & Hy & Hk' & ->).
    constructor; [by apply IH|].
    apply Forall_forall. intros y' Hy'.
    apply list_elem_of_lookup in Hy' as [i Hi].
    destruct (Forall2_lookup_r _ _ _ i y' Hk' Hi) as (x' & Hx' & Hp).
    eapply HR; [|exact Hy|exact Hp].
    eapply Forall_forall; [exact Hx|]. by eapply list_elem_of_lookup_2.
Qed.

Lemma date_or_now_not_dated (v : value) (d : Z) :
  ¬ dated v → ∃ e, Mono.date_or_now v d = Throw e.
Proof.
  destruct v; simpl; intros H; try (by destruct H); by eexists.
Qed.

(** X8. In the older controller one document whose [date] is neither a
    timestamp nor null makes the whole load fail, and the list of workouts
    ends up empty; so does one location document whose [savedAt] is such a
    value. *)
Theorem older_load_one_bad_date (w : world) (c : Mono.state) (user : auth_user)
    (id : string) (d : obj) (v : value) :
  currentUser w = Some user → ¬ dated v →
  (store w !! ["users"; auth_uid user; "workouts"; id] = Some d →
   d !! "date" = Some v →
   Mono.workouts (ctl (Mono.loadWorkouts (Sys w c)).2) = []) ∧
  (store w !! ["users"; auth_uid user; "locations"; id] = Some d →
   d !! "savedAt" = Some v →
   Mono.savedLocations (ctl (Mono.loadSavedLocations (Sys w c)).2) = []).
Proof.
  intros Hu Hv. split; intros Hst Hd.
  - rewrite Mono_loadWorkouts_run. cbn [env ctl]. rewrite Hu. cbn [snd ctl].
    destruct (next_fault w); [done|].
    assert ((id, d) ∈ query_desc ["users"; auth_uid user; "workouts"] "date"
                        (store w)) as Hin.
    { apply elem_of_query_desc. split; [done|]. cbn. by rewrite Hd. }
    destruct (date_or_now_not_dated v (now w) Hv) as [e He].
    destruct (map_result_Throw (Mono.workout_of_doc (now w)) _ _ Hin)
      as [e' ->]; [|done].
    exists e. unfold Mono.workout_of_doc. cbn [snd].
    by rewrite (prop_lookup _ _ _ Hd), He.
  - rewrite Mono_loadSavedLocations_run. cbn [env ctl]. rewrite Hu.
    cbn [snd ctl]. destruct (next_fault w); [done|].
    assert ((id, d) ∈ query_desc ["users"; auth_uid user; "locations"] "savedAt"
                        (store w)) as Hin.
    { apply elem_of_query_desc. split; [done|]. cbn. by rewrite Hd. }
    destruct (date_or_now_not_dated v (now w) Hv) as [e He].
    destruct (map_result_Throw (Mono.location_of_doc (now w)) _ (id, d) Hin)
      as [e' ->]; [|done].
    unfold Mono.location_of_doc. cbn [snd].
    rewrite (prop_lookup _ _ _ Hd), He.
    destruct (Mono.date_or_now (prop d "timestamp") _); by eexists.
Qed.

Lemma older_load_one_bad_date_witness :
  let st := <[ ["users"; "u1"; "workouts"; "w2"]
               := <["date" := VStr "yesterday"]> run_doc ]> ana_store in
  Mono.workouts (ctl (Mono.loadWorkouts
                        (Sys (world_of st []) (Mono.initial 0))).2) = [].
Proof.
  intros st.
  apply (proj1 (older_load_one_bad_date (world_of st []) (Mono.initial 0) ana
                  "w2" (<["date" := VStr "yesterday"]> run_doc)
                  (VStr "yesterday") eq_refl (λ H, H)));
    vm_compute; reflexivity.
Defined.

(** X9. In the older controller, when every workout document of the user
    carries a timestamp as its [date] and the store answers, the list has one
    record per document, in the order of the query, and is ordered by date,
    latest first. *)
Theorem older_load_is_newest_first (w : world) (c : Mono.state)
    (user : auth_user) :
  currentUser w = Some user → next_fault w = None →
  (∀ id d v, store w !! ["users"; auth_uid user; "workouts"; id] = Some d →
             d !! "date" = Some v → ∃ ns, v = VTimestamp ns) →
  let ws := Mono.workouts (ctl (Mono.loadWorkouts (Sys w c)).2) in
  Mono.w_id <$> ws
  = (query_desc ["users"; auth_uid user; "workouts"] "date" (store w)).*1 ∧
  StronglySorted (λ a b, Mono.date b ≤ Mono.date a) ws.
Proof.
  intros Hu Hf Hts. cbv zeta.
  rewrite Mono_loadWorkouts_run. cbn [env ctl]. rewrite Hu, Hf. cbn [snd ctl].
  set (q := query_desc ["users"; auth_uid user; "workouts"] "date" (store w)).
  assert (∀ r, r ∈ q → ∃ ns, prop r.2 "date" = VTimestamp ns) as Hq.
  { intros [id d] [Hst [v Hv]]%elem_of_query_desc. cbn in *.
    destruct (Hts id d v Hst Hv) as [ns ->]. exists ns.
    by apply prop_lookup. }
  destruct (map_result_Ok (Mono.workout_of_doc (now w)) q) as (ws & Hws & _).
  { intros r Hr. destruct (Hq r Hr) as [ns Hns].
    unfold Mono.workout_of_doc. rewrite Hns. by eexists. }
  change (Mono.workouts (Mono.set_workouts ?x c)) with x.
  rewrite Hws. apply map_result_Forall2 in Hws.
  split.
  - clear Hq. induction Hws as [|r y q' ws' Hy _ IH]; [done|].
    cbn. rewrite IH. f_equal.
    unfold Mono.workout_of_doc in Hy.
    destruct (Mono.date_or_now _ _); [|done]. by injection Hy as <-.
  - eapply (StronglySorted_Forall2 (row_desc "date") _
              (λ r y, r ∈ q ∧ Mono.workout_of_doc (now w) r = Ok y));
      [|apply query_desc_sorted|].
    2: { apply Forall2_same_length_lookup. split; [by eapply Forall2_length|].
         intros i r y Hr Hy. split; [by eapply list_elem_of_lookup_2|].
         by apply (Forall2_lookup_lr _ _ _ i r y Hws). }
    intros r r' y y' Hrr [Hr Hy] [Hr' Hy']. cbn beta in *.
    apply row_desc_key in Hrr.
    destruct (Hq r Hr) as [ns Hns]. destruct (Hq r' Hr') as [ns' Hns'].
    rewrite Hns, Hns' in Hrr.
    unfold Mono.workout_of_doc in Hy, Hy'. rewrite Hns in Hy. rewrite Hns' in Hy'.
    cbn in Hy, Hy'. injection Hy as <-. injection Hy' as <-. cbn.
    unfold value_leb in Hrr. cbn in Hrr. apply Z.leb_le in Hrr.
    by apply Z.quot_le_mono.
Qed.

Lemma older_load_is_newest_first_witness :
  let w := world_of two_workouts [] in
  let ws := Mono.workouts (ctl (Mono.loadWorkouts (Sys w (Mono.initial 0))).2) in
  Mono.w_id <$> ws
  = (query_desc ["users"; "u1"; "workouts"] "date" (store w)).*1 ∧
  StronglySorted (λ a b, Mono.date b ≤ Mono.date a) ws.
Proof.
  intros w.
  apply (older_load_is_newest_first w (Mono.initial 0) ana eq_refl eq_refl).
  intros id d v Hst Hv. change (store w) with two_workouts in Hst.
  unfold two_workouts, ana_store, ana_only in Hst.
  apply lookup_insert_Some in Hst as [[_ <-]|[_ Hst]].
  { rewrite lookup_insert_eq in Hv. injection Hv as <-. by eexists. }
  apply lookup_insert_Some in Hst as [[_ <-]|[_ Hst]].
  { unfold run_doc in Hv.
    repeat (rewrite lookup_insert_ne in Hv by done).
    rewrite lookup_singleton_eq in Hv. injection Hv as <-. by eexists. }
  by apply lookup_singleton_Some in Hst as [? _].
Defined.

(** ** Saving the captured location *)

Lemma App_loadLocations_frame (s : sys App.state) :
  (App.loadLocations s).1 = Ok tt ∧
  store (env (App.loadLocations s).2) = store (env s) ∧
  App.currentLocation (ctl (App.loadLocations s).2)
  = App.currentLocation (ctl s).
Proof.
  rewrite App_loadLocations_run.
  destruct (App.userData (ctl s)) as [u|]; [|done].
  destruct (truthy (AuthService.uid u)); [|done].
  destruct (AuthService.uid u); try done.
  cbn [fst snd env ctl]. by destruct (next_fault (env s)).
Qed.

Lemma App_saveLocation_run (userId : string) (loc : obj) (w : world)
    (c : App.state) (u : AuthService.User) :
  App.userData c = Some u → AuthService.uid u = VStr userId → userId ≠ "" →
  App.currentLocation c = Some loc →
  App.saveLocation (Sys w c) =
  if has_undefined (<["savedAt" := VDate (now w)]> loc) then (Ok tt, Sys w c)
  else match next_fault w with
       | Some _ => (Ok tt, Sys (pop_fault w) c)
       | None =>
           App.loadLocations
             (Sys (set_store
                     (<[ ["users"; userId; "locations";
                          fresh_id ["users"; userId; "locations"] (store w)]
                         := to_store <$> <["savedAt" := VDate (now w)]> loc ]>)
                     (pop_fault w))
                  (App.set_currentLocation None c))
       end.
Proof.
  intros Hd Hid Hne Hloc.
  unfold App.saveLocation, bind, getsC, gets, App.no_uid, try_catch,
    App.with_uid, path_segment, liftW, setC, modify.
  cbn [env ctl fst snd]. rewrite Hd, Hloc, Hid, truthy_VStr by done.
  cbn [negb env ctl fst snd]. rewrite saveLocation_run, addDoc_run.
  destruct (has_undefined _); [done|].
  destruct (next_fault w); [done|]. cbn [app fst snd env ctl].
  match goal with |- context [App.loadLocations ?s] =>
    pose proof (App_loadLocations_ok s) as Hok;
    destruct (App.loadLocations s) as [[[]|e] s1]
  end; done.
Qed.

Lemma Mono_saveLocation_run (w : world) (c : Mono.state) (user : auth_user)
    (l : Mono.Location) :
  currentUser w = Some user → Mono.currentLocation c = Some l →
  let data : obj :=
    {[ "latitude" := Mono.latitude l; "longitude" := Mono.longitude l;
       "accuracy" := Mono.accuracy l;
       "timestamp" := VDate (Mono.timestamp l); "savedAt" := VDate (now w) ]} in
  Mono.saveLocation (Sys w c) =
  if has_undefined data then (Ok tt, Sys w c)
  else match next_fault w with
       | Some _ => (Ok tt, Sys (pop_fault w) c)
       | None =>
           Mono.loadSavedLocations
             (Sys (set_store
                     (<[ ["users"; auth_uid user; "locations";
                          fresh_id ["users"; auth_uid user; "locations"]
                                   (store w)]
                         := to_store <$> data ]>) (pop_fault w)) c)
       end.
Proof.
  intros Hu Hl. cbv zeta.
  unfold Mono.saveLocation, bind, getsC, gets, try_catch, liftW, clock, gets.
  cbn [env ctl fst snd]. rewrite Hu, Hl. cbn [env ctl fst snd].
  rewrite addDoc_run.
  destruct (has_undefined _); [done|].
  destruct (next_fault w); [done|]. cbn [app fst snd env ctl].
  rewrite Mono_loadSavedLocations_run. cbn [env ctl].
  autorewrite with world. by rewrite Hu.
Qed.

(** X10. Saving the captured location never throws.  The newer controller
    drops the captured location exactly when the document was stored: after
    a refused or failed save the location is still held and the store is as
    it was.  The older controller keeps the captured location in every case,
    so the same position can be saved again. *)
Theorem save_and_the_captured_location :
  (∀ (w : world) (c : App.state) (u : AuthService.User) (userId : string)
     (loc : obj),
     App.userData c = Some u → AuthService.uid u = VStr userId → userId ≠ "" →
     App.currentLocation c = Some loc →
     let r := App.saveLocation (Sys w c) in
     let data := <["savedAt" := VDate (now w)]> loc in
     r.1 = Ok tt ∧
     if has_undefined data || bool_decide (is_Some (next_fault w))
     then App.currentLocation (ctl r.2) = Some loc ∧ store (env r.2) = store w
     else App.currentLocation (ctl r.2) = None ∧
          store (env r.2)
          = <[ ["users"; userId; "locations";
                fresh_id ["users"; userId; "locations"] (store w)]
               := to_store <$> data ]> (store w)) ∧
  (∀ s : sys Mono.state,
     (Mono.saveLocation s).1 = Ok tt ∧
     Mono.currentLocation (ctl (Mono.saveLocation s).2)
     = Mono.currentLocation (ctl s)).
Proof.
  split.
  - intros w c u userId loc Hd Hid Hne Hloc. cbv zeta.
    rewrite (App_saveLocation_run userId loc w c u) by done.
    destruct (has_undefined _); [done|]. cbn [orb].
    destruct (next_fault w) eqn:Hf; [done|].
    rewrite bool_decide_eq_false_2 by (by intros [? [=]]).
    match goal with |- context [App.loadLocations ?s] =>
      destruct (App_loadLocations_frame s) as (Hok & Hst & Hcur)
    end.
    rewrite Hok, Hst, Hcur. cbn [env ctl]. by autorewrite with world.
  - intros [w c]. cbn [ctl].
    destruct (currentUser w) as [user|] eqn:Hu.
    2: { unfold Mono.saveLocation, bind, liftW, gets. cbn [env ctl fst snd].
         by rewrite Hu. }
    destruct (Mono.currentLocation c) as [l|] eqn:Hl.
    2: { unfold Mono.saveLocation, bind, liftW, getsC, gets.
         cbn [env ctl fst snd]. by rewrite Hu, Hl. }
    rewrite (Mono_saveLocation_run w c user l Hu Hl).
    destruct (has_undefined _); [done|].
    destruct (next_fault w); [done|].
    rewrite Mono_loadSavedLocations_run. cbn [env ctl].
    autorewrite with world. by rewrite Hu.
Qed.

Lemma save_and_the_captured_location_witness :
  let w := world_of ana_store [Some unavailable] in
  let loc := App.location_of_position a_position 950 in
  let c := App.set_currentLocation (Some loc)
             (App.set_userData (Some ana_user) (App.initial 0)) in
  let r := App.saveLocation (Sys w c) in
  let data := <["savedAt" := VDate (now w)]> loc in
  r.1 = Ok tt ∧
  if has_undefined data || bool_decide (is_Some (next_fault w))
  then App.currentLocation (ctl r.2) = Some loc ∧ store (env r.2) = store w
  else App.currentLocation (ctl r.2) = None ∧
       store (env r.2)
       = <[ ["users"; "u1"; "locations";
             fresh_id ["users"; "u1"; "locations"] (store w)]
            := to_store <$> data ]> (store w).
Proof.
  intros w loc c.
  apply (proj1 save_and_the_captured_location w c ana_user "u1" loc);
    [reflexivity|reflexivity|done|reflexivity].
Defined.

(** ** The profile of the older controller and its stored document *)

Lemma trim_has_text (s : string) :
  Mono.has_text (Some s) = true → trim s ≠ "".
Proof.
  unfold Mono.has_text. intros [_ H]%andb_prop.
  by destruct (String.eqb_spec (trim s) "").
Qed.

Lemma email_username_not_empty (em : option string) :
  Mono.email_username em ≠ "".
Proof.
  unfold Mono.email_username. destruct em as [em|]; [|done].
  destruct (String.eqb em ""); [done|].
  destruct (letters_only (before "@" em)) eqn:Hl; [|done].
  unfold letters_only in Hl. by destruct (before "@" em).
Qed.

Lemma choose_username_not_empty (registered : string) (user : auth_user) :
  Mono.choose_username registered user ≠ "".
Proof.
  unfold Mono.choose_username.
  destruct (Mono.has_text (Some registered)) eqn:Hr; [by apply trim_has_text|].
  destruct (auth_displayName user) as [dn|]; cbn [default].
  - destruct (Mono.has_text (Some dn)) eqn:Hd; [by apply trim_has_text|].
    apply email_username_not_empty.
  - apply email_username_not_empty.
Qed.

(** X11. Whatever happens, [createUserProfile] of the older controller ends
    with a profile in state that has the given id, a username that is not
    empty and no premium status.  When the store took the write, the user's
    document is that very profile; when the call failed, the store is
    unchanged and the profile exists in state only. *)
Theorem created_profile_is_named (userId : string) (w : world) (c : Mono.state)
    (user : auth_user) :
  currentUser w = Some user →
  let r := Mono.createUserProfile userId (Sys w c) in
  r.1 = Ok tt ∧
  ∃ (p : obj) (uname : string),
    Mono.userProfile (ctl r.2) = Some p ∧
    p !! "id" = Some (VStr userId) ∧
    p !! "username" = Some (VStr uname) ∧ uname ≠ "" ∧
    p !! "isPremium" = Some (VBool false) ∧
    match next_fault w with
    | None => store (env r.2) = <[ ["users"; userId] := to_store <$> p ]> (store w)
    | Some _ => store (env r.2) = store w
    end.
Proof.
  intros Hu. cbv zeta. rewrite (Mono_createUserProfile_run userId w c user Hu).
  destruct (next_fault w); cbn [fst snd env ctl].
  - split; [done|]. eexists _, "Marwan". by autorewrite with world.
  - split; [done|].
    eexists _, (Mono.choose_username (Mono.registerUsername c) user).
    autorewrite with world. cbn [Mono.userProfile Mono.set_isPremium
      Mono.set_userProfile].
    repeat split; try done. apply choose_username_not_empty.
Qed.

Lemma created_profile_is_named_witness :
  let w := world_of ∅ [] in
  let r := Mono.createUserProfile "u1" (Sys w (Mono.initial 0)) in
  r.1 = Ok tt ∧
  ∃ (p : obj) (uname : string),
    Mono.userProfile (ctl r.2) = Some p ∧
    p !! "id" = Some (VStr "u1") ∧
    p !! "username" = Some (VStr uname) ∧ uname ≠ "" ∧
    p !! "isPremium" = Some (VBool false) ∧
    match next_fault w with
    | None => store (env r.2) = <[ ["users"; "u1"] := to_store <$> p ]> (store w)
    | Some _ => store (env r.2) = store w
    end.
Proof.
  intros w.
  apply (created_profile_is_named "u1" w (Mono.initial 0) ana). reflexivity.
Defined.

(** X12. In the older controller the profile in state and the user's stored
    document stay in step under [updateUserProfile]: if the document is the
    stored form of the profile before the call, it is so after it, in every
    outcome, and the call never throws.  The update is applied to both or to
    neither; it is applied when the data is accepted and the store answers. *)
Theorem profile_stays_in_step (updates : obj) (w : world) (c : Mono.state)
    (user : auth_user) (prof : obj) :
  currentUser w = Some user → Mono.userProfile c = Some prof →
  store w !! ["users"; auth_uid user] = Some (to_store <$> prof) →
  let r := Mono.updateUserProfile updates (Sys w c) in
  r.1 = Ok tt ∧
  ∃ prof', Mono.userProfile (ctl r.2) = Some prof' ∧
           store (env r.2) !! ["users"; auth_uid user]
           = Some (to_store <$> prof') ∧
           prof' = if has_undefined updates || bool_decide (is_Some (next_fault w))
                   then prof else spread prof updates.
Proof.
  intros Hu Hp Hst. cbv zeta.
  rewrite Mono_updateUserProfile_run, Hu, Hp.
  destruct (has_undefined updates); cbn [orb].
  { split; [done|]. by exists prof. }
  destruct (next_fault w) eqn:Hf.
  { split; [done|]. exists prof. by autorewrite with world. }
  rewrite bool_decide_eq_false_2 by (by intros [? [=]]).
  rewrite Hst. split; [done|]. exists (spread prof updates).
  cbn [fst snd env ctl]. autorewrite with world.
  split; [done|]. split; [|done].
  rewrite lookup_insert_eq. unfold spread. by rewrite map_fmap_union.
Qed.

Lemma profile_stays_in_step_witness :
  let p := Mono.profile "u1" "Ana" "ana@x.com" 0 in
  let w := world_of {[ ["users"; "u1"] := to_store <$> p ]} [] in
  let c := Mono.set_userProfile (Some p) (Mono.initial 0) in
  let updates : obj := {[ "username" := VStr "Anna" ]} in
  let r := Mono.updateUserProfile updates (Sys w c) in
  r.1 = Ok tt ∧
  ∃ prof', Mono.userProfile (ctl r.2) = Some prof' ∧
           store (env r.2) !! ["users"; "u1"] = Some (to_store <$> prof') ∧
           prof' = if has_undefined updates || bool_decide (is_Some (next_fault w))
                   then p else spread p updates.
Proof.
  intros p w c updates.
  apply (profile_stays_in_step updates w c ana p); reflexivity.
Defined.

(** ** Signing in and out *)

Lemma App_getAuthErrorMessage_not_empty (e : js_error) :
  App.getAuthErrorMessage e ≠ "".
Proof.
  destruct e as [code ?| |]; [|done..]. unfold App.getAuthErrorMessage.
  repeat (match goal with |- context [String.eqb code ?k] =>
            destruct (String.eqb code k); [done|] end).
  done.
Qed.

Lemma Mono_getAuthErrorMessage_not_empty (e : js_error) :
  Mono.getAuthErrorMessage e ≠ "".
Proof.
  destruct e as [code ?| |]; [|done..]. unfold Mono.getAuthErrorMessage.
  repeat (match goal with |- context [String.eqb code ?k] =>
            destruct (String.eqb code k); [done|] end).
  done.
Qed.

(** X13. A login never throws, and its error message tells its outcome: the
    message is empty exactly when the provider accepted the credentials, in
    which case the user is signed in and the form is cleared; otherwise the
    world is as it was and the form keeps what was typed.  The older
    controller does not contact the provider when the email or the password
    is empty. *)
Theorem login_outcome :
  (∀ s : sys App.state,
     let r := App.onLogin s in
     r.1 = Ok tt ∧
     match authenticate (env s) (App.loginEmail (ctl s))
                        (App.loginPassword (ctl s)) with
     | inr u =>
         env r.2 = set_currentUser (Some u) (env s) ∧
         App.loginError (ctl r.2) = "" ∧
         App.loginEmail (ctl r.2) = "" ∧ App.loginPassword (ctl r.2) = ""
     | inl _ =>
         env r.2 = env s ∧ App.loginError (ctl r.2) ≠ "" ∧
         App.loginEmail (ctl r.2) = App.loginEmail (ctl s) ∧
         App.loginPassword (ctl r.2) = App.loginPassword (ctl s)
     end) ∧
  (∀ s : sys Mono.state,
     let r := Mono.onLogin s in
     r.1 = Ok tt ∧
     if String.eqb (Mono.loginEmail (ctl s)) ""
        || String.eqb (Mono.loginPassword (ctl s)) ""
     then env r.2 = env s ∧
          ctl r.2 = Mono.set_loginError "Please enter both email and password"
                      (ctl s)
     else
       match authenticate (env s) (Mono.loginEmail (ctl s))
                          (Mono.loginPassword (ctl s)) with
       | inr u =>
           env r.2 = set_currentUser (Some u) (env s) ∧
           Mono.loginError (ctl r.2) = "" ∧
           Mono.loginEmail (ctl r.2) = "" ∧ Mono.loginPassword (ctl r.2) = ""
       | inl _ =>
           env r.2 = env s ∧ Mono.loginError (ctl r.2) ≠ "" ∧
           Mono.loginEmail (ctl r.2) = Mono.loginEmail (ctl s) ∧
           Mono.loginPassword (ctl r.2) = Mono.loginPassword (ctl s)
       end).
Proof.
  split; intros [w c]; cbv zeta.
  - unfold App.onLogin, try_catch, bind, setC, getsC, gets, modify, liftW,
      AuthService.login, try_catch, bind, SDK.signInWithEmailAndPassword,
      AuthService.rethrow, throw, ret.
    cbn [env ctl fst snd App.loginEmail App.loginPassword App.set_loginError].
    destruct (authenticate w _ _) as [e|u]; cbn [fst snd env ctl].
    + repeat split; try done. apply App_getAuthErrorMessage_not_empty.
    + done.
  - unfold Mono.onLogin, try_catch, bind, setC, getsC, gets, modify, liftW,
      SDK.signInWithEmailAndPassword, ret.
    cbn [env ctl fst snd Mono.loginEmail Mono.loginPassword
         Mono.set_loginError].
    destruct (String.eqb (Mono.loginEmail c) "" || String.eqb (Mono.loginPassword c) "");
      [done|].
    cbn [env ctl fst snd].
    destruct (authenticate w _ _) as [e|u]; cbn [fst snd env ctl].
    + repeat split; try done. apply Mono_getAuthErrorMessage_not_empty.
    + done.
Qed.

(** X14. In the newer controller the lists of a session are read under the
    [uid] field of the user's document, not under the id of the session: when
    no call fails, the reaction to a session whose user document carries
    [uid = userId] ends with the workouts and locations stored under
    [users/userId], and writes nothing. *)
Theorem session_lists_follow_document (fu : auth_user) (w : world)
    (c : App.state) (d : obj) (userId : string) :
  faults w = [] →
  store w !! ["users"; auth_uid fu] = Some d →
  d !! "uid" = Some (VStr userId) → userId ≠ "" →
  let r := App.on_user (Some fu) (Sys w c) in
  r.1 = Ok tt ∧ store (env r.2) = store w ∧
  App.workouts (ctl r.2)
  = AuthService.workout_of_doc
      <$> query_desc ["users"; userId; "workouts"] "date" (store w) ∧
  App.savedLocations (ctl r.2)
  = AuthService.location_of_doc
      <$> query_desc ["users"; userId; "locations"] "savedAt" (store w).
Proof.
  intros Hf Hst Hd Hne. cbv zeta.
  assert (next_fault w = None) as Hnf by (unfold next_fault; by rewrite Hf).
  assert (pop_fault w = w) as Hpf.
  { unfold pop_fault, set_faults. rewrite Hf. destruct w. cbn in *. by subst. }
  unfold App.on_user, App.loadUserData, bind, try_catch, liftW, setC, modify.
  cbn [env ctl fst snd].
  rewrite getUserData_run, Hnf, Hst, Hpf.
  cbn [fst snd env ctl fmap option_fmap option_map].
  rewrite App_loadWorkouts_run.
  cbn [env ctl App.userData App.set_userData App.set_editUsername
       AuthService.uid AuthService.user_of_doc].
  rewrite (prop_lookup _ _ _ Hd), truthy_VStr by done.
  rewrite Hnf, Hpf. cbn [fst snd].
  rewrite App_loadLocations_run.
  cbn [env ctl App.userData App.set_userData App.set_editUsername
       App.set_workouts AuthService.uid AuthService.user_of_doc].
  rewrite (prop_lookup _ _ _ Hd), truthy_VStr by done.
  by rewrite Hnf, Hpf.
Qed.

Lemma session_lists_follow_document_witness :
  let w := world_of ana_store [] in
  let r := App.on_user (Some ana) (Sys w (App.initial 0)) in
  r.1 = Ok tt ∧ store (env r.2) = store w ∧
  App.workouts (ctl r.2)
  = AuthService.workout_of_doc
      <$> query_desc ["users"; "u1"; "workouts"] "date" (store w) ∧
  App.savedLocations (ctl r.2)
  = AuthService.location_of_doc
      <$> query_desc ["users"; "u1"; "locations"] "savedAt" (store w).
Proof.
  intros w.
  apply (session_lists_follow_document ana w (App.initial 0) ana_doc "u1");
    [reflexivity|reflexivity|reflexivity|done].
Defined.

(** ** Helpers of the views *)

Lemma js_or_truthy_r (a b : value) : truthy b = true → truthy (js_or a b) = true.
Proof. unfold js_or. by destruct (truthy a) eqn:Ha. Qed.

Lemma js_or_truthy_l (a b : value) : truthy a = true → js_or a b = a.
Proof. unfold js_or. by intros ->. Qed.

Lemma js_or_falsy_l (a b : value) : truthy a = false → js_or a b = b.
Proof. unfold js_or. by intros ->. Qed.

(** X15. The name a view shows is never empty, null or undefined, whatever
    the profile and the session hold; it is the profile's username whenever
    that one is truthy, and ['User'] when no source has a truthy name. *)
Theorem display_name_is_never_empty :
  (∀ (c : App.state) (user : option auth_user),
     let shown := AppMore.getDisplayName c user in
     truthy shown = true ∧
     (∀ u, App.userData c = Some u → truthy (AuthService.username u) = true →
           shown = AuthService.username u) ∧
     (App.userData c = None → truthy (user_displayName user) = false →
      shown = VStr "User")) ∧
  (∀ (c : Mono.state) (user : option auth_user),
     let shown := MonoMore.getDisplayName c user in
     truthy shown = true ∧
     (∀ p, Mono.userProfile c = Some p → truthy (prop p "username") = true →
           shown = prop p "username") ∧
     (Mono.userProfile c = None → truthy (user_displayName user) = false →
      shown = VStr "User")).
Proof.
  split; intros c user; cbv zeta.
  - unfold AppMore.getDisplayName. split; [by apply js_or_truthy_r|].
    split.
    + intros u -> Hu. cbn match.
      by rewrite !(js_or_truthy_l (AuthService.username u)).
    + intros -> Hd. cbn match.
      by rewrite js_or_falsy_l.
  - unfold MonoMore.getDisplayName. split; [|split].
    + set (username := if Mono.userProfile c is Some p
                         then prop p "username" else VUndefined).
      destruct (truthy username) eqn:H1; [done|].
      by destruct (truthy (user_displayName user)) eqn:H2.
    + by intros p -> ->.
    + intros -> Hd. cbn [truthy]. by rewrite Hd.
Qed.

(** X16. [getWorkoutIcon] answers with one of its five icons, a string that
    is not empty, for every type except a name that every object inherits
    (such as [constructor]): for such a name the lookup finds the inherited
    member, which is truthy, and the default is not used. *)
Theorem workout_icon_range (type : string) :
  match getWorkoutIcon type with
  | Icon s =>
      (type ∉ object_prototype_keys) ∧ (s ∈ ["🏃"; "💪"; "🧘"; "⚡"; "🏀"])
  | Inherited key => key = type ∧ (type ∈ object_prototype_keys)
  end.
Proof.
  unfold getWorkoutIcon.
  destruct (String.eqb_spec type "Cardio") as [->|_].
  { split; [apply (bool_decide_eq_false_1 _); vm_compute; reflexivity|set_solver]. }
  destruct (String.eqb_spec type "Strength") as [->|_].
  { split; [apply (bool_decide_eq_false_1 _); vm_compute; reflexivity|set_solver]. }
  destruct (String.eqb_spec type "Yoga") as [->|_].
  { split; [apply (bool_decide_eq_false_1 _); vm_compute; reflexivity|set_solver]. }
  destruct (String.eqb_spec type "HIIT") as [->|_].
  { split; [apply (bool_decide_eq_false_1 _); vm_compute; reflexivity|set_solver]. }
  destruct (String.eqb_spec type "Sports") as [->|_].
  { split; [apply (bool_decide_eq_false_1 _); vm_compute; reflexivity|set_solver]. }
  destruct (bool_decide_reflect (type ∈ object_prototype_keys)); [done|].
  split; [done|set_solver].
Qed.

(** ** Registration *)

Lemma register_doc_defined (userId em name : string) (d : Z) :
  has_undefined ({[ "uid" := VStr userId; "email" := VStr em;
                    "username" := VStr name; "displayName" := VStr name;
                    "createdAt" := VDate d ]} : obj) = false.
Proof.
  apply has_undefined_false. intros k Hk.
  repeat (apply lookup_insert_Some in Hk as [[_ Hk]|[_ Hk]]; [done|]).
  by apply lookup_singleton_Some in Hk as [_ ?].
Qed.

Lemma register_run (reply : js_error + auth_user) (em password name : string)
    (w : world) :
  AuthServiceMore.register reply em password name w =
  match reply with
  | inl e => (Throw e, w)
  | inr u =>
      match next_fault w with
      | Some e => (Throw e, pop_fault (set_currentUser (Some u) w))
      | None =>
          let w2 := set_currentUser
                      (Some (AuthUser (auth_uid u) (auth_email u) (Some name)))
                      (pop_fault w) in
          match next_fault (pop_fault w) with
          | Some e => (Throw e, pop_fault w2)
          | None =>
              (Ok tt,
               set_store
                 (<[ ["users"; auth_uid u]
                     := to_store <$>
                        ({[ "uid" := VStr (auth_uid u); "email" := VStr em;
                            "username" := VStr name;
                            "displayName" := VStr name;
                            "createdAt" := VDate (now w) ]} : obj) ]>)
                 (pop_fault w2))
          end
      end
  end.
Proof.
  unfold AuthServiceMore.register, try_catch, bind at 1,
    Auth.createUserWithEmailAndPassword, AuthService.rethrow, throw.
  destruct reply as [e|u]; [done|].
  unfold bind at 1, modify, ret. cbn [fst snd].
  unfold bind at 1. rewrite updateProfile_run.
  rewrite next_fault_set_currentUser.
  destruct (next_fault w); [done|]. cbn [fst snd].
  unfold bind, clock, gets. cbn [fst snd]. rewrite setDoc_run.
  rewrite register_doc_defined. cbn [currentUser set_currentUser fmap option_fmap option_map].
  change (pop_fault (set_currentUser (Some u) w))
    with (set_currentUser (Some u) (pop_fault w)).
  rewrite !next_fault_set_currentUser.
  destruct (next_fault (pop_fault w)); reflexivity.
Qed.

(** X17. A registration that succeeds can be read back: the provider has the
    new user signed in under the chosen display name, and from then on, as
    long as the store holds what the registration left, [getUserData] for the
    new id returns the user with that id, the email and the name that were
    given, and the time of the registration as its creation date. *)
Theorem registered_user_round_trip (u : auth_user) (em password name : string)
    (w : world) :
  next_fault w = None → next_fault (pop_fault w) = None →
  let r := AuthServiceMore.register (inr u) em password name w in
  r.1 = Ok tt ∧
  currentUser r.2 = Some (AuthUser (auth_uid u) (auth_email u) (Some name)) ∧
  ∀ w', store w' = store r.2 → next_fault w' = None →
        (AuthService.getUserData (auth_uid u) w').1
        = Ok (Some (AuthService.mkUser (VStr (auth_uid u)) (VStr em)
                      (VStr name) (VStr name) (VDate (now w)))).
Proof.
  intros Hf1 Hf2. cbv zeta. rewrite register_run, Hf1. cbv zeta. rewrite Hf2.
  cbn [fst snd]. split; [done|]. split; [done|].
  intros w' Hst Hf. rewrite getUserData_run, Hf, Hst. cbn [fst].
  autorewrite with world. rewrite lookup_insert_eq. cbn [fmap option_fmap option_map].
  unfold AuthService.user_of_doc, prop.
  rewrite !lookup_fmap.
  repeat (rewrite ?lookup_insert_eq; rewrite ?lookup_insert_ne by done).
  rewrite lookup_singleton_eq. cbn. unfold toDate. do 3 f_equal.
  by rewrite Z.quot_mul.
Qed.

Lemma registered_user_round_trip_witness :
  let r := AuthServiceMore.register (inr ana) "ana@x.com" "secret" "Ana"
             (world_of ∅ []) in
  r.1 = Ok tt ∧
  currentUser r.2 = Some (AuthUser "u1" (Some "ana@x.com") (Some "Ana")) ∧
  ∀ w', store w' = store r.2 → next_fault w' = None →
        (AuthService.getUserData "u1" w').1
        = Ok (Some (AuthService.mkUser (VStr "u1") (VStr "ana@x.com")
                      (VStr "Ana") (VStr "Ana") (VDate 1000))).
Proof.
  apply (registered_user_round_trip ana "ana@x.com" "secret" "Ana"
           (world_of ∅ [])); reflexivity.
Defined.

(** X18. A registration the provider turns down changes nothing.  One the
    provider accepts leaves the new user signed in whether or not the rest
    succeeds: when setting the display name or writing the document fails,
    [register] throws and the store is as it was, so the account exists
    without its document.  It returns only when the document is stored. *)
Theorem registration_outcomes (reply : js_error + auth_user)
    (em password name : string) (w : world) :
  let r := AuthServiceMore.register reply em password name w in
  match reply with
  | inl e => r = (Throw e, w)
  | inr u =>
      (∃ dn, currentUser r.2
             = Some (AuthUser (auth_uid u) (auth_email u) dn)) ∧
      match r.1 with
      | Ok _ => field_at (store r.2) ["users"; auth_uid u] "username"
                = Some (VStr name)
      | Throw _ => store r.2 = store w
      end
  end.
Proof.
  cbv zeta. rewrite register_run. destruct reply as [e|[uid em' dn]]; [done|].
  cbn [auth_uid auth_email].
  destruct (next_fault w); cbn [fst snd].
  { split; [by eexists|done]. }
  destruct (next_fault (pop_fault w)); cbn [fst snd].
  { split; [by eexists|done]. }
  split; [by eexists|]. autorewrite with world. unfold field_at.
  rewrite lookup_insert_eq. cbn. rewrite lookup_fmap.
  repeat (rewrite ?lookup_insert_eq; rewrite ?lookup_insert_ne by done).
  done.
Qed.

(** ** The registration form *)

(** X19. Submitting the registration form of the newer controller never
    throws and leaves exactly one message: when [register] returns, the
    success message, with the form cleared; when it throws, an error message
    that is not empty, with the form as it was typed.  The rest of the
    controller's state is not touched. *)
Theorem registration_form_outcome (reply : js_error + auth_user)
    (s : sys AppMore.state) :
  let f := AppMore.screen_of (ctl s) in
  let reg := AuthServiceMore.register reply (AppMore.registerEmail f)
               (AppMore.registerPassword f) (AppMore.registerUsername f)
               (env s) in
  let r := AppMore.onRegister reply s in
  let f' := AppMore.screen_of (ctl r.2) in
  r.1 = Ok tt ∧ env r.2 = reg.2 ∧ AppMore.base (ctl r.2) = AppMore.base (ctl s) ∧
  match reg.1 with
  | Ok _ =>
      AppMore.registerError f' = "" ∧
      AppMore.registerSuccess f'
      = "Account created successfully! You can now login." ∧
      AppMore.registerUsername f' = "" ∧ AppMore.registerEmail f' = "" ∧
      AppMore.registerPassword f' = ""
  | Throw e =>
      AppMore.registerError f' = App.getAuthErrorMessage e ∧
      AppMore.registerError f' ≠ "" ∧ AppMore.registerSuccess f' = "" ∧
      AppMore.registerUsername f' = AppMore.registerUsername f ∧
      AppMore.registerEmail f' = AppMore.registerEmail f ∧
      AppMore.registerPassword f' = AppMore.registerPassword f
  end.
Proof.
  destruct s as [w [b f]]. cbv zeta.
  unfold AppMore.onRegister, try_catch, bind, AppMore.setS, AppMore.getsS,
    gets, modify, liftW.
  cbn [env ctl fst snd AppMore.base AppMore.screen_of AppMore.registerEmail
       AppMore.registerPassword AppMore.registerUsername
       AppMore.set_registerError AppMore.set_registerSuccess].
  destruct (AuthServiceMore.register _ _ _ _ w) as [[[]|e] w1];
    cbn [fst snd env ctl AppMore.base AppMore.screen_of]; [done|].
  repeat split; try done. apply App_getAuthErrorMessage_not_empty.
Qed.

(** X20. The older controller checks the registration form before it
    contacts the provider: with an empty email, password or name, or with a
    password of fewer than six UTF-16 code units, nothing outside the
    controller changes, whatever the provider would have answered, and the
    error names the check that failed; the form keeps what was typed. *)
Theorem registration_form_is_checked (reply : js_error + auth_user)
    (s : sys MonoMore.state) :
  let f := MonoMore.screen_of (ctl s) in
  let name := Mono.registerUsername (MonoMore.base (ctl s)) in
  let r := MonoMore.onRegister reply s in
  String.eqb (MonoMore.registerEmail f) ""
  || String.eqb (MonoMore.registerPassword f) "" || String.eqb name ""
  || (js_length (MonoMore.registerPassword f) <? 6)%nat = true →
  r.1 = Ok tt ∧ env r.2 = env s ∧
  MonoMore.base (ctl r.2) = MonoMore.base (ctl s) ∧
  MonoMore.screen_of (ctl r.2)
  = MonoMore.set_registerError
      (if String.eqb (MonoMore.registerEmail f) ""
          || String.eqb (MonoMore.registerPassword f) "" || String.eqb name ""
       then "Please fill in all fields"
       else "Password must be at least 6 characters")
      (MonoMore.set_registerSuccess "" f).
Proof.
  destruct s as [w [b f]]. cbv zeta.
  cbn [env ctl MonoMore.base MonoMore.screen_of]. intros Hg.
  unfold MonoMore.onRegister, try_catch, bind, MonoMore.setS, MonoMore.getsS,
    MonoMore.getsB, gets, modify.
  cbn [env ctl fst snd MonoMore.base MonoMore.screen_of
       MonoMore.registerEmail MonoMore.registerPassword
       MonoMore.set_registerError MonoMore.set_registerSuccess].
  destruct (String.eqb (MonoMore.registerEmail f) ""
            || String.eqb (MonoMore.registerPassword f) ""
            || String.eqb (Mono.registerUsername b) ""); [done|].
  cbn [orb] in Hg. by rewrite Hg.
Qed.

Lemma registration_form_is_checked_witness :
  let s := Sys (world_of ∅ [])
             (MonoMore.State (Mono.set_registerUsername "Ana" (Mono.initial 0))
                (MonoMore.set_registerPassword "12345"
                   (MonoMore.set_registerEmail "ana@x.com"
                      (MonoMore.screen_of (MonoMore.initial 0))))) in
  let r := MonoMore.onRegister (inr ana) s in
  r.1 = Ok tt ∧ env r.2 = env s ∧
  MonoMore.base (ctl r.2) = MonoMore.base (ctl s) ∧
  MonoMore.screen_of (ctl r.2)
  = MonoMore.set_registerError "Password must be at least 6 characters"
      (MonoMore.set_registerSuccess "" (MonoMore.screen_of (ctl s))).
Proof.
  intros s. apply (registration_form_is_checked (inr ana) s). reflexivity.
Defined.

Lemma MonoMore_onRegister_run (u : auth_user) (w : world) (b : Mono.state)
    (f : MonoMore.screen) :
  String.eqb (MonoMore.registerEmail f) ""
  || String.eqb (MonoMore.registerPassword f) ""
  || String.eqb (Mono.registerUsername b) "" = false →
  (js_length (MonoMore.registerPassword f) <? 6)%nat = false →
  next_fault w = None →
  let user := AuthUser (auth_uid u) (auth_email u)
                (Some (Mono.registerUsername b)) in
  let c := Mono.createUserProfile (auth_uid u)
             (Sys (set_currentUser (Some user) (pop_fault w)) b) in
  MonoMore.onRegister (inr u) (Sys w (MonoMore.State b f)) =
  (Ok tt,
   Sys (env c.2)
     (MonoMore.State
        (Mono.set_registerUsername "" (ctl c.2))
        (MonoMore.set_registerPassword ""
           (MonoMore.set_registerEmail ""
              (MonoMore.set_registerSuccess
                 "Account created successfully! Welcome!"
                 (MonoMore.set_registerSuccess ""
                    (MonoMore.set_registerError "" f))))))).
Proof.
  intros Hg Hl Hf. cbv zeta.
  unfold MonoMore.onRegister, try_catch, bind, MonoMore.setS, MonoMore.getsS,
    MonoMore.getsB, MonoMore.setB, MonoMore.liftB, gets, modify, liftW,
    Auth.createUserWithEmailAndPassword, bind, modify, ret.
  cbn [env ctl fst snd MonoMore.base MonoMore.screen_of
       MonoMore.registerEmail MonoMore.registerPassword
       MonoMore.set_registerError MonoMore.set_registerSuccess].
  rewrite Hg, Hl. cbn [env ctl fst snd]. rewrite updateProfile_run.
  rewrite next_fault_set_currentUser, Hf.
  cbn [fst snd env ctl currentUser set_currentUser fmap option_fmap option_map
       MonoMore.base MonoMore.screen_of].
  match goal with |- context [Mono.createUserProfile ?i ?s] =>
    change s with (Sys (set_currentUser
                          (Some (AuthUser (auth_uid u) (auth_email u)
                                   (Some (Mono.registerUsername b))))
                          (pop_fault w)) b);
    pose proof (Mono_createUserProfile_run i
                  (set_currentUser
                     (Some (AuthUser (auth_uid u) (auth_email u)
                              (Some (Mono.registerUsername b))))
                     (pop_fault w)) b _ eq_refl) as Hc;
    destruct (Mono.createUserProfile i _) as [rc sc]
  end.
  assert (rc = Ok tt) as ->.
  { destruct (next_fault _) in Hc; by injection Hc. }
  done.
Qed.

(** X21. Once the provider has created the account and taken the display
    name, the older controller reports the registration as a success and
    clears the form, with a profile in state under the new id, whether or not
    the profile document could be written: when that write fails the store is
    as it was. *)
Theorem registration_reports_success (u : auth_user) (w : world)
    (b : Mono.state) (f : MonoMore.screen) :
  String.eqb (MonoMore.registerEmail f) ""
  || String.eqb (MonoMore.registerPassword f) ""
  || String.eqb (Mono.registerUsername b) "" = false →
  (js_length (MonoMore.registerPassword f) <? 6)%nat = false →
  next_fault w = None →
  let r := MonoMore.onRegister (inr u) (Sys w (MonoMore.State b f)) in
  let f' := MonoMore.screen_of (ctl r.2) in
  let b' := MonoMore.base (ctl r.2) in
  r.1 = Ok tt ∧
  MonoMore.registerSuccess f' = "Account created successfully! Welcome!" ∧
  MonoMore.registerError f' = "" ∧
  MonoMore.registerEmail f' = "" ∧ MonoMore.registerPassword f' = "" ∧
  Mono.registerUsername b' = "" ∧
  (∃ p, Mono.userProfile b' = Some p ∧ p !! "id" = Some (VStr (auth_uid u))) ∧
  match next_fault (pop_fault w) with
  | Some _ => store (env r.2) = store w
  | None => is_Some (store (env r.2) !! ["users"; auth_uid u])
  end.
Proof.
  intros Hg Hl Hf. cbv zeta.
  rewrite (MonoMore_onRegister_run u w b f Hg Hl Hf).
  cbn [fst snd env ctl MonoMore.base MonoMore.screen_of].
  rewrite (Mono_createUserProfile_run (auth_uid u)
             (set_currentUser
                (Some (AuthUser (auth_uid u) (auth_email u)
                         (Some (Mono.registerUsername b))))
                (pop_fault w)) b
             (AuthUser (auth_uid u) (auth_email u)
                (Some (Mono.registerUsername b))) eq_refl).
  rewrite next_fault_set_currentUser.
  destruct (next_fault (pop_fault w)); cbn [fst snd env ctl].
  - repeat split; try done. eexists. split; [done|]. apply profile_id.
  - repeat split; try done.
    + eexists. split; [done|]. apply profile_id.
    + autorewrite with world. by rewrite lookup_insert_eq.
Qed.

Lemma registration_reports_success_witness :
  let b := Mono.set_registerUsername "Ana" (Mono.initial 0) in
  let f := MonoMore.set_registerPassword "secret"
             (MonoMore.set_registerEmail "ana@x.com"
                (MonoMore.screen_of (MonoMore.initial 0))) in
  let w := world_of ∅ [None; Some unavailable] in
  let r := MonoMore.onRegister (inr ana) (Sys w (MonoMore.State b f)) in
  let f' := MonoMore.screen_of (ctl r.2) in
  let b' := MonoMore.base (ctl r.2) in
  r.1 = Ok tt ∧
  MonoMore.registerSuccess f' = "Account created successfully! Welcome!" ∧
  MonoMore.registerError f' = "" ∧
  MonoMore.registerEmail f' = "" ∧ MonoMore.registerPassword f' = "" ∧
  Mono.registerUsername b' = "" ∧
  (∃ p, Mono.userProfile b' = Some p ∧ p !! "id" = Some (VStr "u1")) ∧
  match next_fault (pop_fault w) with
  | Some _ => store (env r.2) = store w
  | None => is_Some (store (env r.2) !! ["users"; "u1"])
  end.
Proof.
  intros b f w.
  apply (registration_reports_success ana w b f); reflexivity.
Defined.

(** ** The profile form and the upgrade of the older controller *)

Lemma Mono_updateUserProfile_frame (updates : obj) (s : sys Mono.state) :
  let r := Mono.updateUserProfile updates s in
  r.1 = Ok tt ∧ currentUser (env r.2) = currentUser (env s) ∧
  Mono.editUsername (ctl r.2) = Mono.editUsername (ctl s) ∧
  Mono.isPremium (ctl r.2) = Mono.isPremium (ctl s) ∧
  (is_Some (next_fault (env s)) →
   store (env r.2) = store (env s) ∧
   Mono.userProfile (ctl r.2) = Mono.userProfile (ctl s)).
Proof.
  destruct s as [w c]. cbv zeta. rewrite Mono_updateUserProfile_run.
  cbn [env ctl].
  destruct (currentUser w) as [user|] eqn:Hu; [|done].
  destruct (Mono.userProfile c) as [p|] eqn:Hp; [|done].
  destruct (has_undefined updates); [done|].
  destruct (next_fault w); [done|].
  destruct (store w !! ["users"; auth_uid user]); cbn [fst snd env ctl];
    autorewrite with world; repeat split; try done; by intros [? [=]].
Qed.

(** X22. Submitting the profile form of the older controller never throws.
    Without a session it reports a success and changes nothing outside the
    controller.  With a session its report follows the provider alone: when
    the display name is taken it reports a success and closes the form,
    whatever became of the write to the store, and when it is refused the
    error is the provider's message and the form stays open with the name
    that was typed.  An earlier error message is never cleared. *)
Theorem profile_form_outcome (s : sys MonoMore.state) :
  let f := MonoMore.screen_of (ctl s) in
  let b := MonoMore.base (ctl s) in
  let r := MonoMore.onUpdateProfile s in
  let f' := MonoMore.screen_of (ctl r.2) in
  let b' := MonoMore.base (ctl r.2) in
  r.1 = Ok tt ∧
  match currentUser (env s), next_fault (env s) with
  | None, _ =>
      env r.2 = env s ∧
      MonoMore.profileUpdateSuccess f'
      = "Profile updated successfully! (Demo mode)" ∧
      MonoMore.showEditProfile f' = false ∧ Mono.editUsername b' = "" ∧
      MonoMore.profileUpdateError f' = MonoMore.profileUpdateError f
  | Some u, None =>
      currentUser (env r.2)
      = Some (AuthUser (auth_uid u) (auth_email u) (Some (Mono.editUsername b))) ∧
      MonoMore.profileUpdateSuccess f' = "Profile updated successfully!" ∧
      MonoMore.showEditProfile f' = false ∧ Mono.editUsername b' = "" ∧
      MonoMore.profileUpdateError f' = MonoMore.profileUpdateError f
  | Some u, Some e =>
      currentUser (env r.2) = Some u ∧ store (env r.2) = store (env s) ∧
      MonoMore.profileUpdateError f' = MonoMore.message e ∧
      MonoMore.profileUpdateSuccess f' = MonoMore.profileUpdateSuccess f ∧
      MonoMore.showEditProfile f' = MonoMore.showEditProfile f ∧
      Mono.editUsername b' = Mono.editUsername b
  end.
Proof.
  destruct s as [w [b f]]. cbv zeta.
  unfold MonoMore.onUpdateProfile, try_catch, bind, MonoMore.setS,
    MonoMore.getsB, MonoMore.setB, MonoMore.liftB, gets, modify, liftW.
  cbn [env ctl fst snd MonoMore.base MonoMore.screen_of].
  destruct (currentUser w) as [u|] eqn:Hu; [|done].
  cbn [env ctl fst snd MonoMore.base MonoMore.screen_of].
  rewrite updateProfile_run, Hu.
  destruct (next_fault w) as [e|]; [done|].
  cbn [env ctl fst snd MonoMore.base MonoMore.screen_of fmap option_fmap
       option_map].
  match goal with |- context [Mono.updateUserProfile ?d ?s] =>
    destruct (Mono_updateUserProfile_frame d s) as (Hok & Hcu & He & _);
    destruct (Mono.updateUserProfile d s) as [r1 s1]
  end.
  cbn [fst snd env ctl] in *. subst r1.
  cbn [fst snd env ctl MonoMore.base MonoMore.screen_of].
  by rewrite Hcu.
Qed.

(** X23. The timer that a payment starts always ends with the premium flag
    set, the dialog closed and the processing flag cleared, and never throws;
    this does not depend on the store: when the write of [isPremium] fails,
    the store and the profile in state are as before and the flag is set all
    the same. *)
Theorem payment_always_upgrades (s : sys MonoMore.state) :
  let r := MonoMore.payment_timer s in
  let f' := MonoMore.screen_of (ctl r.2) in
  let b' := MonoMore.base (ctl r.2) in
  r.1 = Ok tt ∧ Mono.isPremium b' = VBool true ∧
  MonoMore.showUpgradeModal f' = false ∧
  MonoMore.paymentProcessing f' = false ∧
  (is_Some (next_fault (env s)) →
   store (env r.2) = store (env s) ∧
   Mono.userProfile b' = Mono.userProfile (MonoMore.base (ctl s))).
Proof.
  destruct s as [w [b f]]. cbv zeta.
  unfold MonoMore.payment_timer, try_catch, bind, MonoMore.setS,
    MonoMore.setB, MonoMore.liftB, gets, modify, liftW, ret.
  cbn [env ctl fst snd MonoMore.base MonoMore.screen_of].
  destruct (currentUser w) as [u|] eqn:Hu; [|done].
  cbn [env ctl fst snd MonoMore.base MonoMore.screen_of].
  match goal with |- context [Mono.updateUserProfile ?d ?s] =>
    destruct (Mono_updateUserProfile_frame d s) as (Hok & _ & _ & _ & Hst);
    destruct (Mono.updateUserProfile d s) as [r1 s1]
  end.
  cbn [fst snd env ctl] in *. subst r1.
  cbn [fst snd env ctl MonoMore.base MonoMore.screen_of].
  repeat split; try done; by apply Hst.
Qed.

Lemma payment_always_upgrades_witness :
  let s := Sys (world_of ana_store [Some unavailable])
               (MonoMore.State
                  (Mono.set_userProfile
                     (Some (Mono.profile "u1" "Ana" "ana@x.com" 0))
                     (Mono.initial 0))
                  (MonoMore.screen_of (MonoMore.initial 0))) in
  let r := MonoMore.payment_timer s in
  Mono.isPremium (MonoMore.base (ctl r.2)) = VBool true ∧
  store (env r.2) = store (env s) ∧
  Mono.userProfile (MonoMore.base (ctl r.2))
  = Some (Mono.profile "u1" "Ana" "ana@x.com" 0).
Proof.
  intros s. destruct (payment_always_upgrades s) as (_ & Hp & _ & _ & Hst).
  split; [exact Hp|]. apply Hst. vm_compute. by eexists.
Defined.

(** ** Signing out *)

(** X24. Signing out never throws and does not touch the store or the
    user-scoped state of the controller: clearing that state is left to the
    reaction to the end of the session, after which the controller is signed
    out.  When the provider fails, the session stays and so does the section
    shown; when it succeeds, the dashboard is the active section, and the
    newer controller is at the root route.  The older controller's premium
    flag is cleared by neither, so it outlives the session it was set in. *)
Theorem sign_out_outcome :
  (∀ s : sys AppMore.state,
     let r := AppMore.signOut s in
     r.1 = Ok tt ∧ store (env r.2) = store (env s) ∧
     AppMore.base (ctl r.2) = AppMore.base (ctl s) ∧
     match next_fault (env s) with
     | None =>
         currentUser (env r.2) = None ∧
         AppMore.activeSection (AppMore.screen_of (ctl r.2)) = "dashboard" ∧
         AppMore.route (AppMore.screen_of (ctl r.2)) = "/" ∧
         App_signed_out
           (App.on_user None (Sys (env r.2) (AppMore.base (ctl r.2)))).2
     | Some _ =>
         currentUser (env r.2) = currentUser (env s) ∧
         AppMore.screen_of (ctl r.2) = AppMore.screen_of (ctl s)
     end) ∧
  (∀ s : sys MonoMore.state,
     let r := MonoMore.signOut s in
     r.1 = Ok tt ∧ store (env r.2) = store (env s) ∧
     MonoMore.base (ctl r.2) = MonoMore.base (ctl s) ∧
     match next_fault (env s) with
     | None =>
         currentUser (env r.2) = None ∧
         MonoMore.activeSection (MonoMore.screen_of (ctl r.2)) = "dashboard" ∧
         Mono_signed_out
           (Mono.on_user None (Sys (env r.2) (MonoMore.base (ctl r.2)))).2 ∧
         Mono.isPremium
           (ctl (Mono.on_user None (Sys (env r.2) (MonoMore.base (ctl r.2)))).2)
         = Mono.isPremium (MonoMore.base (ctl s))
     | Some _ =>
         currentUser (env r.2) = currentUser (env s) ∧
         MonoMore.screen_of (ctl r.2) = MonoMore.screen_of (ctl s)
     end).
Proof.
  split; intros [w [b f]]; cbv zeta.
  - unfold AppMore.signOut, AppMore.logout, try_catch, bind, AppMore.setS,
      modify, liftW, Auth.signOut, bind, throw, ret.
    cbn [env ctl]. rewrite remote_run.
    destruct (next_fault w);
      cbn [fst snd env ctl AppMore.base AppMore.screen_of].
    + done.
    + repeat split; done.
  - unfold MonoMore.signOut, try_catch, bind, MonoMore.setS, modify, liftW,
      Auth.signOut, bind, ret.
    cbn [env ctl]. rewrite remote_run.
    destruct (next_fault w);
      cbn [fst snd env ctl MonoMore.base MonoMore.screen_of].
    + done.
    + repeat split; done.
Qed.

(** ** The workout form *)

Lemma App_loadWorkouts_frame (s : sys App.state) :
  (App.loadWorkouts s).1 = Ok tt ∧
  store (env (App.loadWorkouts s).2) = store (env s) ∧
  App.showAddWorkout (ctl (App.loadWorkouts s).2) = App.showAddWorkout (ctl s) ∧
  App.newWorkout (ctl (App.loadWorkouts s).2) = App.newWorkout (ctl s).
Proof.
  rewrite App_loadWorkouts_run.
  destruct (App.userData (ctl s)) as [u|]; [|done].
  destruct (truthy (AuthService.uid u)); [|done].
  destruct (AuthService.uid u); try done.
  cbn [fst snd env ctl]. by destruct (next_fault (env s)).
Qed.

Lemma Mono_loadWorkouts_frame (s : sys Mono.state) :
  (Mono.loadWorkouts s).1 = Ok tt ∧
  store (env (Mono.loadWorkouts s).2) = store (env s) ∧
  now (env (Mono.loadWorkouts s).2) = now (env s) ∧
  Mono.showAddWorkout (ctl (Mono.loadWorkouts s).2)
  = Mono.showAddWorkout (ctl s) ∧
  Mono.newWorkout (ctl (Mono.loadWorkouts s).2) = Mono.newWorkout (ctl s).
Proof. rewrite Mono_loadWorkouts_run. by destruct (currentUser (env s)). Qed.

(** X25. Submitting the workout form never throws.  In the newer controller
    the form is closed and reset exactly when the workout was stored: if the
    data holds an undefined field or the store fails, the form, the list and
    the store are as before.  The older controller fills every missing field
    before it writes, so its write is refused for no form; it closes and
    resets the form whenever the store took the write, and otherwise leaves
    the controller as it was. *)
Theorem workout_form_outcome :
  (∀ (w : world) (c : App.state) (u : AuthService.User) (userId : string),
     App.userData c = Some u → AuthService.uid u = VStr userId → userId ≠ "" →
     let r := App.addWorkout (Sys w c) in
     let data := <["date" := VDate (now w)]> (App.newWorkout c) in
     r.1 = Ok tt ∧
     if has_undefined data || bool_decide (is_Some (next_fault w))
     then store (env r.2) = store w ∧ ctl r.2 = c
     else App.showAddWorkout (ctl r.2) = false ∧
          App.newWorkout (ctl r.2) = App.blank_workout (now w) ∧
          store (env r.2)
          = <[ ["users"; userId; "workouts";
                fresh_id ["users"; userId; "workouts"] (store w)]
               := to_store <$> data ]> (store w)) ∧
  (∀ (w : world) (c : Mono.state) (user : auth_user),
     currentUser w = Some user →
     let r := Mono.addWorkout (Sys w c) in
     r.1 = Ok tt ∧
     match next_fault w with
     | Some _ => store (env r.2) = store w ∧ ctl r.2 = c
     | None =>
         Mono.showAddWorkout (ctl r.2) = false ∧
         Mono.newWorkout (ctl r.2) = Mono.blank_workout (now w) ∧
         is_Some (store (env r.2)
                    !! ["users"; auth_uid user; "workouts";
                        fresh_id ["users"; auth_uid user; "workouts"] (store w)])
     end).
Proof.
  split.
  - intros w c u userId Hd Hid Hne. cbv zeta.
    unfold App.addWorkout, bind, getsC, gets, App.no_uid, try_catch,
      App.with_uid, path_segment, liftW, setC, modify, clock, gets.
    cbn [env ctl fst snd]. rewrite Hd, Hid, truthy_VStr by done.
    cbn [negb env ctl fst snd]. rewrite addWorkout_run, addDoc_run.
    destruct (has_undefined _); [done|]. cbn [orb].
    destruct (next_fault w) eqn:Hf; [done|].
    rewrite bool_decide_eq_false_2 by (by intros [? [=]]).
    cbn [app fst snd env ctl].
    match goal with |- context [App.loadWorkouts ?s] =>
      destruct (App_loadWorkouts_frame s) as (Hok & Hst & Hshow & Hnew);
      destruct (App.loadWorkouts s) as [r1 s1]
    end.
    cbn [fst snd env ctl] in *. subst r1. cbn [fst snd].
    rewrite Hst, Hshow, Hnew.
    by autorewrite with world.
  - intros w c user Hu. cbv zeta.
    unfold Mono.addWorkout, bind, liftW, gets, getsC, gets, try_catch, clock,
      gets, setC, modify.
    cbn [env ctl fst snd]. rewrite Hu. cbn [env ctl fst snd].
    rewrite addDoc_run, Mono_workoutData_defined.
    destruct (next_fault w); [done|]. cbn [app fst snd env ctl].
    match goal with |- context [Mono.loadWorkouts ?s] =>
      destruct (Mono_loadWorkouts_frame s) as (Hok & Hst & Hnow & _);
      destruct (Mono.loadWorkouts s) as [r1 s1]
    end.
    cbn [fst snd env ctl] in *. subst r1. cbn [fst snd env ctl].
    rewrite Hst, Hnow. autorewrite with world.
    by rewrite lookup_insert_eq.
Qed.

Lemma workout_form_outcome_witness :
  let w := world_of ana_store [] in
  let r := Mono.addWorkout (Sys w (Mono.initial 0)) in
  r.1 = Ok tt ∧
  match next_fault w with
  | Some _ => store (env r.2) = store w ∧ ctl r.2 = Mono.initial 0
  | None =>
      Mono.showAddWorkout (ctl r.2) = false ∧
      Mono.newWorkout (ctl r.2) = Mono.blank_workout (now w) ∧
      is_Some (store (env r.2)
                 !! ["users"; "u1"; "workouts";
                     fresh_id ["users"; "u1"; "workouts"] (store w)])
  end.
Proof.
  intros w.
  apply (proj2 workout_form_outcome w (Mono.initial 0) ana). reflexivity.
Defined.

(** ** The messages for a failed sign-in *)

(** X26. The two controllers word a provider error alike: for every error
    but a weak password, the message of the newer controller is the message
    of the older one followed by a full stop. *)
Theorem auth_messages_agree (e : js_error) :
  (∀ m, e ≠ FirebaseError "auth/weak-password" m) →
  App.getAuthErrorMessage e = Mono.getAuthErrorMessage e +:+ ".".
Proof.
  intros Hw. destruct e as [code m| |]; [|done..].
  unfold App.getAuthErrorMessage, Mono.getAuthErrorMessage.
  repeat (match goal with |- context [String.eqb code ?k] =>
            destruct (String.eqb_spec code k) as [->|_];
            [try done; by destruct (Hw m)|] end).
  done.
Qed.

Lemma auth_messages_agree_witness :
  App.getAuthErrorMessage wrong_password
  = Mono.getAuthErrorMessage wrong_password +:+ ".".
Proof. apply (auth_messages_agree wrong_password). done. Defined.
